(** * perf1: work distribution, result aggregation and failure ledger

    A shallow embedding of the Go load-generation client (package main:
    roles.go, retry.go, csv_writer.go, workers.go, main.go and the executor,
    statistics and configuration listings) together with the properties of
    its partitioning, worker pool, ramp-up, statistics and ledger code. *)

From Stdlib Require Import ZArith Lia List QArith Ascii String.
From Stdlib Require Import DecimalString DecimalZ.
From stdpp Require Import base gmap list strings.

#[local] Open Scope Z_scope.

(** ** Results of Go calls

    A Go call either returns normally, returns a non-nil [error], panics
    (run-time error) or never returns. *)

Inductive result (A : Type) : Type :=
| Ok (a : A)
| Err (msg : string)
| Panic (msg : string)
| Loops.

Arguments Ok {A} a.
Arguments Err {A} msg.
Arguments Panic {A} msg.
Arguments Loops {A}.

Definition bind {A B} (r : result A) (k : A → result B) : result B :=
  match r with
  | Ok a => k a
  | Err e => Err e
  | Panic e => Panic e
  | Loops => Loops
  end.

#[global] Instance result_ret : MRet result := @Ok.
#[global] Instance result_bind : MBind result := λ A B k r, bind r k.

Definition is_ok {A} (r : result A) : Prop := ∃ a, r = Ok a.

(** ** Go's [int] on a 64-bit platform, and [time.Duration] (an int64) *)

Module GoInt.

Definition minInt : Z := - 2 ^ 63.
Definition maxInt : Z := 2 ^ 63 - 1.

(** Two's complement wrap-around of an exact result. *)
Definition wrap (z : Z) : Z := (z + 2 ^ 63) mod 2 ^ 64 - 2 ^ 63.

Definition in_range (z : Z) : Prop := minInt ≤ z ≤ maxInt.

Definition add (a b : Z) : Z := wrap (a + b).
Definition sub (a b : Z) : Z := wrap (a - b).
Definition mul (a b : Z) : Z := wrap (a * b).

(** [a / b] truncates towards zero and panics on a zero divisor. *)
Definition div (a b : Z) : result Z :=
  if decide (b = 0) then Panic "runtime error: integer divide by zero"
  else Ok (wrap (a ÷ b)).

(** [a % b] has the sign of the dividend and panics on a zero divisor. *)
Definition rem (a b : Z) : result Z :=
  if decide (b = 0) then Panic "runtime error: integer divide by zero"
  else Ok (wrap (Z.rem a b)).

End GoInt.

(** ** Formatting and parsing of integers ([fmt.Sprintf "%d"], [strconv.Atoi]) *)

Module Strconv.

(** [fmt.Sprintf("%d", z)]: decimal digits, a leading minus sign for a
    negative number, no padding. *)
Definition Itoa (z : Z) : string := NilZero.string_of_int (Z.to_int z).

(** [strconv.Atoi]: an optional sign, then one or more decimal digits;
    a value outside the range of [int] is an error. *)
Definition Atoi (s : string) : result Z :=
  let digits :=
    match s with
    | String c rest =>
        if Ascii.eqb c "+"%char
        then option_map Decimal.Pos (NilZero.uint_of_string rest)
        else NilZero.int_of_string s
    | EmptyString => None
    end in
  match digits with
  | Some d =>
      let z := Z.of_int d in
      if decide (GoInt.minInt ≤ z ≤ GoInt.maxInt) then Ok z
      else Err "strconv.Atoi: value out of range"
  | None => Err "strconv.Atoi: invalid syntax"
  end.

End Strconv.

(** ** Configuration (config.go) *)

Module ServerConfig.
Record t := { Host : string; Port : Z; Username : string; Password : string }.
End ServerConfig.

Module TestConfig.
Record t := {
  UsernamePrefix : string;
  UserPassword : string;
  RoleName : string;
  TenantPrefix : string }.
End TestConfig.

Module ExecutionConfig.
Record t := {
  NoOfThreads : Z;
  NoOfUsers : Z;
  LoopCount : Z;
  RampUpPeriod : Z;
  ScimIdCsvPath : string;
  FailedUsersCsvPath : string;
  NoOfTenants : Z;
  UserStartNumber : Z;
  TenantStartNumber : Z }.
End ExecutionConfig.

Record Config := {
  Server : ServerConfig.t;
  Test : TestConfig.t;
  Execution : ExecutionConfig.t }.

Definition DefaultConfig : Config := {|
  Server := {| ServerConfig.Host := "localhost"; ServerConfig.Port := 9443;
               ServerConfig.Username := "admin@wso2.com";
               ServerConfig.Password := "tpass" |};
  Test := {| TestConfig.UsernamePrefix := "isTestUser_";
             TestConfig.UserPassword := "Password_1";
             TestConfig.RoleName := "isTestUserRole";
             TestConfig.TenantPrefix := "tenant" |};
  Execution := {| ExecutionConfig.NoOfThreads := 1;
                  ExecutionConfig.NoOfUsers := 1000;
                  ExecutionConfig.LoopCount := 1000;
                  ExecutionConfig.RampUpPeriod := 10;
                  ExecutionConfig.ScimIdCsvPath := "scimIDs.csv";
                  ExecutionConfig.FailedUsersCsvPath := "failedUsers.csv";
                  ExecutionConfig.NoOfTenants := 5;
                  ExecutionConfig.UserStartNumber := 1;
                  ExecutionConfig.TenantStartNumber := 1 |} |}.

(** [fmt.Sprintf("%s@%s%d.com", ...)] *)
Definition GetTenantUsername (c : Config) (tenantIndex : Z) : string :=
  ServerConfig.Username (Server c) +:+ "@" +:+ TestConfig.TenantPrefix (Test c)
    +:+ Strconv.Itoa tenantIndex +:+ ".com".

(** [fmt.Sprintf("%s%d", ...)] *)
Definition GetTestUsername (c : Config) (userIndex : Z) : string :=
  TestConfig.UsernamePrefix (Test c) +:+ Strconv.Itoa userIndex.

(** [fmt.Sprintf("https://%s:%d", ...)] *)
Definition GetServerURL (c : Config) : string :=
  "https://" +:+ ServerConfig.Host (Server c) +:+ ":"
    +:+ Strconv.Itoa (ServerConfig.Port (Server c)).

(** ** The HTTP client (http_client.go)

    The transport and the server are outside the program.  A request is
    kept as the data the client puts into it (JSON and SOAP encoding and
    the base64 of the credentials are not expanded); a reply is what
    [client.Do], [io.ReadAll] and [json.Unmarshal] hand back. *)

Module SCIMUser.
Record t := {
  UserName : string;
  Password : string;
  FamilyName : string;
  GivenName : string;
  AccountLocked : string;
  Role : string }.
End SCIMUser.

Module SCIMUserResponse.
Record t := { ID : string; UserName : string }.
End SCIMUserResponse.

Inductive Payload :=
| AddRole (roleName : string)
| AddUser (user : SCIMUser.t).

Record Request := {
  URL : string;
  AuthUser : string;
  AuthPassword : string;
  Body : Payload }.

(** [TransportError]: [client.Do] failed.  Otherwise the status code, the
    body as [io.ReadAll] returned it with its error if any, and the outcome
    of [json.Unmarshal] on that body. *)
Inductive Reply :=
| TransportError (msg : string)
| Response (status : Z) (body : string) (readErr : option string)
    (decoded : SCIMUserResponse.t + string).

Module HTTPClient.
Record t := {
  config : Config;
  username : string;
  password : string }.
End HTTPClient.

Definition NewHTTPClient (c : Config) : HTTPClient.t :=
  {| HTTPClient.config := c;
     HTTPClient.username := ServerConfig.Username (Server c);
     HTTPClient.password := ServerConfig.Password (Server c) |}.

Definition SetTenantCredentials (h : HTTPClient.t) (tenantIndex : Z) : HTTPClient.t :=
  {| HTTPClient.config := HTTPClient.config h;
     HTTPClient.username := GetTenantUsername (HTTPClient.config h) tenantIndex;
     HTTPClient.password := ServerConfig.Password (Server (HTTPClient.config h)) |}.

Definition StatusOK : Z := 200.
Definition StatusCreated : Z := 201.
Definition StatusAccepted : Z := 202.

(** The request [CreateRole] sends, and what it makes of the reply. *)
Definition CreateRole_request (h : HTTPClient.t) (tenantIndex : Z) : Request :=
  let h := SetTenantCredentials h tenantIndex in
  {| URL := GetServerURL (HTTPClient.config h) +:+ "/services/RemoteUserStoreManagerService";
     AuthUser := HTTPClient.username h;
     AuthPassword := HTTPClient.password h;
     Body := AddRole (TestConfig.RoleName (Test (HTTPClient.config h))) |}.

Definition CreateRole_result (rep : Reply) : option string :=
  match rep with
  | TransportError e => Some ("failed to execute role creation request: " +:+ e)
  | Response status body _ _ =>
      if bool_decide (status ≠ StatusAccepted ∧ status ≠ StatusOK)
      then Some ("role creation failed with status " +:+ Strconv.Itoa status
                   +:+ ": " +:+ body)
      else None
  end.

(** The request [CreateUserWithName] sends: the user name of the payload is
    the [username] argument. *)
Definition CreateUserWithName_request
    (h : HTTPClient.t) (tenantIndex : Z) (username0 : string) : Request :=
  let h := SetTenantCredentials h tenantIndex in
  {| URL := GetServerURL (HTTPClient.config h) +:+ "/wso2/scim/Users";
     AuthUser := HTTPClient.username h;
     AuthPassword := HTTPClient.password h;
     Body := AddUser
       {| SCIMUser.UserName := username0;
          SCIMUser.Password := TestConfig.UserPassword (Test (HTTPClient.config h));
          SCIMUser.FamilyName := TestConfig.UsernamePrefix (Test (HTTPClient.config h)) +:+ "Family";
          SCIMUser.GivenName := TestConfig.UsernamePrefix (Test (HTTPClient.config h)) +:+ "givenName";
          SCIMUser.AccountLocked := "false";
          SCIMUser.Role := TestConfig.RoleName (Test (HTTPClient.config h)) |} |}.

(** [inl resp] for [(&userResp, nil)], [inr msg] for [(nil, err)]. *)
Definition CreateUserWithName_result
    (username0 : string) (rep : Reply) : SCIMUserResponse.t + string :=
  match rep with
  | TransportError e => inr ("failed to execute user creation request: " +:+ e)
  | Response _ _ (Some e) _ => inr ("failed to read response body: " +:+ e)
  | Response status body None decoded =>
      if bool_decide (status ≠ StatusCreated ∧ status ≠ StatusOK)
      then inr ("user creation failed with status " +:+ Strconv.Itoa status
                  +:+ ": " +:+ body)
      else match decoded with
           | inr e => inr ("failed to unmarshal user response: " +:+ e)
           | inl userResp =>
               if bool_decide (SCIMUserResponse.UserName userResp ≠ username0)
               then inr ("username mismatch in response: expected " +:+ username0
                           +:+ ", got " +:+ SCIMUserResponse.UserName userResp)
               else inl userResp
           end
  end.

(** ** Results, tasks and ledger records (csv_writer.go, workers.go) *)

Module TestResult.
Record t := {
  TenantIndex : Z;
  UserIndex : Z;
  ScimID : string;
  Success : bool;
  Error : option string;
  ThreadID : Z }.
End TestResult.

Module WorkerTask.
Record t := {
  UserStart : Z;
  UserEnd : Z;
  ThreadID : Z;
  Client : HTTPClient.t }.
End WorkerTask.

Module FailedUser.
Record t := {
  TenantID : Z;
  Username : string;
  Error : string;
  Timestamp : string }.
End FailedUser.

Module RetryWorkerTask.
Record t := {
  ThreadID : Z;
  UserStart : Z;
  UserEnd : Z;
  FailedUsers : list FailedUser.t;
  Client : HTTPClient.t }.
End RetryWorkerTask.

(** ** Statistics (csv_writer.go)

    The mutex of [TestStats] makes every method atomic: a method is a
    function from the counters before the call to the counters after it. *)

Record TestStats := {
  TotalUsers : Z;
  SuccessUsers : Z;
  FailedUsers : Z;
  TotalRoles : Z;
  SuccessRoles : Z;
  FailedRoles : Z }.

Definition NewTestStats : TestStats :=
  {| TotalUsers := 0; SuccessUsers := 0; FailedUsers := 0;
     TotalRoles := 0; SuccessRoles := 0; FailedRoles := 0 |}.

Definition IncrementRole (success : bool) (ts : TestStats) : TestStats :=
  let ts := {| TotalUsers := TotalUsers ts; SuccessUsers := SuccessUsers ts;
               FailedUsers := FailedUsers ts;
               TotalRoles := GoInt.add (TotalRoles ts) 1;
               SuccessRoles := SuccessRoles ts; FailedRoles := FailedRoles ts |} in
  if success
  then {| TotalUsers := TotalUsers ts; SuccessUsers := SuccessUsers ts;
          FailedUsers := FailedUsers ts; TotalRoles := TotalRoles ts;
          SuccessRoles := GoInt.add (SuccessRoles ts) 1;
          FailedRoles := FailedRoles ts |}
  else {| TotalUsers := TotalUsers ts; SuccessUsers := SuccessUsers ts;
          FailedUsers := FailedUsers ts; TotalRoles := TotalRoles ts;
          SuccessRoles := SuccessRoles ts;
          FailedRoles := GoInt.add (FailedRoles ts) 1 |}.

Definition IncrementUser (success : bool) (ts : TestStats) : TestStats :=
  let ts := {| TotalUsers := GoInt.add (TotalUsers ts) 1;
               SuccessUsers := SuccessUsers ts; FailedUsers := FailedUsers ts;
               TotalRoles := TotalRoles ts; SuccessRoles := SuccessRoles ts;
               FailedRoles := FailedRoles ts |} in
  if success
  then {| TotalUsers := TotalUsers ts;
          SuccessUsers := GoInt.add (SuccessUsers ts) 1;
          FailedUsers := FailedUsers ts; TotalRoles := TotalRoles ts;
          SuccessRoles := SuccessRoles ts; FailedRoles := FailedRoles ts |}
  else {| TotalUsers := TotalUsers ts; SuccessUsers := SuccessUsers ts;
          FailedUsers := GoInt.add (FailedUsers ts) 1;
          TotalRoles := TotalRoles ts; SuccessRoles := SuccessRoles ts;
          FailedRoles := FailedRoles ts |}.

(** The report of [PrintStats], line by line.  A rate is
    [float64(success) / float64(total) * 100]; it is kept here as the exact
    quotient (the rounding of float64 and of the "%.2f" format is not
    expanded). *)
Inductive StatLine :=
| LineBanner
| LineRoles (total success failed : Z)
| LineUsers (total success failed : Z)
| LineRoleRate (rate : Q)
| LineUserRate (rate : Q)
| LineRule.

Definition successRate (success total : Z) : Q :=
  (inject_Z success / inject_Z total * inject_Z 100)%Q.

Definition PrintStats (ts : TestStats) : list StatLine :=
  [LineBanner;
   LineRoles (TotalRoles ts) (SuccessRoles ts) (FailedRoles ts);
   LineUsers (TotalUsers ts) (SuccessUsers ts) (FailedUsers ts)]
  ++ (if decide (TotalRoles ts > 0)
      then [LineRoleRate (successRate (SuccessRoles ts) (TotalRoles ts))] else [])
  ++ (if decide (TotalUsers ts > 0)
      then [LineUserRate (successRate (SuccessUsers ts) (TotalUsers ts))] else [])
  ++ [LineRule].

(** ** The world outside the process

    A file is kept as the sequence of records that [encoding/csv] writes to
    it and reads back from it (the byte encoding of a record belongs to
    that library); the empty file is the empty sequence.  An open file is
    named by its path.  Operations of the operating system fail only when
    the file they need is absent.

    The trace lists what the process does to the outside, in order: system
    calls on files, the launch of workers and the pauses of the launcher,
    the requests sent, the results put on the reporting channel and the
    reports printed.  Progress narration by [fmt.Printf] is left out. *)

Inductive event :=
| EvStat (path : string)
| EvRemove (path : string)
| EvCreate (path : string)
| EvOpenAppend (path : string)
| EvOpenRead (path : string)
| EvFileWrite (path : string) (records : list (list string))
| EvClose (path : string)
| EvGo (threadID rangeStart rangeEnd : Z)
| EvSleep (d : Z)
| EvRequest (threadID : Z) (req : Request)
| EvPause (threadID : Z) (d : Z)
| EvIncrementRole (success : bool)
| EvWriteFailedUser (tenantID : Z) (username errorMsg timestamp : string)
| EvSend (r : TestResult.t)
| EvPrintln (line : string)
| EvPrintStats (report : list StatLine).

Record World := {
  files : gmap string (list (list string));
  trace : list event }.

Definition M (A : Type) : Type := World → result A * World.

#[global] Instance M_ret : MRet M := λ A a w, (Ok a, w).
#[global] Instance M_bind : MBind M := λ A B k m w,
  match m w with
  | (Ok a, w') => k a w'
  | (Err e, w') => (Err e, w')
  | (Panic e, w') => (Panic e, w')
  | (Loops, w') => (Loops, w')
  end.

Definition emit (e : event) : M unit := λ w,
  (Ok (), {| files := files w; trace := trace w ++ [e] |}).

Definition fail {A} (msg : string) : M A := λ w, (Err msg, w).

Definition lift {A} (r : result A) : M A := λ w, (r, w).

(** [fmt.Errorf(prefix + "%v", err)] around a failing call. *)
Definition with_context {A} (prefix : string) (m : M A) : M A := λ w,
  match m w with
  | (Err e, w') => (Err (prefix +:+ e), w')
  | other => other
  end.

Module OS.

(** [os.Stat]: [true] when the returned error is nil. *)
Definition Stat (path : string) : M bool := λ w,
  (Ok (bool_decide (is_Some (files w !! path))),
   {| files := files w; trace := trace w ++ [EvStat path] |}).

Definition Remove (path : string) : M unit := λ w,
  match files w !! path with
  | Some _ => (Ok (), {| files := delete path (files w);
                         trace := trace w ++ [EvRemove path] |})
  | None => (Err ("remove " +:+ path +:+ ": no such file or directory"),
             {| files := files w; trace := trace w ++ [EvRemove path] |})
  end.

(** [os.Create]: the file is created, or truncated when it exists. *)
Definition Create (path : string) : M unit := λ w,
  (Ok (), {| files := <[path := []]> (files w);
             trace := trace w ++ [EvCreate path] |}).

(** [os.OpenFile(path, O_APPEND|O_CREATE|O_WRONLY, 0644)] *)
Definition OpenAppend (path : string) : M unit := λ w,
  (Ok (), {| files := match files w !! path with
                      | Some _ => files w
                      | None => <[path := []]> (files w)
                      end;
             trace := trace w ++ [EvOpenAppend path] |}).

(** [os.Open]: open for reading. *)
Definition Open (path : string) : M unit := λ w,
  match files w !! path with
  | Some _ => (Ok (), {| files := files w; trace := trace w ++ [EvOpenRead path] |})
  | None => (Err ("open " +:+ path +:+ ": no such file or directory"),
             {| files := files w; trace := trace w ++ [EvOpenRead path] |})
  end.

(** [file.Stat()] followed by [stat.Size() == 0] on an open file. *)
Definition SizeIsZero (path : string) : M bool := λ w,
  (Ok (bool_decide (default [] (files w !! path) = [])), w).

(** The records handed to the file by a flush are added at its end. *)
Definition Write (path : string) (records : list (list string)) : M unit := λ w,
  (Ok (), {| files := <[path := default [] (files w !! path) ++ records]> (files w);
             trace := trace w ++ [EvFileWrite path records] |}).

Definition Close (path : string) : M unit := emit (EvClose path).

(** The records of an open file, as [csv.Reader] meets them. *)
Definition Contents (path : string) : M (list (list string)) := λ w,
  (Ok (default [] (files w !! path)), w).

End OS.

(** ** [encoding/csv] at the level of records *)

Module Csv.

(** A [csv.Writer] on an open file: [Write] keeps the record in the
    buffer, [Flush] hands the buffer to the file. *)
Record Writer := { file : string; buffer : list (list string) }.

Definition NewWriter (path : string) : Writer := {| file := path; buffer := [] |}.

Definition Write (w : Writer) (record : list string) : Writer :=
  {| file := file w; buffer := buffer w ++ [record] |}.

Definition Flush (w : Writer) : M Writer :=
  match buffer w with
  | [] => mret w
  | records => _ ← OS.Write (file w) records; mret {| file := file w; buffer := [] |}
  end.

(** [Reader.ReadAll] with the default [FieldsPerRecord = 0]: the number of
    fields of the first record is required of every record. *)
Definition ReadAll (records : list (list string)) : result (list (list string)) :=
  match records with
  | [] => Ok []
  | first :: rest =>
      if forallb (λ r, Nat.eqb (length r) (length first)) rest
      then Ok records
      else Err "record on line: wrong number of fields"
  end.

End Csv.

(** A deferred call runs when the function returns, whatever it returns. *)
Definition defer {A} (cleanup : M unit) (m : M A) : M A := λ w,
  match m w with
  | (Loops, w') => (Loops, w')
  | (r, w') => (r, (cleanup w').2)
  end.

(** A clean-up made on the error path only, before the error is returned. *)
Definition on_error {A} (cleanup : M unit) (m : M A) : M A := λ w,
  match m w with
  | (Err e, w') => (Err e, (cleanup w').2)
  | other => other
  end.

(** ** The writers of the program (csv_writer.go)

    [csv.Writer.Write] and [Flush] are taken not to fail. *)

Module CSVWriter.
Record t := { filename : string; writer : Csv.Writer }.
End CSVWriter.

Definition writeHeader (c : CSVWriter.t) : CSVWriter.t :=
  {| CSVWriter.filename := CSVWriter.filename c;
     CSVWriter.writer := Csv.Write (CSVWriter.writer c) ["scim_id"] |}.

Definition NewCSVWriter (filename : string) : M CSVWriter.t :=
  found ← OS.Stat filename;
  _ ← (if found : bool
       then with_context "failed to remove existing CSV file: " (OS.Remove filename)
       else mret ());
  _ ← with_context "failed to create CSV file: " (OS.Create filename);
  let writer := Csv.NewWriter filename in
  let csvWriter := {| CSVWriter.filename := filename; CSVWriter.writer := writer |} in
  mret (writeHeader csvWriter).

Definition WriteScimID (c : CSVWriter.t) (scimID : string) : M CSVWriter.t :=
  writer ← Csv.Flush (Csv.Write (CSVWriter.writer c) [scimID]);
  mret {| CSVWriter.filename := CSVWriter.filename c; CSVWriter.writer := writer |}.

Definition CSVWriter_Close (c : CSVWriter.t) : M unit :=
  _ ← Csv.Flush (CSVWriter.writer c);
  OS.Close (Csv.file (CSVWriter.writer c)).

Module FailedUsersCSVWriter.
Record t := { filename : string; writer : Csv.Writer }.
End FailedUsersCSVWriter.

Definition ledgerHeader : list string := ["TenantID"; "Username"; "Error"; "Timestamp"].

Definition NewFailedUsersCSVWriter (filename : string) : M FailedUsersCSVWriter.t :=
  found ← OS.Stat filename;
  _ ← (if found : bool
       then with_context "failed to remove existing failed users CSV file: "
              (OS.Remove filename)
       else mret ());
  _ ← with_context "failed to create failed users CSV file: " (OS.Create filename);
  let writer := Csv.NewWriter filename in
  writer ← Csv.Flush (Csv.Write writer ledgerHeader);
  mret {| FailedUsersCSVWriter.filename := filename;
          FailedUsersCSVWriter.writer := writer |}.

Definition NewFailedUsersCSVWriterAppend (filename : string) : M FailedUsersCSVWriter.t :=
  _ ← with_context "failed to open/create failed users CSV file: "
        (OS.OpenAppend filename);
  let writer := Csv.NewWriter filename in
  empty ← OS.SizeIsZero filename;
  writer ← (if empty : bool then Csv.Flush (Csv.Write writer ledgerHeader)
            else mret writer);
  mret {| FailedUsersCSVWriter.filename := filename;
          FailedUsersCSVWriter.writer := writer |}.

Definition WriteFailedUser (fw : FailedUsersCSVWriter.t)
    (tenantID : Z) (username errorMsg timestamp : string) : M FailedUsersCSVWriter.t :=
  let record := [Strconv.Itoa tenantID; username; errorMsg; timestamp] in
  writer ← Csv.Flush (Csv.Write (FailedUsersCSVWriter.writer fw) record);
  mret {| FailedUsersCSVWriter.filename := FailedUsersCSVWriter.filename fw;
          FailedUsersCSVWriter.writer := writer |}.

Definition FailedUsersCSVWriter_Close (fw : FailedUsersCSVWriter.t) : M unit :=
  _ ← Csv.Flush (FailedUsersCSVWriter.writer fw);
  OS.Close (Csv.file (FailedUsersCSVWriter.writer fw)).

(** ** The executor (executor.go) *)

Record TestExecutor := {
  config : Config;
  csvWriter : option CSVWriter.t;
  failedUsersWriter : option FailedUsersCSVWriter.t;
  stats : TestStats }.

Definition NewTestExecutor (config0 : Config) (retryMode : bool) : M TestExecutor :=
  csvWriter0 ← with_context "failed to create CSV writer: "
                 (NewCSVWriter (ExecutionConfig.ScimIdCsvPath (Execution config0)));
  failedUsersWriter0 ←
    (if negb retryMode
     then fw ← with_context "failed to create failed users CSV writer: "
                 (on_error (CSVWriter_Close csvWriter0)
                    (NewFailedUsersCSVWriter
                       (ExecutionConfig.FailedUsersCsvPath (Execution config0))));
          mret (Some fw)
     else mret None);
  mret {| config := config0;
          csvWriter := Some csvWriter0;
          failedUsersWriter := failedUsersWriter0;
          stats := NewTestStats |}.

(** [Close]; its error is dropped by the only caller ([defer] in main). *)
Definition Close (te : TestExecutor) : M unit :=
  _ ← match csvWriter te with
      | Some c => CSVWriter_Close c
      | None => mret ()
      end;
  match failedUsersWriter te with
  | Some fw => FailedUsersCSVWriter_Close fw
  | None => mret ()
  end.

(** ** Reading the ledger (retry.go) *)

(** One row of the loop of [readFailedUsersFromCSV]: [None] when the row is
    skipped ([continue]). *)
Definition parseFailedUser (record : list string) : option FailedUser.t :=
  match record with
  | f0 :: f1 :: f2 :: f3 :: _ =>
      match Strconv.Atoi f0 with
      | Ok tenantID =>
          Some {| FailedUser.TenantID := tenantID; FailedUser.Username := f1;
                  FailedUser.Error := f2; FailedUser.Timestamp := f3 |}
      | _ => None
      end
  | _ => None
  end.

(** [startRow]: 1 when the first field of the first record names the header.
    [records[0][0]] is an index expression: it panics on an empty record. *)
Definition startRow (records : list (list string)) : result nat :=
  match records with
  | [] => Ok 0%nat
  | [] :: _ => Panic "runtime error: index out of range [0] with length 0"
  | (f0 :: _) :: _ =>
      if bool_decide (f0 = "TenantID" ∨ f0 = "Tenant ID") then Ok 1%nat else Ok 0%nat
  end.

Definition readFailedUsersFromCSV (te : TestExecutor) : M (list FailedUser.t) :=
  let path := ExecutionConfig.FailedUsersCsvPath (Execution (config te)) in
  _ ← with_context "failed to open failed users CSV file: " (OS.Open path);
  defer (OS.Close path)
    (raw ← OS.Contents path;
     records ← with_context "failed to read CSV file: " (lift (Csv.ReadAll raw));
     start ← lift (startRow records);
     mret (omap parseFailedUser (drop start records))).

(** ** Loops and slices *)

(** [for i := lo; i < hi; i++ { body }] *)
Definition for_lt {S} (lo hi : Z) (body : Z → S → S) (s : S) : S :=
  foldl (λ s i, body i s) s (seqZ lo (hi - lo)).

(** [for i := lo; i <= hi; i++ { body }]: when [hi] is the largest [int],
    [i++] wraps around and the condition never fails. *)
Definition for_le {S} (lo hi : Z) (body : Z → S → S) (s : S) : result S :=
  if decide (lo ≤ hi ∧ hi = GoInt.maxInt) then Loops
  else Ok (for_lt lo (hi + 1) body s).

(** [for _, x := range l { body }] with a body that may panic. *)
Fixpoint for_range {S A} (l : list A) (body : A → S → result S) (s : S) : result S :=
  match l with
  | [] => Ok s
  | x :: l' => s' ← body x s; for_range l' body s'
  end.

(** The slice expression [l[lo:hi]]. *)
Definition slice {A} (l : list A) (lo hi : Z) : result (list A) :=
  if decide (0 ≤ lo ∧ lo ≤ hi ∧ hi ≤ Z.of_nat (length l))
  then Ok (take (Z.to_nat (hi - lo)) (drop (Z.to_nat lo) l))
  else Panic "runtime error: slice bounds out of range".

(** [strings.Split(s, sep)] for a separator of one character. *)
Fixpoint Split (s : string) (sep : ascii) : list string :=
  match s with
  | EmptyString => [EmptyString]
  | String c s' =>
      if Ascii.eqb c sep then EmptyString :: Split s' sep
      else match Split s' sep with
           | part :: parts => String c part :: parts
           | [] => [String c EmptyString]
           end
  end.

(** [make(chan TestResult, n)]; the limit the platform puts on the size of
    an allocation is not part of the model. *)
Definition makechan (n : Z) : result unit :=
  if decide (n < 0) then Panic "makechan: size out of range" else Ok ().

(** [time.Second], in nanoseconds. *)
Definition Second : Z := 1000000000.

(** ** Partitioning (roles.go, retry.go)

    Each phase splits its index range over the configured threads before
    any worker starts. *)

(** The loop of [ExecuteUserCreation] that builds [tasks]. *)
Definition userCreationTasks (c : Config) : result (list WorkerTask.t) :=
  let e := Execution c in
  usersPerThread ← GoInt.div (ExecutionConfig.NoOfUsers e) (ExecutionConfig.NoOfThreads e);
  remainingUsers ← GoInt.rem (ExecutionConfig.NoOfUsers e) (ExecutionConfig.NoOfThreads e);
  let '(_, _, tasks) :=
    for_lt 0 (ExecutionConfig.NoOfThreads e)
      (λ threadID '(remainingUsers, userStart, tasks),
         let threadUsers := usersPerThread in
         let '(threadUsers, remainingUsers) :=
           if decide (remainingUsers > 0)
           then (GoInt.add threadUsers 1, GoInt.sub remainingUsers 1)
           else (threadUsers, remainingUsers) in
         let userEnd := GoInt.sub (GoInt.add userStart threadUsers) 1 in
         let taskClient := NewHTTPClient c in
         let tasks := tasks ++ [ {| WorkerTask.UserStart := userStart;
                                    WorkerTask.UserEnd := userEnd;
                                    WorkerTask.ThreadID := threadID;
                                    WorkerTask.Client := taskClient |} ] in
         (remainingUsers, GoInt.add userEnd 1, tasks))
      (remainingUsers, ExecutionConfig.UserStartNumber e, []) in
  mret tasks.

(** The workers [ExecuteRoleCreation] starts: thread, first and last tenant,
    client. *)
Definition roleCreationTasks (c : Config) : result (list (Z * Z * Z * HTTPClient.t)) :=
  let e := Execution c in
  let totalTenants := ExecutionConfig.NoOfTenants e in
  let threads := ExecutionConfig.NoOfThreads e in
  tenantsPerThread ← GoInt.div totalTenants threads;
  remainingTenants ← GoInt.rem totalTenants threads;
  let '(_, started) :=
    for_lt 0 threads
      (λ threadID '(tenantStart, started),
         let threadTenants :=
           if decide (threadID < remainingTenants)
           then GoInt.add tenantsPerThread 1 else tenantsPerThread in
         let tenantEnd := GoInt.sub (GoInt.add tenantStart threadTenants) 1 in
         let started :=
           if decide (threadTenants > 0)
           then started ++ [(threadID, tenantStart, tenantEnd, NewHTTPClient c)]
           else started in
         (GoInt.add tenantEnd 1, started))
      (ExecutionConfig.TenantStartNumber e, []) in
  mret started.

(** The loop of [ExecuteRetryFailed] that builds [retryTasks]. *)
Definition retryTasks (c : Config) (failedUsers : list FailedUser.t)
    : result (list RetryWorkerTask.t) :=
  let e := Execution c in
  let n := Z.of_nat (length failedUsers) in
  usersPerThread ← GoInt.div n (ExecutionConfig.NoOfThreads e);
  remainingUsers ← GoInt.rem n (ExecutionConfig.NoOfThreads e);
  let '(_, tasks) :=
    for_lt 0 (ExecutionConfig.NoOfThreads e)
      (λ threadID '(userStart, tasks),
         let threadUsers :=
           if decide (threadID < remainingUsers)
           then GoInt.add usersPerThread 1 else usersPerThread in
         if decide (threadUsers > 0)
         then
           let userEnd := GoInt.sub (GoInt.add userStart threadUsers) 1 in
           let taskClient := NewHTTPClient c in
           (GoInt.add userEnd 1,
            tasks ++ [ {| RetryWorkerTask.ThreadID := threadID;
                          RetryWorkerTask.UserStart := userStart;
                          RetryWorkerTask.UserEnd := userEnd;
                          RetryWorkerTask.FailedUsers := failedUsers;
                          RetryWorkerTask.Client := taskClient |} ])
         else (userStart, tasks))
      (0, []) in
  mret tasks.

(** [time.Duration(RampUpPeriod) * time.Second / time.Duration(NoOfThreads)] *)
Definition rampUpDelay (c : Config) : result Z :=
  GoInt.div (GoInt.mul (ExecutionConfig.RampUpPeriod (Execution c)) Second)
            (ExecutionConfig.NoOfThreads (Execution c)).

(** The launcher: one [go] statement per task, each followed by the
    ramp-up pause when the delay is positive. *)
Definition launch (delay : Z) (ranges : list (Z * Z * Z)) : list event :=
  flat_map (λ '(threadID, lo, hi),
              EvGo threadID lo hi :: (if decide (delay > 0) then [EvSleep delay] else []))
           ranges.

Definition emit_all (evs : list event) : M unit := λ w,
  (Ok (), {| files := files w; trace := trace w ++ evs |}).

(** ** Workers and the pool (roles.go, retry.go)

    What lies outside the program is given by oracles: [remote] is the
    reply to the k-th request of a thread, [now] the formatted time at the
    k-th operation of a thread, [schedule] the order in which the running
    workers take their steps, and [drained] the number of results the
    result processor has consumed when the launcher goes on after closing
    the channel. *)

Section Pool.

Variable remote : Z → nat → Request → Reply.
Variable now : Z → nat → string.
Variable schedule : list nat.
Variable drained : nat.

(** A worker is a sequence of steps on the shared objects; its state is
    the number of operations done and the steps so far. *)
Definition roleCreationWorker (threadID tenantStart tenantEnd : Z)
    (client : HTTPClient.t) : result (list event) :=
  s ← for_le tenantStart tenantEnd
        (λ tenantIndex '(k, steps),
           let req := CreateRole_request client tenantIndex in
           let err := CreateRole_result (remote threadID k req) in
           (S k,
            steps ++ [EvRequest threadID req]
              ++ (if err is None then [EvPause threadID (GoInt.mul 5 Second)] else [])
              ++ [EvIncrementRole (bool_decide (err = None))]))
        (0%nat, []);
  mret s.2.

(** One pass of the inner loop body of [userCreationWorker]. *)
Definition userCreationStep (te : TestExecutor) (task : WorkerTask.t)
    (userIndex tenantIndex : Z) (s : nat * list event) : nat * list event :=
  let '(k, steps) := s in
  let threadID := WorkerTask.ThreadID task in
  (* task.Client.CreateUser(tenantIndex, userIndex) *)
  let client := WorkerTask.Client task in
  let name := GetTestUsername (HTTPClient.config client) userIndex in
  let req := CreateUserWithName_request client tenantIndex name in
  match CreateUserWithName_result name (remote threadID k req) with
  | inr err =>
      let result := {| TestResult.TenantIndex := tenantIndex;
                       TestResult.UserIndex := userIndex;
                       TestResult.ScimID := "";
                       TestResult.Success := false;
                       TestResult.Error := Some err;
                       TestResult.ThreadID := threadID |} in
      let username := GetTestUsername (config te) userIndex in
      (S k,
       steps ++ [EvRequest threadID req]
         ++ (if failedUsersWriter te is Some _
             then [EvWriteFailedUser tenantIndex username err (now threadID k)]
             else [])
         ++ [EvSend result])
  | inl userResp =>
      let result := {| TestResult.TenantIndex := tenantIndex;
                       TestResult.UserIndex := userIndex;
                       TestResult.ScimID := SCIMUserResponse.ID userResp;
                       TestResult.Success := true;
                       TestResult.Error := None;
                       TestResult.ThreadID := threadID |} in
      (S k, steps ++ [EvRequest threadID req; EvSend result])
  end.

Definition userCreationWorker (te : TestExecutor) (task : WorkerTask.t)
    : result (list event) :=
  let e := Execution (config te) in
  s ← for_le (WorkerTask.UserStart task) (WorkerTask.UserEnd task)
        (λ userIndex s,
           for_lt (ExecutionConfig.TenantStartNumber e)
                  (GoInt.add (ExecutionConfig.TenantStartNumber e)
                             (ExecutionConfig.NoOfTenants e))
                  (userCreationStep te task userIndex) s)
        (0%nat, []);
  mret s.2.

(** One pass of the loop body of [retryUsersWorkerScalable].  The user
    index is recovered from the name for the result only. *)
Definition retryStep (te : TestExecutor) (task : RetryWorkerTask.t)
    (user : FailedUser.t) (s : nat * list event) : result (nat * list event) :=
  let '(k, steps) := s in
  let threadID := RetryWorkerTask.ThreadID task in
  let parts := Split (FailedUser.Username user) "_" in
  let userIndex :=
    if decide (1 < length parts)%nat
    then match Strconv.Atoi (List.last parts EmptyString) with
         | Ok idx => idx
         | _ => -1
         end
    else -1 in
  let req := CreateUserWithName_request (RetryWorkerTask.Client task)
               (FailedUser.TenantID user) (FailedUser.Username user) in
  match CreateUserWithName_result (FailedUser.Username user) (remote threadID k req) with
  | inr err =>
      let result := {| TestResult.TenantIndex := FailedUser.TenantID user;
                       TestResult.UserIndex := userIndex;
                       TestResult.ScimID := "";
                       TestResult.Success := false;
                       TestResult.Error := Some err;
                       TestResult.ThreadID := threadID |} in
      match failedUsersWriter te with
      | None => Panic "runtime error: invalid memory address or nil pointer dereference"
      | Some _ =>
          Ok (S k,
              steps ++ [EvRequest threadID req;
                        EvWriteFailedUser (FailedUser.TenantID user)
                          (FailedUser.Username user) err (now threadID k);
                        EvSend result])
      end
  | inl userResp =>
      let result := {| TestResult.TenantIndex := FailedUser.TenantID user;
                       TestResult.UserIndex := userIndex;
                       TestResult.ScimID := SCIMUserResponse.ID userResp;
                       TestResult.Success := true;
                       TestResult.Error := None;
                       TestResult.ThreadID := threadID |} in
      Ok (S k, steps ++ [EvRequest threadID req; EvSend result])
  end.

Definition retryUsersWorkerScalable (te : TestExecutor) (task : RetryWorkerTask.t)
    : result (list event) :=
  usersToRetry ← slice (RetryWorkerTask.FailedUsers task)
                    (RetryWorkerTask.UserStart task)
                    (GoInt.add (RetryWorkerTask.UserEnd task) 1);
  s ← for_range usersToRetry (retryStep te task) (0%nat, []);
  mret s.2.

(** All workers of a pool, each run to its end. *)
Fixpoint runWorkers {T} (run : T → result (list event)) (tasks : list T)
    : result (list (list event)) :=
  match tasks with
  | [] => Ok []
  | t :: tasks' => steps ← run t; rest ← runWorkers run tasks'; mret (steps :: rest)
  end.

(** The steps of the running workers in the order the schedule picks
    them; what the schedule leaves over follows, worker by worker. *)
Fixpoint mergeSteps (sched : list nat) (running : list (list event)) : list event :=
  match sched with
  | [] => concat running
  | i :: sched' =>
      match running !! i with
      | Some (step :: rest) => step :: mergeSteps sched' (<[i := rest]> running)
      | _ => mergeSteps sched' running
      end
  end.

(** The effect of one step on the shared objects: the ledger writer,
    the counters and the reporting channel. *)
Definition perform (step : event) (s : TestExecutor * list TestResult.t)
    : M (TestExecutor * list TestResult.t) :=
  let '(te, channel) := s in
  _ ← emit step;
  match step with
  | EvWriteFailedUser tenantID username errorMsg timestamp =>
      match failedUsersWriter te with
      | Some fw =>
          fw' ← WriteFailedUser fw tenantID username errorMsg timestamp;
          mret ({| config := config te; csvWriter := csvWriter te;
                   failedUsersWriter := Some fw'; stats := stats te |}, channel)
      | None => mret (te, channel)
      end
  | EvIncrementRole success =>
      mret ({| config := config te; csvWriter := csvWriter te;
               failedUsersWriter := failedUsersWriter te;
               stats := IncrementRole success (stats te) |}, channel)
  | EvSend r => mret (te, channel ++ [r])
  | _ => mret (te, channel)
  end.

Fixpoint performAll (steps : list event) (s : TestExecutor * list TestResult.t)
    : M (TestExecutor * list TestResult.t) :=
  match steps with
  | [] => mret s
  | step :: steps' => s' ← perform step s; performAll steps' s'
  end.

(** [processResults], after it has received [n] results. *)
Definition processResults (n : nat) (channel : list TestResult.t) (ts : TestStats)
    : TestStats :=
  foldl (λ ts r, IncrementUser (TestResult.Success r) ts) ts (take n channel).

Definition withStats (te : TestExecutor) (ts : TestStats) : TestExecutor :=
  {| config := config te; csvWriter := csvWriter te;
     failedUsersWriter := failedUsersWriter te; stats := ts |}.

Definition ExecuteRoleCreation (te : TestExecutor) : M TestExecutor :=
  started ← lift (roleCreationTasks (config te));
  _ ← emit_all (launch 0 ((λ '(threadID, lo, hi, _), (threadID, lo, hi)) <$> started));
  running ← lift (runWorkers (λ '(threadID, lo, hi, client),
                             roleCreationWorker threadID lo hi client) started);
  s ← performAll (mergeSteps schedule running) (te, []);
  mret s.1.

Definition ExecuteUserCreation (te : TestExecutor) : M TestExecutor :=
  let e := Execution (config te) in
  tasks ← lift (userCreationTasks (config te));
  let totalResults := GoInt.mul (ExecutionConfig.NoOfUsers e) (ExecutionConfig.NoOfTenants e) in
  _ ← lift (makechan totalResults);
  delay ← lift (rampUpDelay (config te));
  _ ← emit_all (launch delay
         ((λ t, (WorkerTask.ThreadID t, WorkerTask.UserStart t, WorkerTask.UserEnd t))
            <$> tasks));
  running ← lift (runWorkers (userCreationWorker te) tasks);
  s ← performAll (mergeSteps schedule running) (te, []);
  mret (withStats s.1 (processResults drained s.2 (stats s.1))).


Definition ExecuteRetryFailed (te : TestExecutor) : M TestExecutor :=
  let e := Execution (config te) in
  fw ← with_context "failed to create failed users CSV writer: "
         (NewFailedUsersCSVWriterAppend (ExecutionConfig.FailedUsersCsvPath e));
  defer (FailedUsersCSVWriter_Close fw)
    (let te := {| config := config te; csvWriter := csvWriter te;
                  failedUsersWriter := Some fw; stats := stats te |} in
     failedUsers ← with_context "failed to read failed users: "
                     (readFailedUsersFromCSV te);
     if decide (length failedUsers = 0%nat)
     then _ ← emit (EvPrintln "No failed users found to retry."); mret te
     else
       tasks ← lift (retryTasks (config te) failedUsers);
       _ ← lift (makechan (Z.of_nat (length failedUsers)));
       delay ← lift (rampUpDelay (config te));
       _ ← emit_all (launch delay
              ((λ t, (RetryWorkerTask.ThreadID t, RetryWorkerTask.UserStart t,
                      RetryWorkerTask.UserEnd t)) <$> tasks));
       running ← lift (runWorkers (retryUsersWorkerScalable te) tasks);
       s ← performAll (mergeSteps schedule running) (te, []);
       let te := withStats s.1 (processResults drained s.2 (stats s.1)) in
       _ ← emit (EvPrintStats (PrintStats (stats te)));
       mret te).

End Pool.

(** * Specification

    The notions the properties below are stated with. *)

(** A call on the statistics object, as the workers and the result
    processor make them. *)
Inductive observation :=
| ObserveRole (success : bool)
| ObserveUser (success : bool).

Definition observe (ts : TestStats) (o : observation) : TestStats :=
  match o with
  | ObserveRole success => IncrementRole success ts
  | ObserveUser success => IncrementUser success ts
  end.

(** [total == success + failed], with Go's [+]. *)
Definition balanced (ts : TestStats) : Prop :=
  TotalRoles ts = GoInt.add (SuccessRoles ts) (FailedRoles ts) ∧
  TotalUsers ts = GoInt.add (SuccessUsers ts) (FailedUsers ts).

(** The number of observations of one kind in a sequence. *)
Definition tally (p : observation → bool) (calls : list observation) : Z :=
  Z.of_nat (length (List.filter p calls)).

Definition isRole (b : bool) (o : observation) : bool :=
  match o with ObserveRole s => Bool.eqb s b | ObserveUser _ => false end.
Definition isUser (b : bool) (o : observation) : bool :=
  match o with ObserveUser s => Bool.eqb s b | ObserveRole _ => false end.

(** The counters are the tallies of the calls, reduced to [int]. *)
Definition counts (ts : TestStats) (calls : list observation) : Prop :=
  SuccessRoles ts = GoInt.wrap (tally (isRole true) calls) ∧
  FailedRoles ts = GoInt.wrap (tally (isRole false) calls) ∧
  TotalRoles ts = GoInt.wrap (tally (isRole true) calls + tally (isRole false) calls) ∧
  SuccessUsers ts = GoInt.wrap (tally (isUser true) calls) ∧
  FailedUsers ts = GoInt.wrap (tally (isUser false) calls) ∧
  TotalUsers ts = GoInt.wrap (tally (isUser true) calls + tally (isUser false) calls).

Definition roleRates (report : list StatLine) : list Q :=
  omap (λ l, match l with LineRoleRate q => Some q | _ => None end) report.
Definition userRates (report : list StatLine) : list Q :=
  omap (λ l, match l with LineUserRate q => Some q | _ => None end) report.

Definition stats_3_of_4 : TestStats :=
  {| TotalUsers := 4; SuccessUsers := 3; FailedUsers := 1;
     TotalRoles := 2; SuccessRoles := 2; FailedRoles := 0 |}.

(** The share of thread [i] and the first index of its range, for [total]
    indices from [from] split over [workers] threads. *)
Definition share (total workers i : Z) : Z :=
  total / workers + (if decide (i < total mod workers) then 1 else 0).

Definition firstIndex (from total workers i : Z) : Z :=
  from + total / workers * i + Z.min i (total mod workers).

(** Ranges [(lo, hi)], both ends included, that follow one another from
    [from] up to [to - 1]: each starts where the one before stopped. *)
Fixpoint tiles (from : Z) (ranges : list (Z * Z)) (to : Z) : Prop :=
  match ranges with
  | [] => from = to
  | (lo, hi) :: rest => lo = from ∧ from ≤ hi + 1 ∧ tiles (hi + 1) rest to
  end.

(** The indices a loop [for i := lo; i <= hi; i++] goes through. *)
Definition indices (r : Z * Z) : list Z := seqZ r.1 (r.2 - r.1 + 1).

Definition rangeSize (r : Z * Z) : Z := r.2 - r.1 + 1.

Definition covers (r : Z * Z) (i : Z) : Prop := r.1 ≤ i ≤ r.2.

Definition ranges_of_tasks (tasks : list WorkerTask.t) : list (Z * Z) :=
  (λ t, (WorkerTask.UserStart t, WorkerTask.UserEnd t)) <$> tasks.

Definition ranges_of_retryTasks (tasks : list RetryWorkerTask.t) : list (Z * Z) :=
  (λ t, (RetryWorkerTask.UserStart t, RetryWorkerTask.UserEnd t)) <$> tasks.

Definition ranges_of_roleTasks (tasks : list (Z * Z * Z * HTTPClient.t)) : list (Z * Z) :=
  (λ '(_, lo, hi, _), (lo, hi)) <$> tasks.

Definition nthRange (from total workers i : Z) : Z * Z :=
  (firstIndex from total workers i, firstIndex from total workers (i + 1) - 1).

Definition userTask (c : Config) (i : Z) : WorkerTask.t :=
  let e := Execution c in
  let r := nthRange (ExecutionConfig.UserStartNumber e) (ExecutionConfig.NoOfUsers e)
                    (ExecutionConfig.NoOfThreads e) i in
  {| WorkerTask.UserStart := r.1; WorkerTask.UserEnd := r.2;
     WorkerTask.ThreadID := i; WorkerTask.Client := NewHTTPClient c |}.

Definition roleTask (c : Config) (i : Z) : Z * Z * Z * HTTPClient.t :=
  let e := Execution c in
  let r := nthRange (ExecutionConfig.TenantStartNumber e) (ExecutionConfig.NoOfTenants e)
                    (ExecutionConfig.NoOfThreads e) i in
  (i, r.1, r.2, NewHTTPClient c).

Definition retryTask (c : Config) (failedUsers : list FailedUser.t) (i : Z)
    : RetryWorkerTask.t :=
  let r := nthRange 0 (Z.of_nat (length failedUsers))
                    (ExecutionConfig.NoOfThreads (Execution c)) i in
  {| RetryWorkerTask.ThreadID := i;
     RetryWorkerTask.UserStart := r.1; RetryWorkerTask.UserEnd := r.2;
     RetryWorkerTask.FailedUsers := failedUsers;
     RetryWorkerTask.Client := NewHTTPClient c |}.

Ltac int_bounds :=
  unfold GoInt.in_range, GoInt.minInt, GoInt.maxInt in *; lia.

(** The ranges are contiguous from [from], do not overlap, cover exactly
    the [total] indices from [from], and their sizes add up to [total]. *)
Definition partitions (ranges : list (Z * Z)) (from total : Z) : Prop :=
  tiles from ranges (from + total) ∧
  concat (indices <$> ranges) = seqZ from total ∧
  (∀ i, (∃ r, r ∈ ranges ∧ covers r i) ↔ from ≤ i ≤ from + total - 1) ∧
  (∀ j k r r' i, j ≠ k → ranges !! j = Some r → ranges !! k = Some r' →
     covers r i → ¬ covers r' i) ∧
  foldr Z.add 0 (rangeSize <$> ranges) = total.

Definition sampleConfig (threads users tenants ramp userStart tenantStart : Z) : Config :=
  {| Server := Server DefaultConfig;
     Test := Test DefaultConfig;
     Execution := {| ExecutionConfig.NoOfThreads := threads;
                     ExecutionConfig.NoOfUsers := users;
                     ExecutionConfig.LoopCount := 1;
                     ExecutionConfig.RampUpPeriod := ramp;
                     ExecutionConfig.ScimIdCsvPath := "scimIDs.csv";
                     ExecutionConfig.FailedUsersCsvPath := "failedUsers.csv";
                     ExecutionConfig.NoOfTenants := tenants;
                     ExecutionConfig.UserStartNumber := userStart;
                     ExecutionConfig.TenantStartNumber := tenantStart |} |}.

Definition sampleFailedUser (tenantID : Z) (username : string) : FailedUser.t :=
  {| FailedUser.TenantID := tenantID; FailedUser.Username := username;
     FailedUser.Error := "user creation failed with status 500: ";
     FailedUser.Timestamp := "2025-01-01 10:00:00" |}.

Definition overflowConfig : Config := sampleConfig 2 1 1 0 GoInt.maxInt 1.

Definition tenUsersThreeThreads : Config := sampleConfig 3 10 5 10 1 1.

Definition twoFailures : list FailedUser.t :=
  [sampleFailedUser 3 "a_5"; sampleFailedUser 7 "a_9"].

Definition with_trace (w : World) (evs : list event) : World :=
  {| files := files w; trace := trace w ++ evs |}.

Definition with_file (w : World) (path : string) (records : list (list string))
    (evs : list event) : World :=
  {| files := <[path := records]> (files w); trace := trace w ++ evs |}.


(** Unfolds the monad of [M] and the primitive operations, and reduces
    what became redexes. *)
Ltac run_M :=
  unfold OS.Stat, OS.Remove, OS.Create, OS.OpenAppend, OS.Open, OS.SizeIsZero,
    OS.Write, OS.Close, OS.Contents;
  unfold with_context, defer, emit, emit_all, lift, fail;
  unfold mbind, M_bind, mret, M_ret;
  cbv beta iota zeta; cbn [files trace fst snd].

(** The record [WriteFailedUser] makes of a failure. *)
Definition ledgerRecord (u : FailedUser.t) : list string :=
  [Strconv.Itoa (FailedUser.TenantID u); FailedUser.Username u;
   FailedUser.Error u; FailedUser.Timestamp u].


(** What [readFailedUsersFromCSV] makes of the records of the file. *)
Definition parseLedger (raw : list (list string)) : result (list FailedUser.t) :=
  match Csv.ReadAll raw with
  | Ok records =>
      start ← startRow records;
      mret (omap parseFailedUser (drop start records))
  | Err e => Err ("failed to read CSV file: " +:+ e)
  | Panic e => Panic e
  | Loops => Loops
  end.

Definition ledgerWriter (path : string) : FailedUsersCSVWriter.t :=
  {| FailedUsersCSVWriter.filename := path;
     FailedUsersCSVWriter.writer := {| Csv.file := path; Csv.buffer := [] |} |}.

Definition executorOf (c : Config) (fw : option FailedUsersCSVWriter.t) : TestExecutor :=
  {| config := c; csvWriter := None; failedUsersWriter := fw; stats := NewTestStats |}.

(** Views of a trace. *)
Definition sendOf (e : event) : option TestResult.t :=
  match e with EvSend r => Some r | _ => None end.
Definition requestOf (e : event) : option Request :=
  match e with EvRequest _ req => Some req | _ => None end.
Definition launchOf (e : event) : option event :=
  match e with EvGo _ _ _ | EvSleep _ => Some e | _ => None end.
Definition reportOf (e : event) : option (list StatLine) :=
  match e with EvPrintStats report => Some report | _ => None end.

Definition sent (tr : list event) : list TestResult.t := omap sendOf tr.
Definition requests (tr : list event) : list Request := omap requestOf tr.
Definition launches (tr : list event) : list event := omap launchOf tr.

(** A view that does not see the writes to files. *)
Definition silent {B} (f : event → option B) : Prop :=
  ∀ path records, f (EvFileWrite path records) = None.

Definition pairOf (e : event) : option (Z * Z) :=
  match e with
  | EvSend r => Some (TestResult.UserIndex r, TestResult.TenantIndex r)
  | _ => None
  end.

(** Every user index with every tenant index, user by user. *)
Definition cross (users tenants : list Z) : list (Z * Z) :=
  concat ((λ u, (λ t, (u, t)) <$> tenants) <$> users).

Definition range3 (t : WorkerTask.t) : Z * Z * Z :=
  (WorkerTask.ThreadID t, WorkerTask.UserStart t, WorkerTask.UserEnd t).

Definition retryRange3 (t : RetryWorkerTask.t) : Z * Z * Z :=
  (RetryWorkerTask.ThreadID t, RetryWorkerTask.UserStart t, RetryWorkerTask.UserEnd t).


Definition emptyWorld : World := {| files := ∅; trace := [] |}.

Definition remoteDown (threadID : Z) (k : nat) (req : Request) : Reply :=
  TransportError "connection refused".

Definition clockFixed (threadID : Z) (k : nat) : string := "2025-01-01 10:00:00".



Definition pauses (tr : list event) : list Z :=
  omap (λ e, match e with EvSleep d => Some d | _ => None end) tr.

Definition goes (tr : list event) : list (Z * Z * Z) :=
  omap (λ e, match e with EvGo threadID lo hi => Some (threadID, lo, hi) | _ => None end) tr.

(** The request [retryUsersWorkerScalable] makes for a ledger record. *)
Definition retryRequest (c : Config) (user : FailedUser.t) : Request :=
  CreateUserWithName_request (NewHTTPClient c)
    (FailedUser.TenantID user) (FailedUser.Username user).

(** The user name a request asks the server to create. *)
Definition requestedName (req : Request) : option string :=
  match Body req with
  | AddUser user => Some (SCIMUser.UserName user)
  | AddRole _ => None
  end.

(** The part of a list a range of positions selects. *)
Definition sliceOf {A} (l : list A) (r : Z * Z) : list A :=
  take (Z.to_nat (r.2 + 1 - r.1)) (drop (Z.to_nat r.1) l).

Definition sendMark (e : event) : option () :=
  match e with EvSend _ => Some () | _ => None end.

Definition fileWriteOf (e : event) : option (string * list (list string)) :=
  match e with EvFileWrite path records => Some (path, records) | _ => None end.

Definition ledgerWorld (c : Config) (records : list (list string)) : World :=
  {| files := {[ ExecutionConfig.FailedUsersCsvPath (Execution c) := records ]};
     trace := [] |}.

Definition oneUserTwoThreads : TestExecutor :=
  executorOf (sampleConfig 2 1 1 0 1 1) None.

Definition retryConfig : Config := sampleConfig 2 10 5 0 1 1.

Definition namedFailures : list FailedUser.t :=
  [sampleFailedUser 3 "isTestUser_5"; sampleFailedUser 7 "bob"].

Definition otherPrefixConfig : Config :=
  {| Server := Server DefaultConfig;
     Test := {| TestConfig.UsernamePrefix := "other_";
                TestConfig.UserPassword := "Password_1";
                TestConfig.RoleName := "isTestUserRole";
                TestConfig.TenantPrefix := "tenant" |};
     Execution := Execution DefaultConfig |}.




(** A retry run on a ledger file with the given records. *)
Definition retryOn (records : list (list string)) : result TestExecutor * World :=
  ExecuteRetryFailed remoteDown clockFixed [] 0 (executorOf retryConfig None)
    (ledgerWorld retryConfig records).

Definition threeCalls : list observation :=
  [ObserveRole true; ObserveUser false; ObserveUser true].


(** ** Notions for the further properties *)

(** The record a ledger step puts into the file. *)
Definition ledgerRowOf (e : event) : option (list string) :=
  match e with
  | EvWriteFailedUser tenantID username errorMsg timestamp =>
      Some [Strconv.Itoa tenantID; username; errorMsg; timestamp]
  | _ => None
  end.

Definition roleCallOf (e : event) : option bool :=
  match e with EvIncrementRole success => Some success | _ => None end.

(** What a step leaves in the trace when the ledger writer is open on
    [path]: the step, and the write to the file when it is a ledger step. *)
Definition effects (path : string) (step : event) : list event :=
  step :: match ledgerRowOf step with
          | Some row => [EvFileWrite path [row]]
          | None => []
          end.

(** The counters after the calls of [IncrementRole] in a sequence. *)
Definition countRoles (ts : TestStats) (calls : list bool) : TestStats :=
  foldl (λ ts success, IncrementRole success ts) ts calls.

Definition withLedger (te : TestExecutor) (path : string) (ts : TestStats)
    : TestExecutor :=
  {| config := config te; csvWriter := csvWriter te;
     failedUsersWriter := Some (ledgerWriter path); stats := ts |}.

(** One pass of the loop body of [roleCreationWorker]. *)
Definition roleCreationStep (remote : Z → nat → Request → Reply)
    (threadID : Z) (client : HTTPClient.t) (tenantIndex : Z)
    (s : nat * list event) : nat * list event :=
  let '(k, steps) := s in
  let req := CreateRole_request client tenantIndex in
  let err := CreateRole_result (remote threadID k req) in
  (S k,
   steps ++ [EvRequest threadID req]
     ++ (if err is None then [EvPause threadID (GoInt.mul 5 Second)] else [])
     ++ [EvIncrementRole (bool_decide (err = None))]).

Definition roleMark (e : event) : option () :=
  match e with EvIncrementRole _ => Some () | _ => None end.

Definition successMark (e : event) : option () :=
  match e with EvIncrementRole true => Some () | _ => None end.

Definition pauseMark (e : event) : option () :=
  match e with EvPause _ _ => Some () | _ => None end.

(** The pause [CreateRole] makes after a role was created. *)
Definition rolePause (e : event) : Prop :=
  match e with EvPause _ d => d = 5 * Second | _ => True end.

(** The counters are values of type [int]. *)
Definition counters_in_range (ts : TestStats) : Prop :=
  GoInt.in_range (TotalUsers ts) ∧ GoInt.in_range (SuccessUsers ts) ∧
  GoInt.in_range (FailedUsers ts) ∧ GoInt.in_range (TotalRoles ts) ∧
  GoInt.in_range (SuccessRoles ts) ∧ GoInt.in_range (FailedRoles ts).

Definition successes (calls : list bool) : Z :=
  Z.of_nat (length (filter (eq true) calls)).

Definition failures (calls : list bool) : Z :=
  Z.of_nat (length (filter (eq false) calls)).

Definition workerPauseOf (e : event) : option Z :=
  match e with EvPause _ d => Some d | _ => None end.

Definition roleRange3 (t : Z * Z * Z * HTTPClient.t) : Z * Z * Z :=
  let '(threadID, lo, hi, _) := t in (threadID, lo, hi).

Definition roleRange (t : Z * Z * Z * HTTPClient.t) : Z * Z :=
  let '(_, lo, hi, _) := t in (lo, hi).


(** The ledger record of a ledger step, as a [FailedUser]. *)
Definition ledgerUserOf (e : event) : option FailedUser.t :=
  match e with
  | EvWriteFailedUser tenantID username errorMsg timestamp =>
      Some {| FailedUser.TenantID := tenantID; FailedUser.Username := username;
              FailedUser.Error := errorMsg; FailedUser.Timestamp := timestamp |}
  | _ => None
  end.




(** The part of a ledger record a retry uses. *)
Definition userPair (u : FailedUser.t) : Z * string :=
  (FailedUser.TenantID u, FailedUser.Username u).


(** The request [CreateUser] makes for a user index. *)
Definition CreateUser_request (h : HTTPClient.t) (tenantIndex userIndex : Z) : Request :=
  CreateUserWithName_request h tenantIndex
    (GetTestUsername (HTTPClient.config h) userIndex).


Definition successOf (e : event) : option bool :=
  match e with EvSend r => Some (TestResult.Success r) | _ => None end.

(** The counters after the calls of [IncrementUser] in a sequence. *)
Definition countUsers (ts : TestStats) (calls : list bool) : TestStats :=
  foldl (λ ts success, IncrementUser success ts) ts calls.

Definition fiveTenantsTwoThreads : TestExecutor :=
  executorOf (sampleConfig 2 3 5 0 1 1) None.

Definition ledgerExecutor (c : Config) : TestExecutor :=
  {| config := c;
     csvWriter := None;
     failedUsersWriter :=
       Some (ledgerWriter (ExecutionConfig.FailedUsersCsvPath (Execution c)));
     stats := NewTestStats |}.



Definition usedWorld : World :=
  {| files := {[ "failedUsers.csv" :=
                   [ledgerHeader; ["3"; "a_5"; "user creation failed"; "2025-01-01 10:00:00"]];
                 "scimIDs.csv" := [["scim_id"]; ["f81d4fae"]];
                 "notes.txt" := [["keep"]] ]};
     trace := [] |}.

(** Tenant and user name of a ledger step, and of a ledger record. *)
Definition ledgerPairOf (e : event) : option (Z * string) :=
  match e with
  | EvWriteFailedUser tenantID username _ _ => Some (tenantID, username)
  | _ => None
  end.

Definition ledgerMark (e : event) : option () :=
  match e with EvWriteFailedUser _ _ _ _ => Some () | _ => None end.

Definition failedMark (e : event) : option () :=
  match e with
  | EvSend r => if TestResult.Success r then None else Some ()
  | _ => None
  end.

(** Whether a character occurs in a string. *)
Fixpoint contains (c : ascii) (s : string) : bool :=
  match s with
  | EmptyString => false
  | String a s' => Ascii.eqb a c || contains c s'
  end.

(** The user index [retryUsersWorkerScalable] reads off a user name: the
    number after the last underscore, or -1. *)
Definition retryUserIndex (username : string) : Z :=
  let parts := Split username "_" in
  if decide (1 < length parts)%nat
  then match Strconv.Atoi (List.last parts EmptyString) with
       | Ok idx => idx
       | _ => -1
       end
  else -1.

(** IDs written one after the other through the same writer. *)
Fixpoint writeScimIDs (c : CSVWriter.t) (ids : list string) : M CSVWriter.t :=
  match ids with
  | [] => mret c
  | scimID :: rest => c' ← WriteScimID c scimID; writeScimIDs c' rest
  end.

Definition scimWriter (path : string) (pending : list (list string)) : CSVWriter.t :=
  {| CSVWriter.filename := path;
     CSVWriter.writer := {| Csv.file := path; Csv.buffer := pending |} |}.

Definition idRow (scimID : string) : list string := [scimID].


(** All records have [n] fields. *)
Definition fieldCount (n : nat) (records : list (list string)) : Prop :=
  Forall (λ r, length r = n) records.

Definition bareLedger : list (list string) :=
  [["3"; "a_5"; "refused"; "12:00"]; ["Tenant"; "User"; "Error"; "Time"];
   ["7"; "a_9"; "refused"; "12:01"]].

Definition raggedLedger : list (list string) :=
  [ledgerHeader; ["3"; "a_5"]].

(** A reply that [CreateUserWithName] takes for the creation of
    [username0]. *)
Definition accepted (username0 : string) (rep : Reply) : Prop :=
  ∃ status body userResp,
    rep = Response status body None (inl userResp) ∧
    (status = StatusCreated ∨ status = StatusOK) ∧
    SCIMUserResponse.UserName userResp = username0.

(** * Facts about the model *)

(** ** Arithmetic of [int] *)

Module GoIntFacts.

Import GoInt.

Lemma wrap_in_range z : in_range (wrap z).
Proof.
  unfold in_range, wrap, minInt, maxInt.
  pose proof (Z.mod_pos_bound (z + 2 ^ 63) (2 ^ 64)). lia.
Qed.

Lemma wrap_id z : in_range z → wrap z = z.
Proof.
  unfold in_range, wrap, minInt, maxInt. intros Hz.
  rewrite Z.mod_small; lia.
Qed.

Lemma wrap_wrap z : wrap (wrap z) = wrap z.
Proof. apply wrap_id, wrap_in_range. Qed.

Lemma wrap_add_l a b : wrap (wrap a + b) = wrap (a + b).
Proof.
  unfold wrap.
  replace ((a + 2 ^ 63) mod 2 ^ 64 - 2 ^ 63 + b + 2 ^ 63)
    with ((a + 2 ^ 63) mod 2 ^ 64 + b) by lia.
  rewrite Zplus_mod_idemp_l. do 2 f_equal. lia.
Qed.

Lemma wrap_add_r a b : wrap (a + wrap b) = wrap (a + b).
Proof. rewrite (Z.add_comm a), wrap_add_l. f_equal. lia. Qed.

Lemma add_exact a b : in_range (a + b) → add a b = a + b.
Proof. apply wrap_id. Qed.

Lemma sub_exact a b : in_range (a - b) → sub a b = a - b.
Proof. apply wrap_id. Qed.

Lemma mul_exact a b : in_range (a * b) → mul a b = a * b.
Proof. apply wrap_id. Qed.

Lemma div_exact a b :
  0 ≤ a → in_range a → 0 < b → div a b = Ok (a / b).
Proof.
  unfold div, in_range, minInt, maxInt. intros Ha Hr Hb.
  destruct (decide (b = 0)) as [->|_]; [lia|].
  rewrite Z.quot_div_nonneg by lia.
  rewrite wrap_id; [done|].
  unfold in_range, minInt, maxInt.
  pose proof (Z.div_pos a b). pose proof (Z.div_le_upper_bound a b a).
  split; [lia|]. apply Z.le_trans with a; [|lia].
  apply Z.div_le_upper_bound; nia.
Qed.

Lemma rem_exact a b :
  0 ≤ a → 0 < b → in_range b → rem a b = Ok (a mod b).
Proof.
  unfold rem, in_range, minInt, maxInt. intros Ha Hb Hr.
  destruct (decide (b = 0)) as [->|_]; [lia|].
  rewrite Z.rem_mod_nonneg by lia.
  rewrite wrap_id; [done|].
  unfold in_range, minInt, maxInt.
  pose proof (Z.mod_pos_bound a b). lia.
Qed.

End GoIntFacts.

(** ** Decimal numerals *)

Module StrconvFacts.

Import Strconv.

Lemma to_int_not_nil z :
  Z.to_int z ≠ Decimal.Pos Decimal.Nil ∧ Z.to_int z ≠ Decimal.Neg Decimal.Nil.
Proof.
  destruct z as [|p|p]; cbn; split; try discriminate; intros [= H];
    apply (f_equal Pos.of_uint) in H; rewrite DecimalPos.Unsigned.of_to in H;
    discriminate.
Qed.

Lemma Itoa_not_plus z rest : Itoa z ≠ String "+" rest.
Proof.
  unfold Itoa. intros H.
  assert (Hp : NilZero.int_of_string (String "+" rest) = Some (Z.to_int z)).
  { rewrite <- H. apply NilZero.isi; apply to_int_not_nil. }
  cbn in Hp. destruct (NilEmpty.uint_of_string rest); cbn in Hp; discriminate.
Qed.

Lemma Atoi_Itoa z : GoInt.in_range z → Atoi (Itoa z) = Ok z.
Proof.
  intros Hz. unfold Atoi.
  assert (Hp : NilZero.int_of_string (Itoa z) = Some (Z.to_int z)).
  { apply NilZero.isi; apply to_int_not_nil. }
  destruct (Itoa z) as [|c rest] eqn:E; [cbn in Hp; discriminate|].
  destruct (Ascii.eqb_spec c "+"%char) as [->|Hc].
  { exfalso. eapply Itoa_not_plus. exact E. }
  rewrite Hp, DecimalZ.of_to.
  destruct (decide (GoInt.minInt ≤ z ≤ GoInt.maxInt)) as [_|Hn]; [done|].
  destruct Hn. exact Hz.
Qed.

End StrconvFacts.

Example Itoa_5 : Strconv.Itoa 5 = "5".
Proof. reflexivity. Qed.

Example Itoa_neg : Strconv.Itoa (-42) = "-42".
Proof. reflexivity. Qed.

Example Atoi_plus : Strconv.Atoi "+17" = Ok 17.
Proof. reflexivity. Qed.

Example Atoi_bad : Strconv.Atoi "TenantID" = Err "strconv.Atoi: invalid syntax".
Proof. reflexivity. Qed.

Example Atoi_empty : Strconv.Atoi "" = Err "strconv.Atoi: invalid syntax".
Proof. reflexivity. Qed.

Example Atoi_range :
  Strconv.Atoi "9223372036854775808" = Err "strconv.Atoi: value out of range".
Proof. reflexivity. Qed.

Example GetTestUsername_5 : GetTestUsername DefaultConfig 5 = "isTestUser_5".
Proof. reflexivity. Qed.

Example Split_example : Split "isTestUser_5" "_" = ["isTestUser"; "5"].
Proof. reflexivity. Qed.

Example Split_none : Split "bob" "_" = ["bob"].
Proof. reflexivity. Qed.

(** * Properties *)

(** ** Statistics *)

Lemma balanced_fresh : balanced NewTestStats.
Proof. split; reflexivity. Qed.

Lemma balanced_step ts o : balanced ts → balanced (observe ts o).
Proof.
  intros [Hr Hu].
  destruct o as [[]|[]]; split; cbn; try assumption; unfold GoInt.add in *.
  - rewrite Hr, !GoIntFacts.wrap_add_l. f_equal. lia.
  - rewrite Hr, GoIntFacts.wrap_add_l, GoIntFacts.wrap_add_r. f_equal. lia.
  - rewrite Hu, !GoIntFacts.wrap_add_l. f_equal. lia.
  - rewrite Hu, GoIntFacts.wrap_add_l, GoIntFacts.wrap_add_r. f_equal. lia.
Qed.

Lemma balanced_foldl calls ts : balanced ts → balanced (foldl observe ts calls).
Proof.
  revert ts. induction calls as [|o calls IH]; intros ts H; cbn; [done|].
  apply IH, balanced_step, H.
Qed.

Lemma tally_snoc p calls o :
  tally p (calls ++ [o]) = tally p calls + (if p o then 1 else 0).
Proof.
  unfold tally. rewrite List.filter_app, length_app. cbn.
  destruct (p o); cbn; lia.
Qed.

Lemma counts_step ts calls o :
  counts ts calls → counts (observe ts o) (calls ++ [o]).
Proof.
  unfold counts. intros (H1 & H2 & H3 & H4 & H5 & H6).
  rewrite !tally_snoc.
  destruct o as [[]|[]]; cbn; unfold GoInt.add;
    rewrite ?H1, ?H2, ?H3, ?H4, ?H5, ?H6, ?GoIntFacts.wrap_add_l, ?Z.add_0_r;
    repeat split; try reflexivity; f_equal; lia.
Qed.

Lemma counts_foldl calls : ∀ ts done,
  counts ts done → counts (foldl observe ts calls) (done ++ calls).
Proof.
  induction calls as [|o calls IH]; intros ts done H; cbn.
  - by rewrite app_nil_r.
  - replace (done ++ o :: calls) with ((done ++ [o]) ++ calls)
      by (by rewrite <- app_assoc).
    apply IH, counts_step, H.
Qed.

Lemma tally_le p calls : 0 ≤ tally p calls ≤ Z.of_nat (length calls).
Proof.
  unfold tally. pose proof (List.filter_length_le p calls). lia.
Qed.

Lemma tally_split calls :
  tally (isRole true) calls + tally (isRole false) calls
  + tally (isUser true) calls + tally (isUser false) calls
  = Z.of_nat (length calls).
Proof.
  unfold tally. induction calls as [|[[]|[]] calls IH]; cbn in *; lia.
Qed.

(** C3: from the fresh statistics object, after any sequence of
    [IncrementRole] / [IncrementUser] calls, [total == success + failed]
    holds for the roles and for the users; one call adds one to the total of
    its category and one to the success or to the failed counter according
    to its flag, and leaves the other counters alone; and as long as fewer
    than 2^63 calls were made the counters are the exact numbers of calls,
    so that the equation also holds without wrap-around. *)
Theorem C3_stats_invariant (calls : list observation) :
  let ts := foldl observe NewTestStats calls in
  balanced ts ∧
  (∀ success,
     let ts' := IncrementRole success ts in
     TotalRoles ts' = GoInt.add (TotalRoles ts) 1 ∧
     SuccessRoles ts' = (if success then GoInt.add (SuccessRoles ts) 1 else SuccessRoles ts) ∧
     FailedRoles ts' = (if success then FailedRoles ts else GoInt.add (FailedRoles ts) 1) ∧
     TotalUsers ts' = TotalUsers ts ∧ SuccessUsers ts' = SuccessUsers ts ∧
     FailedUsers ts' = FailedUsers ts ∧ balanced ts') ∧
  (∀ success,
     let ts' := IncrementUser success ts in
     TotalUsers ts' = GoInt.add (TotalUsers ts) 1 ∧
     SuccessUsers ts' = (if success then GoInt.add (SuccessUsers ts) 1 else SuccessUsers ts) ∧
     FailedUsers ts' = (if success then FailedUsers ts else GoInt.add (FailedUsers ts) 1) ∧
     TotalRoles ts' = TotalRoles ts ∧ SuccessRoles ts' = SuccessRoles ts ∧
     FailedRoles ts' = FailedRoles ts ∧ balanced ts') ∧
  (Z.of_nat (length calls) ≤ GoInt.maxInt →
     TotalRoles ts = SuccessRoles ts + FailedRoles ts ∧
     TotalUsers ts = SuccessUsers ts + FailedUsers ts ∧
     SuccessRoles ts = tally (isRole true) calls ∧
     FailedRoles ts = tally (isRole false) calls ∧
     SuccessUsers ts = tally (isUser true) calls ∧
     FailedUsers ts = tally (isUser false) calls ∧
     TotalRoles ts + TotalUsers ts = Z.of_nat (length calls)).
Proof.
  intros ts.
  assert (Hb : balanced ts) by apply balanced_foldl, balanced_fresh.
  split; [exact Hb|]. split; [|split].
  - intros success ts'. subst ts'.
    pose proof (balanced_step ts (ObserveRole success) Hb) as Hb'.
    destruct success; cbn in *; repeat split; try reflexivity; apply Hb'.
  - intros success ts'. subst ts'.
    pose proof (balanced_step ts (ObserveUser success) Hb) as Hb'.
    destruct success; cbn in *; repeat split; try reflexivity; apply Hb'.
  - intros Hlen.
    assert (Hc : counts ts ([] ++ calls)).
    { apply counts_foldl. repeat split; reflexivity. }
    cbn in Hc. destruct Hc as (H1 & H2 & H3 & H4 & H5 & H6).
    pose proof (tally_le (isRole true) calls).
    pose proof (tally_le (isRole false) calls).
    pose proof (tally_le (isUser true) calls).
    pose proof (tally_le (isUser false) calls).
    pose proof (tally_split calls).
    assert (Hmin : GoInt.minInt ≤ 0) by (unfold GoInt.minInt; lia).
    rewrite GoIntFacts.wrap_id in H1, H2, H3, H4, H5, H6
      by (unfold GoInt.in_range; lia).
    lia.
Qed.

(** ** The statistics report *)

Lemma successRate_eq success total :
  total > 0 → (successRate success total == (success * 100) # (Z.to_pos total))%Q.
Proof.
  intros Ht. unfold successRate, Qdiv, Qeq, Qmult, Qinv, inject_Z. cbn.
  destruct total as [|p|p]; try lia. cbn. lia.
Qed.

Lemma PrintStats_rates ts :
  roleRates (PrintStats ts)
    = (if decide (TotalRoles ts > 0)
       then [successRate (SuccessRoles ts) (TotalRoles ts)] else []) ∧
  userRates (PrintStats ts)
    = (if decide (TotalUsers ts > 0)
       then [successRate (SuccessUsers ts) (TotalUsers ts)] else []).
Proof.
  unfold PrintStats, roleRates, userRates.
  destruct (decide (TotalRoles ts > 0)), (decide (TotalUsers ts > 0)); split; reflexivity.
Qed.

(** C9 as stated fails: with no operation counted, the report holds no
    success-rate line at all, so no rate (in particular no rate 0) is
    reported for either category. *)
Lemma C9_zero_total_reports_no_rate :
  TotalRoles NewTestStats = 0 ∧ TotalUsers NewTestStats = 0 ∧
  PrintStats NewTestStats = [LineBanner; LineRoles 0 0 0; LineUsers 0 0 0; LineRule] ∧
  ¬ (∃ q, LineRoleRate q ∈ PrintStats NewTestStats) ∧
  ¬ (∃ q, LineUserRate q ∈ PrintStats NewTestStats).
Proof.
  repeat split; try reflexivity; intros [q Hq]; cbn in Hq;
    repeat (apply elem_of_cons in Hq as [Hq|Hq]; [discriminate Hq|]);
    by apply elem_of_nil in Hq.
Qed.

(** C9, amended: for each category the report holds the success rate
    [success / total * 100] exactly when the total is positive, and holds no
    rate line for that category otherwise; the quotient is only ever formed
    under the guard [total > 0], so the divisor is never zero. *)
Theorem C9_success_rate (ts : TestStats) :
  (TotalRoles ts > 0 →
     roleRates (PrintStats ts) = [successRate (SuccessRoles ts) (TotalRoles ts)] ∧
     (successRate (SuccessRoles ts) (TotalRoles ts)
        == (SuccessRoles ts * 100) # (Z.to_pos (TotalRoles ts)))%Q) ∧
  (TotalRoles ts ≤ 0 → roleRates (PrintStats ts) = []) ∧
  (TotalUsers ts > 0 →
     userRates (PrintStats ts) = [successRate (SuccessUsers ts) (TotalUsers ts)] ∧
     (successRate (SuccessUsers ts) (TotalUsers ts)
        == (SuccessUsers ts * 100) # (Z.to_pos (TotalUsers ts)))%Q) ∧
  (TotalUsers ts ≤ 0 → userRates (PrintStats ts) = []).
Proof.
  destruct (PrintStats_rates ts) as [Hr Hu].
  repeat split.
  - rewrite Hr. destruct (decide (TotalRoles ts > 0)); [done|lia].
  - by apply successRate_eq.
  - intros H. rewrite Hr. destruct (decide (TotalRoles ts > 0)); [lia|done].
  - rewrite Hu. destruct (decide (TotalUsers ts > 0)); [done|lia].
  - by apply successRate_eq.
  - intros H. rewrite Hu. destruct (decide (TotalUsers ts > 0)); [lia|done].
Qed.

Lemma C9_success_rate_witness :
  roleRates (PrintStats stats_3_of_4) = [successRate 2 2] ∧
  (successRate 2 2 == 100 # 1)%Q ∧
  userRates (PrintStats stats_3_of_4) = [successRate 3 4] ∧
  (successRate 3 4 == 75 # 1)%Q ∧
  roleRates (PrintStats NewTestStats) = [] ∧
  userRates (PrintStats NewTestStats) = [].
Proof.
  destruct (C9_success_rate stats_3_of_4) as (Hr & _ & Hu & _).
  destruct (C9_success_rate NewTestStats) as (_ & Hr0 & _ & Hu0).
  destruct Hr as [Hr _]; [cbn; lia|].
  destruct Hu as [Hu _]; [cbn; lia|].
  split; [exact Hr|]. split; [reflexivity|]. split; [exact Hu|].
  split; [reflexivity|].
  split; [apply Hr0; cbn; lia | apply Hu0; cbn; lia].
Defined.

(** ** Loops *)

Lemma result_bind_ok {A B} (a : A) (k : A → result B) : mbind k (Ok a) = k a.
Proof. reflexivity. Qed.

Lemma for_lt_nil {T} lo hi (body : Z → T → T) s : hi ≤ lo → for_lt lo hi body s = s.
Proof. intros H. unfold for_lt. rewrite seqZ_nil by lia. reflexivity. Qed.

Lemma for_lt_snoc {T} lo hi (body : Z → T → T) s :
  lo ≤ hi → for_lt lo (hi + 1) body s = body hi (for_lt lo hi body s).
Proof.
  intros H. unfold for_lt.
  replace (hi + 1 - lo) with ((hi - lo) + 1) by lia.
  rewrite seqZ_app by lia. rewrite foldl_app.
  replace (lo + (hi - lo)) with hi by lia. reflexivity.
Qed.

(** An invariant of the loop holds when the loop is left. *)
Lemma for_lt_ind {T} (P : Z → T → Prop) lo hi (body : Z → T → T) s :
  lo ≤ hi →
  P lo s →
  (∀ i s, lo ≤ i < hi → P i s → P (i + 1) (body i s)) →
  P hi (for_lt lo hi body s).
Proof.
  intros Hle H0 Hstep.
  assert (Hgen : ∀ n : nat, lo + Z.of_nat n ≤ hi →
            P (lo + Z.of_nat n) (for_lt lo (lo + Z.of_nat n) body s)).
  { induction n as [|n IH]; intros Hn.
    - rewrite Z.add_0_r, for_lt_nil by lia. exact H0.
    - replace (lo + Z.of_nat (S n)) with ((lo + Z.of_nat n) + 1) by lia.
      rewrite for_lt_snoc by lia. apply Hstep; [lia|]. apply IH. lia. }
  specialize (Hgen (Z.to_nat (hi - lo))).
  replace (lo + Z.of_nat (Z.to_nat (hi - lo))) with hi in Hgen by lia.
  apply Hgen. lia.
Qed.

(** ** Partitioning *)

Section Shares.

Variables from total workers : Z.
Hypothesis Htotal : 0 ≤ total.
Hypothesis Hworkers : 1 ≤ workers.

Lemma share_nonneg i : 0 ≤ share total workers i.
Proof.
  unfold share. pose proof (Z.div_pos total workers).
  destruct (decide (i < total mod workers)); lia.
Qed.

Lemma first_0 : firstIndex from total workers 0 = from.
Proof.
  unfold firstIndex. pose proof (Z.mod_pos_bound total workers). lia.
Qed.

Lemma first_succ i :
  0 ≤ i → firstIndex from total workers (i + 1) = firstIndex from total workers i + share total workers i.
Proof.
  intros Hi. unfold firstIndex, share.
  destruct (decide (i < total mod workers)); lia.
Qed.

Lemma first_workers : firstIndex from total workers workers = from + total.
Proof.
  unfold firstIndex. pose proof (Z.mod_pos_bound total workers).
  pose proof (Z.div_mod total workers). lia.
Qed.

Lemma first_bounds i :
  0 ≤ i ≤ workers → from ≤ firstIndex from total workers i ≤ from + total.
Proof.
  intros Hi. unfold firstIndex.
  pose proof (Z.mod_pos_bound total workers).
  pose proof (Z.div_mod total workers).
  pose proof (Z.div_pos total workers).
  assert (total / workers * i ≤ total / workers * workers) by nia.
  nia.
Qed.

Lemma share_pos_iff i : 0 ≤ i < workers → (share total workers i > 0 ↔ i < total).
Proof.
  intros Hi. unfold share.
  pose proof (Z.mod_pos_bound total workers).
  pose proof (Z.div_mod total workers).
  pose proof (Z.div_pos total workers).
  destruct (decide (i < total mod workers)).
  - split; [nia | lia].
  - split.
    + intros Hq. assert (1 ≤ total / workers) by lia. nia.
    + intros Hlt. assert (0 < total / workers); [|lia].
      destruct (decide (0 < total / workers)); [done|].
      assert (total / workers = 0) by lia. nia.
Qed.

Lemma first_min : firstIndex from total workers (Z.min workers total) = from + total.
Proof.
  destruct (decide (workers ≤ total)).
  - rewrite Z.min_l by lia. apply first_workers.
  - rewrite Z.min_r by lia. unfold firstIndex.
    rewrite Z.div_small, Z.mod_small by lia. lia.
Qed.

End Shares.

Lemma tiles_le from ranges to : tiles from ranges to → from ≤ to.
Proof.
  revert from. induction ranges as [|[lo hi] rest IH]; intros from; cbn.
  - lia.
  - intros (-> & H1 & H2). apply IH in H2. lia.
Qed.

Lemma tiles_app a l1 b l2 c : tiles a l1 b → tiles b l2 c → tiles a (l1 ++ l2) c.
Proof.
  revert a. induction l1 as [|[lo hi] rest IH]; intros a; cbn.
  - by intros ->.
  - intros (-> & H1 & H2) H3. eauto.
Qed.

Lemma tiles_indices from ranges to :
  tiles from ranges to → concat (indices <$> ranges) = seqZ from (to - from).
Proof.
  revert from. induction ranges as [|[lo hi] rest IH]; intros from; cbn.
  - intros ->. by rewrite seqZ_nil by lia.
  - intros (-> & H1 & H2). pose proof (tiles_le _ _ _ H2).
    rewrite (IH _ H2). unfold indices; cbn.
    replace (to - from) with ((hi - from + 1) + (to - (hi + 1))) by lia.
    rewrite (seqZ_app from (hi - from + 1) (to - (hi + 1))) by lia.
    do 2 f_equal. lia.
Qed.

Lemma tiles_size from ranges to :
  tiles from ranges to → foldr Z.add 0 (rangeSize <$> ranges) = to - from.
Proof.
  revert from. induction ranges as [|[lo hi] rest IH]; intros from; cbn.
  - lia.
  - intros (-> & H1 & H2). rewrite (IH _ H2). unfold rangeSize; cbn. lia.
Qed.

Lemma tiles_union from ranges to :
  tiles from ranges to → ∀ i, (∃ r, r ∈ ranges ∧ covers r i) ↔ from ≤ i < to.
Proof.
  revert from. induction ranges as [|[lo hi] rest IH]; intros from; cbn.
  - intros -> i. split; [|lia]. intros (r & Hr & _). by apply elem_of_nil in Hr.
  - intros (-> & H1 & H2) i. pose proof (tiles_le _ _ _ H2).
    specialize (IH _ H2 i). split.
    + intros (r & Hr & Hc). apply elem_of_cons in Hr as [->|Hr].
      * unfold covers in Hc; cbn in Hc. lia.
      * assert (hi + 1 ≤ i < to) by (apply IH; eauto). lia.
    + intros Hi. destruct (decide (i ≤ hi)).
      * exists (from, hi). split; [left|]. unfold covers; cbn. lia.
      * destruct IH as [_ IH]. destruct IH as (r & Hr & Hc); [lia|].
        exists r. split; [by right|done].
Qed.

Lemma tiles_disjoint from ranges to :
  tiles from ranges to →
  ∀ j k r r' i, j ≠ k → ranges !! j = Some r → ranges !! k = Some r' →
    covers r i → ¬ covers r' i.
Proof.
  assert (Hlt : ∀ ranges from to, tiles from ranges to →
            ∀ j k r r' i, (j < k)%nat → ranges !! j = Some r → ranges !! k = Some r' →
              ¬ (covers r i ∧ covers r' i)).
  { clear. induction ranges as [|[lo hi] rest IH]; intros from to; cbn.
    - intros _ j k r r' i _ Hj. by rewrite lookup_nil in Hj.
    - intros (-> & H1 & H2) j k r r' i Hjk Hj Hk [Hc Hc'].
      destruct k as [|k]; [lia|]. cbn in Hk.
      destruct j as [|j]; cbn in Hj.
      + injection Hj as <-.
        assert (hi + 1 ≤ i < to).
        { apply (tiles_union _ _ _ H2). exists r'. split; [|done].
          by eapply list_elem_of_lookup_2. }
        unfold covers in Hc; cbn in Hc. lia.
      + eapply (IH _ _ H2 j k r r' i); [lia|done|done|done]. }
  intros Ht j k r r' i Hjk Hj Hk Hc Hc'.
  destruct (decide (j < k)%nat).
  - eapply (Hlt _ _ _ Ht j k); eauto.
  - eapply (Hlt _ _ _ Ht k j); eauto. lia.
Qed.

(** The ranges of the first [m] threads tile the indices up to the first
    index of thread [m]. *)
Lemma tiles_first from total workers (m : nat) :
  0 ≤ total → 1 ≤ workers →
  tiles from
    ((λ i, (firstIndex from total workers i, firstIndex from total workers (i + 1) - 1))
       <$> seqZ 0 (Z.of_nat m))
    (firstIndex from total workers (Z.of_nat m)).
Proof.
  intros Ht Hw. induction m as [|m IH].
  - cbn. symmetry. by apply first_0.
  - rewrite seqZ_S, fmap_app. eapply tiles_app; [exact IH|].
    cbn. rewrite Z.add_0_l. split; [done|].
    replace (Z.of_nat (S m)) with (Z.of_nat m + 1) by lia.
    split; [|lia].
    rewrite first_succ by lia.
    pose proof (share_nonneg total workers Ht Hw (Z.of_nat m)). lia.
Qed.

(** *** The three partitioning loops in closed form *)

Lemma seqZ_snoc (i : Z) : 0 ≤ i → seqZ 0 (i + 1) = seqZ 0 i ++ [i].
Proof. intros Hi. rewrite seqZ_app by lia. reflexivity. Qed.

Section ClosedForms.

Variables from total workers : Z.
Hypothesis Htotal : 0 ≤ total.
Hypothesis Hworkers : 1 ≤ workers.
Hypothesis Hfrom : GoInt.in_range (from - 1).
Hypothesis Hto : GoInt.in_range (from + total).
Hypothesis Hint : GoInt.in_range workers.
Hypothesis Hcount : GoInt.in_range total.

Let q := total / workers.
Let r := total mod workers.

Lemma quotient_facts : 0 ≤ q ∧ 0 ≤ r < workers ∧ total = workers * q + r.
Proof.
  subst q r. pose proof (Z.mod_pos_bound total workers).
  pose proof (Z.div_mod total workers). pose proof (Z.div_pos total workers).
  lia.
Qed.

Lemma div_total : GoInt.div total workers = Ok q.
Proof. apply GoIntFacts.div_exact; [done|done|lia]. Qed.

Lemma rem_total : GoInt.rem total workers = Ok r.
Proof. apply GoIntFacts.rem_exact; [done|lia|done]. Qed.

(** Inside the loop, for thread [i]: the share is an [int], and so are
    the ends of the range and the start of the next one. *)
Lemma share_step i :
  0 ≤ i < workers →
  let lo := firstIndex from total workers i in
  let n := share total workers i in
  (i < r → GoInt.add q 1 = q + 1) ∧
  GoInt.add lo n = lo + n ∧
  GoInt.sub (lo + n) 1 = lo + n - 1 ∧
  GoInt.add (lo + n - 1) 1 = lo + n ∧
  lo + n = firstIndex from total workers (i + 1).
Proof.
  intros Hi lo n.
  destruct quotient_facts as (Hq & Hr & Hqr).
  pose proof (first_bounds from total workers Htotal Hworkers i ltac:(lia)) as Hlo.
  pose proof (first_bounds from total workers Htotal Hworkers (i + 1) ltac:(lia)) as Hhi.
  assert (Hn : lo + n = firstIndex from total workers (i + 1)).
  { subst lo n. rewrite first_succ; [done|lia]. }
  assert (Hq1 : q ≤ total).
  { assert (0 ≤ (workers - 1) * q) by (apply Z.mul_nonneg_nonneg; lia). lia. }
  assert (total ≤ GoInt.maxInt) by int_bounds.
  split; [|split; [|split; [|split]]]; try done.
  - intros Hir. unfold GoInt.add. apply GoIntFacts.wrap_id.
    assert (0 ≤ (workers - 1) * q) by (apply Z.mul_nonneg_nonneg; lia).
    int_bounds.
  - unfold GoInt.add. apply GoIntFacts.wrap_id. rewrite Hn. int_bounds.
  - unfold GoInt.sub. apply GoIntFacts.wrap_id. rewrite Hn. int_bounds.
  - unfold GoInt.add. replace (lo + n - 1 + 1) with (lo + n) by lia.
    apply GoIntFacts.wrap_id. rewrite Hn. int_bounds.
Qed.

End ClosedForms.

Section UserPartition.

Variable c : Config.
Let e := Execution c.
Let total := ExecutionConfig.NoOfUsers e.
Let workers := ExecutionConfig.NoOfThreads e.
Let from := ExecutionConfig.UserStartNumber e.

Hypothesis Htotal : 0 ≤ total.
Hypothesis Hworkers : 1 ≤ workers.
Hypothesis Hfrom : GoInt.in_range (from - 1).
Hypothesis Hto : GoInt.in_range (from + total).
Hypothesis Hint : GoInt.in_range workers.
Hypothesis Hcount : GoInt.in_range total.

Lemma userCreationTasks_closed :
  userCreationTasks c = Ok (userTask c <$> seqZ 0 workers).
Proof.
  unfold userCreationTasks. fold e. fold total workers from.
  rewrite (div_total total workers Htotal Hworkers Hcount).
  rewrite (rem_total total workers Htotal Hworkers Hint).
  rewrite !result_bind_ok.
  destruct (quotient_facts total workers Htotal Hworkers) as (Hq & Hr & Hqr).
  set (q := total / workers) in *. set (r := total mod workers) in *.
  match goal with
  | |- context [for_lt 0 workers ?body ?init] =>
      pose proof (for_lt_ind
        (λ i st, st = (Z.max (r - i) 0, firstIndex from total workers i,
                       userTask c <$> seqZ 0 i))
        0 workers body init) as Hloop
  end.
  cbv beta in Hloop. rewrite Hloop; [reflexivity|lia| |].
  - rewrite first_0 by done. f_equal. f_equal. lia.
  - intros i st Hi ->. cbv beta iota zeta.
    destruct (share_step from total workers Htotal Hworkers Hfrom Hto Hcount i
                ltac:(lia)) as (Hinc & Ha & Hs & Hn & Hnext).
    fold q r in Hinc. unfold share in Ha, Hs, Hn, Hnext. fold q r in Ha, Hs, Hn, Hnext.
    rewrite seqZ_snoc, fmap_app by lia.
    destruct (decide (Z.max (r - i) 0 > 0)) as [Hpos|Hpos].
    + destruct (decide (i < r)) as [Hir|]; [|lia].
      rewrite (Hinc Hir), Ha, Hs, Hn, Hnext.
      rewrite GoIntFacts.sub_exact by int_bounds.
      replace (Z.max (r - i) 0 - 1) with (Z.max (r - (i + 1)) 0) by lia.
      reflexivity.
    + destruct (decide (i < r)) as [Hir|Hir]; [lia|].
      rewrite Z.add_0_r in Ha, Hs, Hn, Hnext.
      rewrite Ha, Hs, Hn, Hnext.
      replace (Z.max (r - i) 0) with (Z.max (r - (i + 1)) 0) by lia.
      reflexivity.
Qed.

End UserPartition.

Section RolePartition.

Variable c : Config.
Let e := Execution c.
Let total := ExecutionConfig.NoOfTenants e.
Let workers := ExecutionConfig.NoOfThreads e.
Let from := ExecutionConfig.TenantStartNumber e.

Hypothesis Htotal : 0 ≤ total.
Hypothesis Hworkers : 1 ≤ workers.
Hypothesis Hfrom : GoInt.in_range (from - 1).
Hypothesis Hto : GoInt.in_range (from + total).
Hypothesis Hint : GoInt.in_range workers.
Hypothesis Hcount : GoInt.in_range total.

Lemma roleCreationTasks_closed :
  roleCreationTasks c = Ok (roleTask c <$> seqZ 0 (Z.min workers total)).
Proof.
  unfold roleCreationTasks. fold e. fold total workers from. cbv zeta.
  rewrite (div_total total workers Htotal Hworkers Hcount).
  rewrite (rem_total total workers Htotal Hworkers Hint).
  rewrite !result_bind_ok.
  destruct (quotient_facts total workers Htotal Hworkers) as (Hq & Hr & Hqr).
  set (q := total / workers) in *. set (r := total mod workers) in *.
  match goal with
  | |- context [for_lt 0 workers ?body ?init] =>
      pose proof (for_lt_ind
        (λ i st, st = (firstIndex from total workers i,
                       roleTask c <$> seqZ 0 (Z.min i total)))
        0 workers body init) as Hloop
  end.
  cbv beta in Hloop. rewrite Hloop; [reflexivity|lia| |].
  - rewrite first_0 by done. rewrite Z.min_l by lia. reflexivity.
  - intros i st Hi ->. cbv beta iota zeta.
    destruct (share_step from total workers Htotal Hworkers Hfrom Hto Hcount i
                ltac:(lia)) as (Hinc & Ha & Hs & Hn & Hnext).
    pose proof (share_pos_iff total workers Htotal Hworkers i ltac:(lia)) as Hpos.
    fold q r in Hinc. unfold share in Ha, Hs, Hn, Hnext, Hpos.
    fold q r in Ha, Hs, Hn, Hnext, Hpos.
    destruct (decide (i < r)) as [Hir|Hir].
    + rewrite (Hinc Hir), Ha, Hs, Hn, Hnext.
      destruct (decide (q + 1 > 0)) as [_|]; [|lia].
      rewrite (Z.min_l i), (Z.min_l (i + 1)) by lia.
      rewrite seqZ_snoc, fmap_app by lia. reflexivity.
    + rewrite Z.add_0_r in Ha, Hs, Hn, Hnext, Hpos.
      rewrite Ha, Hs, Hn, Hnext.
      destruct (decide (q > 0)) as [Hq0|Hq0].
      * rewrite (Z.min_l i), (Z.min_l (i + 1)) by lia.
        rewrite seqZ_snoc, fmap_app by lia. reflexivity.
      * rewrite (Z.min_r i), (Z.min_r (i + 1)) by lia. reflexivity.
Qed.

End RolePartition.

Section RetryPartition.

Variable c : Config.
Variable failedUsers : list FailedUser.t.
Let total := Z.of_nat (length failedUsers).
Let workers := ExecutionConfig.NoOfThreads (Execution c).

Hypothesis Hworkers : 1 ≤ workers.
Hypothesis Hint : GoInt.in_range workers.
Hypothesis Hcount : GoInt.in_range total.

Lemma retryTasks_closed :
  retryTasks c failedUsers
    = Ok (retryTask c failedUsers <$> seqZ 0 (Z.min workers total)).
Proof.
  assert (Htotal : 0 ≤ total) by (subst total; lia).
  assert (Hfrom : GoInt.in_range (0 - 1)) by int_bounds.
  assert (Hto : GoInt.in_range (0 + total)) by (by rewrite Z.add_0_l).
  unfold retryTasks. fold total workers. cbv zeta.
  rewrite (div_total total workers Htotal Hworkers Hcount).
  rewrite (rem_total total workers Htotal Hworkers Hint).
  rewrite !result_bind_ok.
  destruct (quotient_facts total workers Htotal Hworkers) as (Hq & Hr & Hqr).
  set (q := total / workers) in *. set (r := total mod workers) in *.
  match goal with
  | |- context [for_lt 0 workers ?body ?init] =>
      pose proof (for_lt_ind
        (λ i st, st = (firstIndex 0 total workers i,
                       retryTask c failedUsers <$> seqZ 0 (Z.min i total)))
        0 workers body init) as Hloop
  end.
  cbv beta in Hloop. rewrite Hloop; [reflexivity|lia| |].
  - rewrite first_0 by done. rewrite Z.min_l by lia. reflexivity.
  - intros i st Hi ->. cbv beta iota zeta.
    destruct (share_step 0 total workers Htotal Hworkers Hfrom Hto Hcount i
                ltac:(lia)) as (Hinc & Ha & Hs & Hn & Hnext).
    pose proof (share_pos_iff total workers Htotal Hworkers i ltac:(lia)) as Hpos.
    fold q r in Hinc. unfold share in Ha, Hs, Hn, Hnext, Hpos.
    fold q r in Ha, Hs, Hn, Hnext, Hpos.
    destruct (decide (i < r)) as [Hir|Hir].
    + rewrite (Hinc Hir).
      destruct (decide (q + 1 > 0)) as [_|]; [|lia].
      rewrite Ha, Hs, Hn, Hnext.
      rewrite (Z.min_l i), (Z.min_l (i + 1)) by lia.
      rewrite seqZ_snoc, fmap_app by lia. reflexivity.
    + rewrite Z.add_0_r in Ha, Hs, Hn, Hnext, Hpos.
      destruct (decide (q > 0)) as [Hq0|Hq0].
      * rewrite Ha, Hs, Hn, Hnext.
        rewrite (Z.min_l i), (Z.min_l (i + 1)) by lia.
        rewrite seqZ_snoc, fmap_app by lia. reflexivity.
      * rewrite (Z.min_r i), (Z.min_r (i + 1)) by lia.
        rewrite <- Hnext. f_equal. lia.
Qed.

End RetryPartition.

Lemma tiles_partitions from ranges total :
  tiles from ranges (from + total) → partitions ranges from total.
Proof.
  intros Ht. split; [exact Ht|]. split; [|split; [|split]].
  - rewrite (tiles_indices _ _ _ Ht). f_equal. lia.
  - intros i. rewrite (tiles_union _ _ _ Ht i). lia.
  - exact (tiles_disjoint _ _ _ Ht).
  - rewrite (tiles_size _ _ _ Ht). lia.
Qed.

Lemma tiles_nthRange from total workers m :
  0 ≤ total → 1 ≤ workers → 0 ≤ m →
  tiles from (nthRange from total workers <$> seqZ 0 m) (firstIndex from total workers m).
Proof.
  intros Ht Hw Hm. rewrite <- (Z2Nat.id m) by lia.
  apply (tiles_first from total workers (Z.to_nat m) Ht Hw).
Qed.

Lemma userCreationTasks_partitions c :
  let e := Execution c in
  0 ≤ ExecutionConfig.NoOfUsers e → 1 ≤ ExecutionConfig.NoOfThreads e →
  GoInt.in_range (ExecutionConfig.UserStartNumber e - 1) →
  GoInt.in_range (ExecutionConfig.UserStartNumber e + ExecutionConfig.NoOfUsers e) →
  GoInt.in_range (ExecutionConfig.NoOfThreads e) →
  GoInt.in_range (ExecutionConfig.NoOfUsers e) →
  userCreationTasks c = Ok (userTask c <$> seqZ 0 (ExecutionConfig.NoOfThreads e)) ∧
  partitions
    (ranges_of_tasks (userTask c <$> seqZ 0 (ExecutionConfig.NoOfThreads e)))
    (ExecutionConfig.UserStartNumber e) (ExecutionConfig.NoOfUsers e).
Proof.
  intros e Ht Hw Hf Hto Hi Hc. split.
  - by apply userCreationTasks_closed.
  - apply tiles_partitions. unfold ranges_of_tasks. rewrite <- list_fmap_compose.
    rewrite <- (first_workers (ExecutionConfig.UserStartNumber e)
                  (ExecutionConfig.NoOfUsers e) (ExecutionConfig.NoOfThreads e)) by done.
    apply (tiles_nthRange _ _ _ _ Ht Hw). lia.
Qed.

Lemma roleCreationTasks_partitions c :
  let e := Execution c in
  0 ≤ ExecutionConfig.NoOfTenants e → 1 ≤ ExecutionConfig.NoOfThreads e →
  GoInt.in_range (ExecutionConfig.TenantStartNumber e - 1) →
  GoInt.in_range (ExecutionConfig.TenantStartNumber e + ExecutionConfig.NoOfTenants e) →
  GoInt.in_range (ExecutionConfig.NoOfThreads e) →
  GoInt.in_range (ExecutionConfig.NoOfTenants e) →
  let started := roleTask c <$> seqZ 0 (Z.min (ExecutionConfig.NoOfThreads e)
                                              (ExecutionConfig.NoOfTenants e)) in
  roleCreationTasks c = Ok started ∧
  partitions (ranges_of_roleTasks started)
    (ExecutionConfig.TenantStartNumber e) (ExecutionConfig.NoOfTenants e).
Proof.
  intros e Ht Hw Hf Hto Hi Hc started. split.
  - by apply roleCreationTasks_closed.
  - apply tiles_partitions. unfold started, ranges_of_roleTasks.
    rewrite <- list_fmap_compose.
    rewrite <- (first_min (ExecutionConfig.TenantStartNumber e)
                  (ExecutionConfig.NoOfTenants e) (ExecutionConfig.NoOfThreads e)) by done.
    apply (tiles_nthRange _ _ _ _ Ht Hw). lia.
Qed.

Lemma retryTasks_partitions c failedUsers :
  let workers := ExecutionConfig.NoOfThreads (Execution c) in
  let total := Z.of_nat (length failedUsers) in
  1 ≤ workers → GoInt.in_range workers → GoInt.in_range total →
  let tasks := retryTask c failedUsers <$> seqZ 0 (Z.min workers total) in
  retryTasks c failedUsers = Ok tasks ∧
  partitions (ranges_of_retryTasks tasks) 0 total.
Proof.
  intros workers total Hw Hi Hc tasks. split.
  - by apply retryTasks_closed.
  - assert (Ht : 0 ≤ total) by (subst total; lia).
    apply tiles_partitions. unfold tasks, ranges_of_retryTasks.
    rewrite <- list_fmap_compose.
    rewrite <- (first_min 0 total workers) by done.
    apply (tiles_nthRange _ _ _ _ Ht Hw). lia.
Qed.

(** C1 as stated fails: with one user, two threads and the largest [int] as
    the first user number, the second range computed by
    [ExecuteUserCreation] runs from the smallest to the largest [int]; it
    overlaps the first range and reaches far outside the interval asked
    for. *)
Lemma C1_wraps_at_maxInt :
  0 ≤ ExecutionConfig.NoOfUsers (Execution overflowConfig) ∧
  1 ≤ ExecutionConfig.NoOfThreads (Execution overflowConfig) ∧
  ∃ tasks,
    userCreationTasks overflowConfig = Ok tasks ∧
    ranges_of_tasks tasks
      = [(GoInt.maxInt, GoInt.maxInt); (GoInt.minInt, GoInt.maxInt)] ∧
    covers (GoInt.maxInt, GoInt.maxInt) GoInt.maxInt ∧
    covers (GoInt.minInt, GoInt.maxInt) GoInt.maxInt ∧
    covers (GoInt.minInt, GoInt.maxInt) 0 ∧
    ¬ partitions (ranges_of_tasks tasks) GoInt.maxInt 1.
Proof.
  split; [cbn; lia|]. split; [cbn; lia|].
  eexists. split; [vm_compute; reflexivity|].
  split; [reflexivity|].
  assert (Hc : ∀ lo hi i, lo ≤ i → i ≤ hi → covers (lo, hi) i).
  { intros lo hi i H1 H2. split; assumption. }
  split; [apply Hc; lia|].
  split; [apply Hc; unfold GoInt.minInt, GoInt.maxInt; lia|].
  split; [apply Hc; unfold GoInt.minInt, GoInt.maxInt; lia|].
  intros (_ & _ & _ & Hdis & _).
  apply (Hdis 0%nat 1%nat (GoInt.maxInt, GoInt.maxInt)
           (GoInt.minInt, GoInt.maxInt) GoInt.maxInt);
    [lia|reflexivity|reflexivity| |];
    apply Hc; unfold GoInt.minInt, GoInt.maxInt; lia.
Qed.

(** C1, amended: for every total >= 0, workers >= 1 and first index such
    that the index before the first and the index after the last are
    [int]s (no wrap-around), the ranges built before the workers are
    started, taken in order, are contiguous from the first index (each
    starts right after the end of the one before), do not overlap, cover
    exactly the indices from [rangeStart] to [rangeStart + total - 1], and
    have sizes that add up to [total].  This holds for the tasks of
    [ExecuteUserCreation] (one per thread), for the workers started by
    [ExecuteRoleCreation], and for the tasks of [ExecuteRetryFailed], where
    the range is the positions [0 .. len(failedUsers) - 1]. *)
Theorem C1_partition_covers (c : Config) (failedUsers : list FailedUser.t) :
  let e := Execution c in
  let workers := ExecutionConfig.NoOfThreads e in
  1 ≤ workers → GoInt.in_range workers →
  (let total := ExecutionConfig.NoOfUsers e in
   let rangeStart := ExecutionConfig.UserStartNumber e in
   0 ≤ total → GoInt.in_range total →
   GoInt.in_range (rangeStart - 1) → GoInt.in_range (rangeStart + total) →
   ∃ tasks, userCreationTasks c = Ok tasks ∧
            Z.of_nat (length tasks) = workers ∧
            partitions (ranges_of_tasks tasks) rangeStart total) ∧
  (let total := ExecutionConfig.NoOfTenants e in
   let rangeStart := ExecutionConfig.TenantStartNumber e in
   0 ≤ total → GoInt.in_range total →
   GoInt.in_range (rangeStart - 1) → GoInt.in_range (rangeStart + total) →
   ∃ started, roleCreationTasks c = Ok started ∧
              partitions (ranges_of_roleTasks started) rangeStart total) ∧
  (let total := Z.of_nat (length failedUsers) in
   GoInt.in_range total →
   ∃ tasks, retryTasks c failedUsers = Ok tasks ∧
            partitions (ranges_of_retryTasks tasks) 0 total).
Proof.
  intros e workers Hw Hi. split; [|split].
  - intros total rangeStart Ht Hc Hf Hto.
    destruct (userCreationTasks_partitions c Ht Hw Hf Hto Hi Hc) as [Heq Hp].
    eexists. split; [exact Heq|]. split; [|exact Hp].
    rewrite length_fmap, length_seqZ. fold e workers. lia.
  - intros total rangeStart Ht Hc Hf Hto.
    destruct (roleCreationTasks_partitions c Ht Hw Hf Hto Hi Hc) as [Heq Hp].
    eexists. split; [exact Heq|exact Hp].
  - intros total Hc.
    destruct (retryTasks_partitions c failedUsers Hw Hi Hc) as [Heq Hp].
    eexists. split; [exact Heq|exact Hp].
Qed.

(** C1 for ten users and five tenants over three threads, and a ledger of
    two records. *)
Lemma C1_partition_covers_witness :
  (∃ tasks, userCreationTasks tenUsersThreeThreads = Ok tasks ∧
            Z.of_nat (length tasks) = 3 ∧
            partitions (ranges_of_tasks tasks) 1 10) ∧
  (∃ started, roleCreationTasks tenUsersThreeThreads = Ok started ∧
              partitions (ranges_of_roleTasks started) 1 5) ∧
  (∃ tasks, retryTasks tenUsersThreeThreads twoFailures = Ok tasks ∧
            partitions (ranges_of_retryTasks tasks) 0 2).
Proof.
  assert (Hr : ∀ z, -100 ≤ z ≤ 100 → GoInt.in_range z) by (intros; int_bounds).
  destruct (C1_partition_covers tenUsersThreeThreads twoFailures) as (Hu & Hro & Hre);
    [cbn; lia | apply Hr; cbn; lia |].
  split; [|split].
  - apply Hu; try (apply Hr; cbn; lia). cbn; lia.
  - apply Hro; try (apply Hr; cbn; lia). cbn; lia.
  - apply Hre. apply Hr. cbn. lia.
Defined.

(** ** Running the state monad *)

Lemma M_bind_run {A B} (m : M A) (k : A → M B) w :
  (m ≫= k) w = match m w with
               | (Ok a, w') => k a w'
               | (Err e, w') => (Err e, w')
               | (Panic e, w') => (Panic e, w')
               | (Loops, w') => (Loops, w')
               end.
Proof. reflexivity. Qed.

Lemma M_bind_ok {A B} (m : M A) (k : A → M B) w a w' :
  m w = (Ok a, w') → (m ≫= k) w = k a w'.
Proof. intros H. rewrite M_bind_run, H. reflexivity. Qed.

Lemma with_context_ok {A} prefix (m : M A) w a w' :
  m w = (Ok a, w') → with_context prefix m w = (Ok a, w').
Proof. intros H. unfold with_context. rewrite H. reflexivity. Qed.

Lemma with_trace_nil w : with_trace w [] = w.
Proof. destruct w. unfold with_trace. cbn. by rewrite app_nil_r. Qed.

Lemma with_trace_app w evs1 evs2 :
  with_trace (with_trace w evs1) evs2 = with_trace w (evs1 ++ evs2).
Proof. unfold with_trace. cbn. by rewrite app_assoc. Qed.

(** ** The writers *)

Lemma NewCSVWriter_run filename w :
  NewCSVWriter filename w =
    (Ok {| CSVWriter.filename := filename;
           CSVWriter.writer := {| Csv.file := filename; Csv.buffer := [["scim_id"]] |} |},
     with_file w filename []
       ([EvStat filename]
          ++ (if files w !! filename is Some _ then [EvRemove filename] else [])
          ++ [EvCreate filename])).
Proof.
  unfold NewCSVWriter, with_file. run_M.
  destruct (files w !! filename) as [old|] eqn:Hf.
  - rewrite bool_decide_eq_true_2 by eauto. run_M. rewrite Hf. run_M.
    rewrite insert_delete_eq, <- !app_assoc. reflexivity.
  - rewrite bool_decide_eq_false_2 by (intros [? ?]; discriminate). run_M.
    rewrite <- !app_assoc. reflexivity.
Qed.

Lemma CSVWriter_Close_run c w :
  CSVWriter_Close c w =
    (Ok (),
     match Csv.buffer (CSVWriter.writer c) with
     | [] => with_trace w [EvClose (Csv.file (CSVWriter.writer c))]
     | records =>
         with_file w (Csv.file (CSVWriter.writer c))
           (default [] (files w !! Csv.file (CSVWriter.writer c)) ++ records)
           [EvFileWrite (Csv.file (CSVWriter.writer c)) records;
            EvClose (Csv.file (CSVWriter.writer c))]
     end).
Proof.
  unfold CSVWriter_Close, Csv.Flush, with_file, with_trace.
  destruct (Csv.buffer (CSVWriter.writer c)) as [|r rs]; run_M.
  - reflexivity.
  - rewrite <- app_assoc. reflexivity.
Qed.


(** ** The ledger *)


Lemma NewFailedUsersCSVWriterAppend_run path w :
  NewFailedUsersCSVWriterAppend path w =
    (Ok (ledgerWriter path),
     match files w !! path with
     | Some (r :: rs) => with_trace w [EvOpenAppend path]
     | _ => with_file w path [ledgerHeader]
              [EvOpenAppend path; EvFileWrite path [ledgerHeader]]
     end).
Proof.
  unfold NewFailedUsersCSVWriterAppend, with_file, with_trace, Csv.Flush.
  cbn [Csv.Write Csv.NewWriter Csv.buffer Csv.file app]. run_M.
  destruct (files w !! path) as [[|r rs]|] eqn:Hf; cbn [default].
  - rewrite Hf. cbn [default]. rewrite bool_decide_eq_true_2 by done. run_M.
    rewrite Hf. cbn [default app]. rewrite <- app_assoc. reflexivity.
  - rewrite Hf. cbn [default]. rewrite bool_decide_eq_false_2 by done. run_M.
    reflexivity.
  - rewrite lookup_insert_eq. cbn [default].
    rewrite bool_decide_eq_true_2 by done. run_M.
    rewrite lookup_insert_eq, insert_insert_eq. cbn [default app].
    rewrite <- app_assoc. reflexivity.
Qed.

Lemma WriteFailedUser_run path tenantID username errorMsg timestamp w :
  WriteFailedUser (ledgerWriter path) tenantID username errorMsg timestamp w =
    (Ok (ledgerWriter path),
     let record := [Strconv.Itoa tenantID; username; errorMsg; timestamp] in
     with_file w path (default [] (files w !! path) ++ [record])
       [EvFileWrite path [record]]).
Proof.
  unfold WriteFailedUser, with_file, Csv.Flush, ledgerWriter.
  cbn [Csv.Write Csv.buffer Csv.file app FailedUsersCSVWriter.writer
       FailedUsersCSVWriter.filename]. run_M. reflexivity.
Qed.


Lemma readFailedUsersFromCSV_run te w raw :
  let path := ExecutionConfig.FailedUsersCsvPath (Execution (config te)) in
  files w !! path = Some raw →
  readFailedUsersFromCSV te w
    = (parseLedger raw, with_trace w [EvOpenRead path; EvClose path]).
Proof.
  intros path Hraw. unfold readFailedUsersFromCSV, parseLedger, with_trace.
  fold path. run_M. rewrite Hraw. run_M. rewrite Hraw.
  change (default [] (Some raw)) with raw.
  assert (Hread : Csv.ReadAll raw = Ok raw ∨ ∃ e, Csv.ReadAll raw = Err e).
  { unfold Csv.ReadAll. destruct raw as [|r0 rest]; [by left|].
    destruct (forallb _ rest); eauto. }
  destruct Hread as [->|[e ->]]; run_M; [|rewrite <- app_assoc; reflexivity].
  unfold result_bind, bind, startRow.
  destruct raw as [|[|f0 r0] rest]; run_M;
    try (rewrite <- app_assoc; reflexivity).
  destruct (bool_decide _); run_M; rewrite <- app_assoc; reflexivity.
Qed.





(** ** The pool *)

Lemma omap_concat {A B} (f : A → option B) (ls : list (list A)) :
  omap (M:=list) f (concat ls) = concat (omap (M:=list) f <$> ls).
Proof.
  induction ls as [|l ls IH]; [done|].
  cbn. by rewrite omap_app, IH.
Qed.

Lemma WriteFailedUser_ok fw tenantID username errorMsg timestamp w :
  ∃ fw' w' records,
    WriteFailedUser fw tenantID username errorMsg timestamp w = (Ok fw', w') ∧
    trace w' = trace w
                 ++ [EvFileWrite (Csv.file (FailedUsersCSVWriter.writer fw)) records].
Proof.
  unfold WriteFailedUser, Csv.Flush, Csv.Write. cbn [Csv.buffer Csv.file].
  destruct (Csv.buffer (FailedUsersCSVWriter.writer fw) ++
            [[Strconv.Itoa tenantID; username; errorMsg; timestamp]]) as [|r rs] eqn:E.
  { by destruct (Csv.buffer (FailedUsersCSVWriter.writer fw)). }
  run_M. eexists _, _, _. split; reflexivity.
Qed.

Lemma perform_ok step te channel w :
  ∃ te' w' new,
    perform step (te, channel) w = (Ok (te', channel ++ sent [step]), w') ∧
    config te' = config te ∧
    trace w' = trace w ++ new ∧
    ∀ B (f : event → option B), silent f → omap f new = omap f [step].
Proof.
  unfold perform.
  destruct step; run_M;
    try (eexists _, _, _; split;
         [rewrite ?app_nil_r; reflexivity
         |split; [reflexivity|split; [reflexivity|intros B f _; reflexivity]]]).
  destruct (failedUsersWriter te) as [fw|] eqn:Hfw.
  - destruct (WriteFailedUser_ok fw tenantID username errorMsg timestamp
                {| files := files w;
                   trace := trace w ++
                     [EvWriteFailedUser tenantID username errorMsg timestamp] |})
      as (fw' & w' & records & Hrun & Htr).
    rewrite Hrun. eexists _, _, _. split; [rewrite app_nil_r; reflexivity|].
    split; [reflexivity|]. split.
    + rewrite Htr. cbn [trace]. rewrite <- app_assoc. reflexivity.
    + intros B f Hf. rewrite omap_app. cbn. rewrite Hf.
      destruct (f (EvWriteFailedUser tenantID username errorMsg timestamp));
        reflexivity.
  - eexists _, _, _. split; [rewrite app_nil_r; reflexivity|].
    split; [reflexivity|]. split; [reflexivity|]. intros B f _. reflexivity.
Qed.

Lemma performAll_ok steps : ∀ te channel w,
  ∃ te' w' new,
    performAll steps (te, channel) w = (Ok (te', channel ++ sent steps), w') ∧
    config te' = config te ∧
    trace w' = trace w ++ new ∧
    ∀ B (f : event → option B), silent f → omap f new = omap f steps.
Proof.
  induction steps as [|step steps IH]; intros te channel w.
  - exists te, w, []. cbn. rewrite !app_nil_r. split; [done|]. split; [done|].
    split; [done|]. intros B f _. reflexivity.
  - destruct (perform_ok step te channel w) as (te1 & w1 & new1 & Hrun & Hc1 & Ht1 & Hv1).
    destruct (IH te1 (channel ++ sent [step]) w1)
      as (te2 & w2 & new2 & Hrun2 & Hc2 & Ht2 & Hv2).
    exists te2, w2, (new1 ++ new2). split.
    + cbn [performAll]. rewrite (M_bind_ok _ _ _ _ _ Hrun), Hrun2.
      do 3 f_equal. rewrite <- app_assoc. f_equal.
      change (step :: steps) with ([step] ++ steps). unfold sent. by rewrite omap_app.
    + split; [congruence|]. split; [by rewrite Ht2, Ht1, app_assoc|].
      intros B f Hf. rewrite omap_app, (Hv2 B f Hf), (Hv1 B f Hf).
      change (step :: steps) with ([step] ++ steps). by rewrite omap_app.
Qed.

(** Whatever the schedule, the merged steps are the steps of the workers,
    each one once. *)
Lemma mergeSteps_perm sched : ∀ running, mergeSteps sched running ≡ₚ concat running.
Proof.
  induction sched as [|i sched IH]; intros running; cbn [mergeSteps]; [done|].
  destruct (running !! i) as [[|step rest]|] eqn:Hi; try apply IH.
  rewrite IH.
  rewrite <- (take_drop_middle running i (step :: rest) Hi) at 2.
  rewrite insert_take_drop by (by eapply lookup_lt_Some).
  rewrite !concat_app. cbn [concat].
  rewrite <- app_comm_cons. apply Permutation_middle.
Qed.

Lemma omap_perm {A B} (f : A → option B) (l1 l2 : list A) :
  l1 ≡ₚ l2 → omap f l1 ≡ₚ omap f l2.
Proof.
  induction 1 as [|x l1 l2 _ IH|x y l|l1 l2 l3 _ IH1 _ IH2]; cbn.
  - done.
  - destruct (f x); [by constructor|done].
  - destruct (f x), (f y); try done. apply perm_swap.
  - by etrans.
Qed.

Lemma runWorkers_ok {T} (run : T → result (list event)) (g : T → list event) tasks :
  (∀ t, t ∈ tasks → run t = Ok (g t)) → runWorkers run tasks = Ok (g <$> tasks).
Proof.
  induction tasks as [|t tasks IH]; intros Hrun; [done|].
  cbn [runWorkers]. rewrite (Hrun t) by left. rewrite result_bind_ok.
  rewrite IH by (intros; apply Hrun; by right). reflexivity.
Qed.

(** A loop whose body adds steps to those made so far. *)
Lemma for_lt_adds {B} (f : event → option B) (g : Z → list B) lo hi
    (body : Z → nat * list event → nat * list event) :
  (∀ i, lo ≤ i < hi → ∀ k steps, ∃ k' added,
      body i (k, steps) = (k', steps ++ added) ∧ omap f added = g i) →
  ∀ k steps, ∃ k' added,
    for_lt lo hi body (k, steps) = (k', steps ++ added) ∧
    omap f added = concat (g <$> seqZ lo (hi - lo)).
Proof.
  intros Hbody k steps.
  destruct (decide (lo ≤ hi)) as [Hle|Hgt].
  - apply (for_lt_ind
      (λ i st, ∃ k' added, st = (k', steps ++ added) ∧
                           omap f added = concat (g <$> seqZ lo (i - lo)))
      lo hi body (k, steps) Hle).
    + exists k, []. rewrite app_nil_r, Z.sub_diag. done.
    + intros i st Hi (k' & added & -> & Hadded).
      destruct (Hbody i Hi k' (steps ++ added)) as (k'' & more & -> & Hmore).
      exists k'', (added ++ more). split; [by rewrite app_assoc|].
      replace (i + 1 - lo) with ((i - lo) + 1) by lia.
      rewrite seqZ_app, fmap_app, concat_app, omap_app by lia.
      rewrite Hadded, Hmore. f_equal.
      replace (lo + (i - lo)) with i by lia.
      change (seqZ i 1) with [i]. cbn. by rewrite app_nil_r.
  - rewrite for_lt_nil by lia. exists k, []. rewrite app_nil_r.
    rewrite seqZ_nil by lia. done.
Qed.

Lemma for_range_adds {A B} (f : event → option B) (g : A → list B)
    (body : A → nat * list event → result (nat * list event)) (l : list A) :
  (∀ x, x ∈ l → ∀ k steps, ∃ k' added,
      body x (k, steps) = Ok (k', steps ++ added) ∧ omap f added = g x) →
  ∀ k steps, ∃ k' added,
    for_range l body (k, steps) = Ok (k', steps ++ added) ∧
    omap f added = concat (g <$> l).
Proof.
  induction l as [|x l IH]; intros Hbody k steps.
  - exists k, []. by rewrite app_nil_r.
  - destruct (Hbody x ltac:(left) k steps) as (k' & added & Hx & Hadded).
    destruct (IH (λ y Hy, Hbody y ltac:(by right)) k' (steps ++ added))
      as (k'' & more & Hl & Hmore).
    exists k'', (added ++ more). split.
    + cbn [for_range]. rewrite Hx, result_bind_ok, Hl. by rewrite app_assoc.
    + rewrite omap_app, Hadded, Hmore. reflexivity.
Qed.

(** ** The user-creation pool *)

Lemma concat_singletons {A B} (f : A → B) (l : list A) :
  concat ((λ t, [f t]) <$> l) = f <$> l.
Proof.
  induction l as [|t l IH]; [done|].
  rewrite !fmap_cons. cbn [concat app]. f_equal. exact IH.
Qed.

Lemma concat_nils {A B} (l : list A) : concat ((λ _, @nil B) <$> l) = [].
Proof. induction l as [|t l IH]; [done|]. rewrite fmap_cons. exact IH. Qed.

Section UserWorker.

Variable remote : Z → nat → Request → Reply.
Variable now : Z → nat → string.
Variable te : TestExecutor.
Variable task : WorkerTask.t.

Lemma userCreationStep_adds u t k steps :
  ∃ added,
    userCreationStep remote now te task u t (k, steps) = (S k, steps ++ added) ∧
    omap pairOf added = [(u, t)] ∧ omap launchOf added = [].
Proof.
  unfold userCreationStep.
  destruct (CreateUserWithName_result _ _) as [resp|err].
  - eexists. split; [reflexivity|]. split; reflexivity.
  - destruct (failedUsersWriter te); eexists;
      (split; [reflexivity|]); split; reflexivity.
Qed.

Let e := Execution (config te).
Let tenantStart := ExecutionConfig.TenantStartNumber e.
Let tenants := ExecutionConfig.NoOfTenants e.

Hypothesis Htenants : GoInt.in_range (tenantStart + tenants).
Hypothesis Hend :
  WorkerTask.UserEnd task < WorkerTask.UserStart task ∨
  WorkerTask.UserEnd task < GoInt.maxInt.

Lemma userCreationWorker_view {B} (f : event → option B) (g : Z → Z → list B) :
  (∀ u t k steps, ∃ added,
      userCreationStep remote now te task u t (k, steps) = (S k, steps ++ added) ∧
      omap f added = g u t) →
  ∃ steps,
    userCreationWorker remote now te task = Ok steps ∧
    omap f steps
      = concat ((λ u, concat (g u <$> seqZ tenantStart tenants))
                  <$> indices (WorkerTask.UserStart task, WorkerTask.UserEnd task)).
Proof.
  intros Hstep. unfold userCreationWorker, for_le. fold e. fold tenantStart tenants.
  destruct (decide (_ ∧ _)) as [[H1 H2]|_]; [destruct Hend; lia|].
  rewrite (GoIntFacts.add_exact _ _ Htenants).
  edestruct (for_lt_adds f
               (λ u, concat (g u <$> seqZ tenantStart tenants))
               (WorkerTask.UserStart task) (WorkerTask.UserEnd task + 1))
    as (k' & added & Hrun & Hview); [|rewrite Hrun].
  - intros u Hu k steps.
    edestruct (for_lt_adds f (g u) tenantStart (tenantStart + tenants)
                 (userCreationStep remote now te task u))
      as (k' & added & Hrun & Hview).
    + intros t Ht k0 steps0.
      destruct (Hstep u t k0 steps0) as (added & Hs & Hv). eauto.
    + exists k', added. split; [exact Hrun|].
      rewrite Hview.
      by replace (tenantStart + tenants - tenantStart) with tenants by lia.
  - rewrite result_bind_ok. eexists. split; [reflexivity|].
    cbn [snd app]. rewrite Hview. unfold indices. cbn [fst snd].
    by replace (WorkerTask.UserEnd task + 1 - WorkerTask.UserStart task)
      with (WorkerTask.UserEnd task - WorkerTask.UserStart task + 1) by lia.
Qed.

Lemma userCreationWorker_ok :
  ∃ steps,
    userCreationWorker remote now te task = Ok steps ∧
    omap pairOf steps
      = cross (indices (WorkerTask.UserStart task, WorkerTask.UserEnd task))
              (seqZ tenantStart tenants) ∧
    launches steps = [].
Proof.
  destruct (userCreationWorker_view pairOf (λ u t, [(u, t)])) as (steps & Hrun & Hp).
  { intros u t k steps. destruct (userCreationStep_adds u t k steps)
      as (added & H1 & H2 & _). eauto. }
  destruct (userCreationWorker_view launchOf (λ _ _, [])) as (steps' & Hrun' & Hl).
  { intros u t k steps0. destruct (userCreationStep_adds u t k steps0)
      as (added & H1 & _ & H3). eauto. }
  rewrite Hrun in Hrun'. injection Hrun' as <-.
  exists steps. split; [exact Hrun|]. split.
  - rewrite Hp. unfold cross. f_equal. apply list_fmap_ext. intros _ u _.
    apply (concat_singletons (λ t, (u, t))).
  - unfold launches. rewrite Hl.
    rewrite (list_fmap_ext _ (λ _, []) (indices _)); [apply concat_nils|].
    intros _ u _. apply concat_nils.
Qed.

End UserWorker.

Lemma runWorkers_all {T} (run : T → result (list event))
    (P : T → list event → Prop) tasks :
  (∀ t, t ∈ tasks → ∃ steps, run t = Ok steps ∧ P t steps) →
  ∃ running, runWorkers run tasks = Ok running ∧ Forall2 P tasks running.
Proof.
  induction tasks as [|t tasks IH]; intros Hrun.
  - exists []. split; [done|constructor].
  - destruct (Hrun t ltac:(left)) as (steps & Ht & HP).
    destruct IH as (running & Hw & HF); [intros; apply Hrun; by right|].
    exists (steps :: running). split; [|by constructor].
    cbn [runWorkers]. rewrite Ht, result_bind_ok, Hw. reflexivity.
Qed.

Lemma omap_concat_Forall2 {T B} (f : event → option B) (g : T → list B)
    tasks (running : list (list event)) :
  Forall2 (λ t steps, omap f steps = g t) tasks running →
  omap f (concat running) = concat (g <$> tasks).
Proof.
  induction 1 as [|t steps tasks running Ht _ IH]; [done|].
  rewrite fmap_cons. cbn [concat]. by rewrite omap_app, Ht, IH.
Qed.

Lemma cross_concat (ls : list (list Z)) tenants :
  cross (concat ls) tenants = concat ((λ l, cross l tenants) <$> ls).
Proof.
  unfold cross. induction ls as [|l ls IH]; [done|].
  rewrite fmap_cons. cbn [concat]. by rewrite fmap_app, concat_app, IH.
Qed.


Lemma rampUpDelay_ok c :
  1 ≤ ExecutionConfig.NoOfThreads (Execution c) → ∃ d, rampUpDelay c = Ok d.
Proof.
  intros Hw. unfold rampUpDelay, GoInt.div.
  destruct (decide (_ = 0)); [lia|]. eauto.
Qed.



Lemma sent_launch d ranges : omap sendOf (launch d ranges) = [].
Proof.
  unfold launch. induction ranges as [|[[th lo] hi] ranges IH]; [done|].
  cbn [flat_map]. rewrite omap_app, IH. by destruct (decide (d > 0)).
Qed.

Lemma requests_launch d ranges : omap requestOf (launch d ranges) = [].
Proof.
  unfold launch. induction ranges as [|[[th lo] hi] ranges IH]; [done|].
  cbn [flat_map]. rewrite omap_app, IH. by destruct (decide (d > 0)).
Qed.

Section UserPool.

Variable remote : Z → nat → Request → Reply.
Variable now : Z → nat → string.
Variable schedule : list nat.
Variable drained : nat.
Variable te : TestExecutor.

Let c := config te.
Let e := Execution c.
Let users := ExecutionConfig.NoOfUsers e.
Let workers := ExecutionConfig.NoOfThreads e.
Let tenants := ExecutionConfig.NoOfTenants e.
Let userStart := ExecutionConfig.UserStartNumber e.
Let tenantStart := ExecutionConfig.TenantStartNumber e.

Hypothesis Husers : 0 ≤ users.
Hypothesis Htenants : 0 ≤ tenants.
Hypothesis Hworkers : 1 ≤ workers.
Hypothesis Hint : GoInt.in_range workers.
Hypothesis Hcount : GoInt.in_range users.
Hypothesis Hfrom : GoInt.in_range (userStart - 1).
Hypothesis Hto : GoInt.in_range (userStart + users).
Hypothesis Htto : GoInt.in_range (tenantStart + tenants).
Hypothesis Hresults : GoInt.in_range (users * tenants).

Lemma userTask_end i :
  0 ≤ i < workers → WorkerTask.UserEnd (userTask c i) < GoInt.maxInt.
Proof.
  intros Hi. unfold userTask, nthRange. cbn [WorkerTask.UserEnd snd].
  fold e. fold users workers userStart.
  pose proof (first_bounds userStart users workers Husers Hworkers (i + 1)
                ltac:(lia)).
  int_bounds.
Qed.

Lemma ExecuteUserCreation_run w :
  ∃ te' w' d new,
    ExecuteUserCreation remote now schedule drained te w = (Ok te', w') ∧
    config te' = config te ∧
    rampUpDelay c = Ok d ∧
    trace w' = trace w ++ launch d (range3 <$> (userTask c <$> seqZ 0 workers)) ++ new ∧
    launches new = [] ∧
    omap pairOf new ≡ₚ cross (seqZ userStart users) (seqZ tenantStart tenants) ∧
    sent new = drop (length (sent (trace w))) (sent (trace w')).
Proof.
  destruct (userCreationTasks_partitions c Husers Hworkers Hfrom Hto Hint Hcount)
    as [Htasks (_ & Hcover & _)].
  fold e in Htasks, Hcover. fold workers users userStart in Htasks, Hcover.
  destruct (rampUpDelay_ok c Hworkers) as [d Hd].
  set (tasks := userTask c <$> seqZ 0 workers) in *.
  destruct (runWorkers_all (userCreationWorker remote now te)
              (λ t steps, omap pairOf steps
                            = cross (indices (WorkerTask.UserStart t, WorkerTask.UserEnd t))
                                    (seqZ tenantStart tenants)
                          ∧ launches steps = [])
              tasks)
    as (running & Hrunning & Hall).
  { intros t Ht. apply list_elem_of_fmap in Ht as (i & -> & Hi).
    apply elem_of_seqZ in Hi.
    apply userCreationWorker_ok; [exact Htto|].
    right. apply userTask_end. lia. }
  destruct (performAll_ok (mergeSteps schedule running) te []
              (with_trace w (launch d (range3 <$> tasks))))
    as (te1 & w1 & new & Hperf & Hc1 & Htr & Hview).
  exists (withStats te1 (processResults drained (sent (mergeSteps schedule running))
                           (stats te1))), w1, d, new.
  split.
  { unfold ExecuteUserCreation. fold c. fold e. fold users tenants.
    run_M. rewrite Htasks. cbv beta iota zeta.
    rewrite GoIntFacts.mul_exact by done. unfold makechan.
    destruct (decide (users * tenants < 0)) as [Hneg|_]; [nia|].
    cbv beta iota zeta. rewrite Hd. cbv beta iota zeta. cbn [fst snd].
    rewrite Hrunning. cbv beta iota zeta.
    unfold with_trace in Hperf. unfold range3 in Hperf. rewrite Hperf.
    reflexivity. }
  split; [exact Hc1|]. split; [exact Hd|].
  split; [rewrite Htr; cbn [with_trace trace]; by rewrite app_assoc|].
  assert (Hperm : ∀ B (f : event → option B), silent f →
            omap f new ≡ₚ omap f (concat running)).
  { intros B f Hf. rewrite (Hview B f Hf). apply omap_perm, mergeSteps_perm. }
  split.
  { apply Permutation_nil_r. unfold launches.
    rewrite (Hperm _ launchOf ltac:(by intros ? ?)).
    rewrite (omap_concat_Forall2 launchOf (λ _, []) tasks running).
    - by rewrite concat_nils.
    - eapply Forall2_impl; [exact Hall|]. by intros t steps [_ H]. }
  split.
  { rewrite (Hperm _ pairOf ltac:(by intros ? ?)).
    rewrite (omap_concat_Forall2 pairOf
               (λ t, cross (indices (WorkerTask.UserStart t, WorkerTask.UserEnd t))
                           (seqZ tenantStart tenants)) tasks running).
    - rewrite <- Hcover, cross_concat. unfold ranges_of_tasks.
      rewrite <- !list_fmap_compose. reflexivity.
    - eapply Forall2_impl; [exact Hall|]. by intros t steps [H _]. }
  rewrite Htr. cbn [with_trace trace]. unfold sent.
  rewrite !omap_app, sent_launch, app_nil_r, drop_app_length. reflexivity.
Qed.

End UserPool.




(** ** Launching *)



Lemma pauses_launch_zero ranges : pauses (launch 0 ranges) = [].
Proof.
  unfold pauses, launch. induction ranges as [|[[th lo] hi] ranges IH]; [done|].
  cbn [flat_map]. rewrite omap_app, IH. reflexivity.
Qed.

Lemma goes_launch d ranges : goes (launch d ranges) = ranges.
Proof.
  unfold goes, launch. induction ranges as [|[[th lo] hi] ranges IH]; [done|].
  cbn [flat_map]. rewrite omap_app, IH. by destruct (decide (d > 0)).
Qed.


(** ** The retry pool *)

Lemma tiles_slices {A} (l : list A) ranges : ∀ from to,
  0 ≤ from → tiles from ranges to →
  concat (sliceOf l <$> ranges) = take (Z.to_nat (to - from)) (drop (Z.to_nat from) l).
Proof.
  induction ranges as [|[lo hi] rest IH]; intros from to Hfrom; cbn [tiles].
  - intros ->. by rewrite Z.sub_diag.
  - intros (-> & H1 & H2). pose proof (tiles_le _ _ _ H2).
    rewrite fmap_cons. cbn [concat]. rewrite (IH (hi + 1) to) by (done || lia).
    unfold sliceOf. cbn [fst snd].
    replace (Z.to_nat (hi + 1)) with (Z.to_nat from + Z.to_nat (hi + 1 - from))%nat by lia.
    rewrite <- drop_drop, take_take_drop. f_equal. lia.
Qed.

Lemma length_sent tr : length (sent tr) = length (omap sendMark tr).
Proof.
  unfold sent. induction tr as [|e tr IH]; [done|].
  destruct e; cbn; try exact IH. by rewrite IH.
Qed.

Section RetryWorker.

Variable remote : Z → nat → Request → Reply.
Variable now : Z → nat → string.
Variable te : TestExecutor.
Variable task : RetryWorkerTask.t.
Variable fw : FailedUsersCSVWriter.t.
Hypothesis Hwriter : failedUsersWriter te = Some fw.

Lemma retryStep_adds user k steps :
  ∃ added,
    retryStep remote now te task user (k, steps) = Ok (S k, steps ++ added) ∧
    omap requestOf added
      = [CreateUserWithName_request (RetryWorkerTask.Client task)
           (FailedUser.TenantID user) (FailedUser.Username user)] ∧
    omap launchOf added = [] ∧
    omap sendMark added = [()].
Proof.
  unfold retryStep. rewrite Hwriter.
  destruct (CreateUserWithName_result _ _) as [resp|err];
    eexists; (split; [reflexivity|]); repeat split; reflexivity.
Qed.

Hypothesis Hslice :
  0 ≤ RetryWorkerTask.UserStart task ∧
  RetryWorkerTask.UserStart task ≤ RetryWorkerTask.UserEnd task + 1 ∧
  RetryWorkerTask.UserEnd task + 1
    ≤ Z.of_nat (length (RetryWorkerTask.FailedUsers task)) ∧
  GoInt.in_range (RetryWorkerTask.UserEnd task + 1).

Lemma retryUsersWorkerScalable_view {B} (f : event → option B)
    (g : FailedUser.t → list B) :
  (∀ user k steps, ∃ added,
      retryStep remote now te task user (k, steps) = Ok (S k, steps ++ added) ∧
      omap f added = g user) →
  ∃ steps,
    retryUsersWorkerScalable remote now te task = Ok steps ∧
    omap f steps
      = concat (g <$> sliceOf (RetryWorkerTask.FailedUsers task)
                        (RetryWorkerTask.UserStart task, RetryWorkerTask.UserEnd task)).
Proof.
  intros Hstep. destruct Hslice as (H0 & H1 & H2 & H3).
  unfold retryUsersWorkerScalable, slice.
  rewrite (GoIntFacts.add_exact _ _ H3).
  destruct (decide (_ ∧ _ ∧ _)) as [_|Hn]; [|lia].
  rewrite result_bind_ok.
  edestruct (for_range_adds f g (retryStep remote now te task))
    as (k' & added & Hrun & Hview); [|rewrite Hrun].
  - intros user _ k steps. destruct (Hstep user k steps) as (added & ? & ?). eauto.
  - rewrite result_bind_ok. eexists. split; [reflexivity|].
    cbn [snd app]. exact Hview.
Qed.

Lemma retryUsersWorkerScalable_ok :
  let users := sliceOf (RetryWorkerTask.FailedUsers task)
                 (RetryWorkerTask.UserStart task, RetryWorkerTask.UserEnd task) in
  ∃ steps,
    retryUsersWorkerScalable remote now te task = Ok steps ∧
    requests steps
      = (λ user, CreateUserWithName_request (RetryWorkerTask.Client task)
                   (FailedUser.TenantID user) (FailedUser.Username user)) <$> users ∧
    launches steps = [] ∧
    omap sendMark steps = (λ _, ()) <$> users.
Proof.
  intros users.
  destruct (retryUsersWorkerScalable_view requestOf
              (λ user, [CreateUserWithName_request (RetryWorkerTask.Client task)
                          (FailedUser.TenantID user) (FailedUser.Username user)]))
    as (steps & Hrun & Hreq).
  { intros user k steps. destruct (retryStep_adds user k steps)
      as (added & H1 & H2 & _). eauto. }
  destruct (retryUsersWorkerScalable_view launchOf (λ _, []))
    as (steps1 & Hrun1 & Hl).
  { intros user k steps0. destruct (retryStep_adds user k steps0)
      as (added & H1 & _ & H3 & _). eauto. }
  destruct (retryUsersWorkerScalable_view sendMark (λ _, [()]))
    as (steps2 & Hrun2 & Hs).
  { intros user k steps0. destruct (retryStep_adds user k steps0)
      as (added & H1 & _ & _ & H4). eauto. }
  rewrite Hrun in Hrun1, Hrun2. injection Hrun1 as <-. injection Hrun2 as <-.
  exists steps. split; [exact Hrun|]. split; [|split].
  - unfold requests. rewrite Hreq. apply concat_singletons.
  - unfold launches. rewrite Hl. apply concat_nils.
  - rewrite Hs. apply (concat_singletons (λ _, ())).
Qed.

End RetryWorker.

Lemma parseLedger_nonempty raw fus :
  parseLedger raw = Ok fus → fus ≠ [] → ∃ r rs, raw = r :: rs.
Proof.
  intros Hp Hne. destruct raw as [|r rs]; [|eauto].
  cbn in Hp. injection Hp as <-. done.
Qed.

Lemma FailedUsersCSVWriter_Close_run path w :
  FailedUsersCSVWriter_Close (ledgerWriter path) w
    = (Ok (), with_trace w [EvClose path]).
Proof. reflexivity. Qed.

Lemma concat_fmap_fmap {A B T} (h : A → B) (s : T → list A) (l : list T) :
  concat ((λ t, h <$> s t) <$> l) = h <$> concat (s <$> l).
Proof.
  induction l as [|t l IH]; [done|].
  rewrite !fmap_cons. cbn [concat]. by rewrite fmap_app, IH.
Qed.

Section RetryPool.

Variable remote : Z → nat → Request → Reply.
Variable now : Z → nat → string.
Variable schedule : list nat.
Variable drained : nat.
Variable te : TestExecutor.
Variable w : World.
Variable raw : list (list string).
Variable failedUsers : list FailedUser.t.

Let c := config te.
Let e := Execution c.
Let path := ExecutionConfig.FailedUsersCsvPath e.
Let workers := ExecutionConfig.NoOfThreads e.
Let total := Z.of_nat (length failedUsers).

Hypothesis Hfile : files w !! path = Some raw.
Hypothesis Hparse : parseLedger raw = Ok failedUsers.
Hypothesis Hsome : failedUsers ≠ [].
Hypothesis Hworkers : 1 ≤ workers.
Hypothesis Hint : GoInt.in_range workers.
Hypothesis Hcount : GoInt.in_range total.

Let te1 : TestExecutor :=
  {| config := config te; csvWriter := csvWriter te;
     failedUsersWriter := Some (ledgerWriter path); stats := stats te |}.

Let tasks := retryTask c failedUsers <$> seqZ 0 (Z.min workers total).

Lemma retryTask_slice i :
  0 ≤ i < Z.min workers total →
  let t := retryTask c failedUsers i in
  0 ≤ RetryWorkerTask.UserStart t ∧
  RetryWorkerTask.UserStart t ≤ RetryWorkerTask.UserEnd t + 1 ∧
  RetryWorkerTask.UserEnd t + 1 ≤ Z.of_nat (length (RetryWorkerTask.FailedUsers t)) ∧
  GoInt.in_range (RetryWorkerTask.UserEnd t + 1).
Proof.
  intros Hi t. subst t. unfold retryTask, nthRange.
  cbn [RetryWorkerTask.UserStart RetryWorkerTask.UserEnd
       RetryWorkerTask.FailedUsers fst snd].
  fold c e workers total.
  assert (Ht : 0 ≤ total) by (subst total; lia).
  pose proof (first_bounds 0 total workers Ht Hworkers i ltac:(lia)).
  pose proof (first_bounds 0 total workers Ht Hworkers (i + 1) ltac:(lia)).
  pose proof (first_succ 0 total workers i ltac:(lia)) as Hs.
  pose proof (share_nonneg total workers Ht Hworkers i).
  rewrite Hs in *.
  repeat split; try lia; int_bounds.
Qed.

Lemma ExecuteRetryFailed_run :
  ∃ te' w' d new report,
    ExecuteRetryFailed remote now schedule drained te w = (Ok te', w') ∧
    rampUpDelay c = Ok d ∧
    trace w' = trace w
                 ++ [EvOpenAppend path; EvOpenRead path; EvClose path]
                 ++ launch d (retryRange3 <$> tasks)
                 ++ new ++ [EvPrintStats report; EvClose path] ∧
    launches new = [] ∧
    requests new ≡ₚ retryRequest c <$> failedUsers ∧
    length (sent new) = length failedUsers.
Proof.
  assert (Ht : 0 ≤ total) by (subst total; lia).
  destruct (parseLedger_nonempty raw failedUsers Hparse Hsome) as (r0 & rs & Hraw).
  destruct (retryTasks_partitions c failedUsers Hworkers Hint Hcount)
    as [Htasks (Htiles & _)].
  fold e workers total in Htasks, Htiles. fold tasks in Htasks, Htiles.
  destruct (rampUpDelay_ok c Hworkers) as [d Hd].
  destruct (runWorkers_all (retryUsersWorkerScalable remote now te1)
              (λ t steps,
                 requests steps
                   = retryRequest c <$> sliceOf failedUsers
                       (RetryWorkerTask.UserStart t, RetryWorkerTask.UserEnd t) ∧
                 launches steps = [] ∧
                 omap sendMark steps
                   = (λ _, ()) <$> sliceOf failedUsers
                       (RetryWorkerTask.UserStart t, RetryWorkerTask.UserEnd t))
              tasks)
    as (running & Hrunning & Hall).
  { intros t Hin. apply list_elem_of_fmap in Hin as (i & -> & Hi).
    apply elem_of_seqZ in Hi.
    apply (retryUsersWorkerScalable_ok remote now te1 (retryTask c failedUsers i)
             (ledgerWriter path) eq_refl (retryTask_slice i ltac:(lia))). }
  set (w1 := with_trace
               (with_trace w [EvOpenAppend path; EvOpenRead path; EvClose path])
               (launch d (retryRange3 <$> tasks))).
  destruct (performAll_ok (mergeSteps schedule running) te1 [] w1)
    as (te2 & w2 & new & Hperf & Hc2 & Htr & Hview).
  set (te3 := withStats te2 (processResults drained
                (sent (mergeSteps schedule running)) (stats te2))).
  exists te3, (with_trace w2 [EvPrintStats (PrintStats (stats te3)); EvClose path]),
    d, new, (PrintStats (stats te3)).
  assert (H1 : NewFailedUsersCSVWriterAppend path w
               = (Ok (ledgerWriter path), with_trace w [EvOpenAppend path])).
  { rewrite NewFailedUsersCSVWriterAppend_run, Hfile, Hraw. reflexivity. }
  assert (H2 : readFailedUsersFromCSV te1 (with_trace w [EvOpenAppend path])
               = (Ok failedUsers,
                  with_trace w [EvOpenAppend path; EvOpenRead path; EvClose path])).
  { rewrite (readFailedUsersFromCSV_run te1 _ raw) by exact Hfile.
    rewrite Hparse, with_trace_app. reflexivity. }
  split.
  { unfold ExecuteRetryFailed. run_M.
    change (ExecutionConfig.FailedUsersCsvPath (Execution (config te))) with path.
    rewrite H1. cbv beta iota zeta.
    change {| config := config te; csvWriter := csvWriter te;
              failedUsersWriter := Some (ledgerWriter path); stats := stats te |}
      with te1.
    rewrite H2. cbv beta iota zeta.
    destruct (decide (length failedUsers = 0%nat)) as [Hz|_].
    { destruct failedUsers; [done|discriminate]. }
    change (config te1) with c. rewrite Htasks. cbv beta iota zeta.
    unfold makechan. destruct (decide (Z.of_nat (length failedUsers) < 0)); [lia|].
    cbv beta iota zeta. rewrite Hd. cbv beta iota zeta. cbn [fst snd trace files].
    rewrite Hrunning. cbv beta iota zeta.
    unfold w1, retryRange3 in Hperf. unfold with_trace at 1 in Hperf.
    rewrite Hperf. cbv beta iota zeta. cbn [fst snd app].
    rewrite FailedUsersCSVWriter_Close_run.
    unfold with_trace. cbn [snd files trace]. rewrite <- !app_assoc. reflexivity. }
  split; [exact Hd|].
  split.
  { unfold with_trace at 1. cbn [trace]. rewrite Htr. unfold w1, with_trace.
    cbn [trace]. rewrite <- !app_assoc. reflexivity. }
  assert (Hperm : ∀ B (f : event → option B), silent f →
            omap f new ≡ₚ omap f (concat running)).
  { intros B f Hf. rewrite (Hview B f Hf). apply omap_perm, mergeSteps_perm. }
  assert (Hslices : concat ((λ t, sliceOf failedUsers
                               (RetryWorkerTask.UserStart t, RetryWorkerTask.UserEnd t))
                             <$> tasks) = failedUsers).
  { pose proof (tiles_slices failedUsers _ 0 (0 + total) ltac:(lia) Htiles) as Hs.
    unfold ranges_of_retryTasks in Hs. rewrite <- list_fmap_compose in Hs.
    etrans; [exact Hs|]. rewrite drop_0, firstn_all2; [done|]. subst total. lia. }
  split; [|split].
  - apply Permutation_nil_r. unfold launches.
    rewrite (Hperm _ launchOf ltac:(by intros ? ?)).
    rewrite (omap_concat_Forall2 launchOf (λ _, []) tasks running).
    + by rewrite concat_nils.
    + eapply Forall2_impl; [exact Hall|]. by intros t steps (_ & H & _).
  - unfold requests. rewrite (Hperm _ requestOf ltac:(by intros ? ?)).
    rewrite (omap_concat_Forall2 requestOf
               (λ t, retryRequest c <$> sliceOf failedUsers
                       (RetryWorkerTask.UserStart t, RetryWorkerTask.UserEnd t))
               tasks running).
    + by rewrite concat_fmap_fmap, Hslices.
    + eapply Forall2_impl; [exact Hall|]. by intros t steps (H & _).
  - rewrite length_sent.
    rewrite (Permutation_length (Hperm _ sendMark ltac:(by intros ? ?))).
    rewrite (omap_concat_Forall2 sendMark
               (λ t, (λ _, ()) <$> sliceOf failedUsers
                       (RetryWorkerTask.UserStart t, RetryWorkerTask.UserEnd t))
               tasks running).
    + by rewrite concat_fmap_fmap, Hslices, length_fmap.
    + eapply Forall2_impl; [exact Hall|]. by intros t steps (_ & _ & H).
Qed.

End RetryPool.

Lemma goes_launches tr : goes tr = goes (launches tr).
Proof.
  unfold goes, launches. induction tr as [|e tr IH]; [done|].
  destruct e; cbn; try exact IH; by rewrite IH.
Qed.

Lemma pauses_launches tr : pauses tr = pauses (launches tr).
Proof.
  unfold pauses, launches. induction tr as [|e tr IH]; [done|].
  destruct e; cbn; try exact IH; by rewrite IH.
Qed.


(** ** C5: workers and empty ranges *)

Lemma nthRange_nonempty from total workers i :
  0 ≤ total → 1 ≤ workers → 0 ≤ i < Z.min workers total →
  (nthRange from total workers i).1 ≤ (nthRange from total workers i).2.
Proof.
  intros Ht Hw Hi. unfold nthRange. cbn [fst snd].
  rewrite first_succ by lia.
  destruct (share_pos_iff total workers Ht Hw i ltac:(lia)) as [_ Hpos].
  specialize (Hpos ltac:(lia)). lia.
Qed.

(** The role-creation phase starts workers on ranges that hold an index. *)
Lemma roleCreationTasks_nonempty c started :
  let e := Execution c in
  0 ≤ ExecutionConfig.NoOfTenants e → 1 ≤ ExecutionConfig.NoOfThreads e →
  GoInt.in_range (ExecutionConfig.TenantStartNumber e - 1) →
  GoInt.in_range (ExecutionConfig.TenantStartNumber e + ExecutionConfig.NoOfTenants e) →
  GoInt.in_range (ExecutionConfig.NoOfThreads e) →
  GoInt.in_range (ExecutionConfig.NoOfTenants e) →
  roleCreationTasks c = Ok started →
  ∀ r, r ∈ ranges_of_roleTasks started → r.1 ≤ r.2.
Proof.
  intros e Ht Hw Hf Hto Hi Hc Hrun r Hr.
  rewrite (roleCreationTasks_closed c Ht Hw Hf Hto Hi Hc) in Hrun.
  injection Hrun as <-. unfold ranges_of_roleTasks in Hr.
  rewrite <- list_fmap_compose in Hr.
  apply list_elem_of_fmap in Hr as (i & -> & Hin). apply elem_of_seqZ in Hin.
  apply (nthRange_nonempty _ _ _ i Ht Hw). subst e. lia.
Qed.

(** So does the retry phase. *)
Lemma retryTasks_nonempty c failedUsers tasks :
  let workers := ExecutionConfig.NoOfThreads (Execution c) in
  1 ≤ workers → GoInt.in_range workers →
  GoInt.in_range (Z.of_nat (length failedUsers)) →
  retryTasks c failedUsers = Ok tasks →
  ∀ r, r ∈ ranges_of_retryTasks tasks → r.1 ≤ r.2.
Proof.
  intros workers Hw Hi Hc Hrun r Hr.
  rewrite (retryTasks_closed c failedUsers Hw Hi Hc) in Hrun.
  injection Hrun as <-. unfold ranges_of_retryTasks in Hr.
  rewrite <- list_fmap_compose in Hr.
  apply list_elem_of_fmap in Hr as (i & -> & Hin). apply elem_of_seqZ in Hin.
  apply (nthRange_nonempty 0 _ _ i); [lia|done|lia].
Qed.

(** C5 fails in the user-creation phase: with one user and two threads,
    [ExecuteUserCreation] starts a worker for thread 1 on the range from 2
    to 1, which holds no index (role creation and retry skip such a
    thread). *)
Theorem C5_user_creation_starts_worker_on_empty_range
    (remote : Z → nat → Request → Reply) (now : Z → nat → string)
    (schedule : list nat) (drained : nat) :
  ∃ te' w',
    ExecuteUserCreation remote now schedule drained oneUserTwoThreads emptyWorld
      = (Ok te', w') ∧
    goes (trace w') = [(0, 1, 1); (1, 2, 1)] ∧
    EvGo 1 2 1 ∈ trace w'.
Proof.
  set (te := oneUserTwoThreads).
  assert (Hr : ∀ z, -100 ≤ z ≤ 100 → GoInt.in_range z) by (intros; int_bounds).
  destruct (ExecuteUserCreation_run remote now schedule drained te)
    with (w := emptyWorld)
    as (te' & w' & d & new & Hrun & _ & Hd & Htr & Hl & _);
    try (apply Hr; cbn; lia); try (cbn; lia).
  exists te', w'. split; [exact Hrun|].
  assert (Hd0 : d = 0) by (vm_compute in Hd; congruence). subst d.
  change (launch 0 (range3 <$> (userTask (config te) <$>
            seqZ 0 (ExecutionConfig.NoOfThreads (Execution (config te))))))
    with [EvGo 0 1 1; EvGo 1 2 1] in Htr.
  rewrite Htr. cbn [trace emptyWorld app]. split.
  - change (EvGo 0 1 1 :: EvGo 1 2 1 :: new) with ([EvGo 0 1 1; EvGo 1 2 1] ++ new).
    unfold goes at 1. rewrite omap_app. fold (goes new).
    rewrite (goes_launches new), Hl. reflexivity.
  - right. left.
Qed.

(** ** C6: the retry attempts *)

(** C6: every record read from the ledger is retried with a request whose
    user name is the [Username] field of the record, as stored; the
    requests of a retry run are those of the records, each once.  (The
    ledger exists and is readable, it holds at least one record, and there
    is at least one thread.) *)
Theorem C6_retry_uses_stored_username
    (remote : Z → nat → Request → Reply) (now : Z → nat → string)
    (schedule : list nat) (drained : nat) (te : TestExecutor) (w : World)
    (raw : list (list string)) (failedUsers : list FailedUser.t) :
  let c := config te in
  let path := ExecutionConfig.FailedUsersCsvPath (Execution c) in
  let workerCount := ExecutionConfig.NoOfThreads (Execution c) in
  files w !! path = Some raw →
  parseLedger raw = Ok failedUsers →
  failedUsers ≠ [] →
  1 ≤ workerCount → GoInt.in_range workerCount →
  GoInt.in_range (Z.of_nat (length failedUsers)) →
  ∃ te' w' attempts,
    ExecuteRetryFailed remote now schedule drained te w = (Ok te', w') ∧
    requests (trace w') = requests (trace w) ++ attempts ∧
    attempts ≡ₚ retryRequest c <$> failedUsers ∧
    omap requestedName attempts ≡ₚ FailedUser.Username <$> failedUsers ∧
    ∀ user, requestedName (retryRequest c user) = Some (FailedUser.Username user).
Proof.
  intros c path workerCount Hfile Hparse Hsome Hw Hi Hc.
  destruct (ExecuteRetryFailed_run remote now schedule drained te w raw failedUsers
              Hfile Hparse Hsome Hw Hi Hc)
    as (te' & w' & d & new & report & Hrun & _ & Htr & _ & Hreq & _).
  exists te', w', (requests new). split; [exact Hrun|].
  split; [|split; [exact Hreq|split; [|reflexivity]]].
  - rewrite Htr. unfold requests. rewrite !omap_app, requests_launch. cbn.
    by rewrite app_nil_r.
  - rewrite (omap_perm requestedName _ _ Hreq).
    clear. induction failedUsers as [|u l IH]; [done|].
    rewrite !fmap_cons. cbn. by rewrite IH.
Qed.

(** C6 for a ledger with the records of [isTestUser_5] and [bob]. *)
Lemma C6_retry_uses_stored_username_witness :
  ∃ te' w' attempts,
    ExecuteRetryFailed remoteDown clockFixed [] 0 (executorOf retryConfig None)
      (ledgerWorld retryConfig (ledgerHeader :: (ledgerRecord <$> namedFailures)))
      = (Ok te', w') ∧
    requests (trace w')
      = requests (trace (ledgerWorld retryConfig
                           (ledgerHeader :: (ledgerRecord <$> namedFailures))))
          ++ attempts ∧
    attempts ≡ₚ retryRequest retryConfig <$> namedFailures ∧
    omap requestedName attempts ≡ₚ ["isTestUser_5"; "bob"] ∧
    ∀ user, requestedName (retryRequest retryConfig user)
            = Some (FailedUser.Username user).
Proof.
  apply (C6_retry_uses_stored_username remoteDown clockFixed [] 0
           (executorOf retryConfig None)
           (ledgerWorld retryConfig (ledgerHeader :: (ledgerRecord <$> namedFailures)))
           (ledgerHeader :: (ledgerRecord <$> namedFailures)) namedFailures).
  - reflexivity.
  - reflexivity.
  - discriminate.
  - cbn; lia.
  - cbn; unfold GoInt.in_range, GoInt.minInt, GoInt.maxInt; lia.
  - cbn; unfold GoInt.in_range, GoInt.minInt, GoInt.maxInt; lia.
Defined.

(** A record named [isTestUser_5] is retried under that name even when the
    configured prefix would give index 5 another name. *)
Example retry_isTestUser_5 :
  requestedName (retryRequest otherPrefixConfig (sampleFailedUser 3 "isTestUser_5"))
    = Some "isTestUser_5" ∧
  GetTestUsername otherPrefixConfig 5 = "other_5".
Proof. split; reflexivity. Qed.

(** ** C8: the ramp-up *)





(** ** C4: retry on a ledger without records *)

Section RetryEmpty.

Variable remote : Z → nat → Request → Reply.
Variable now : Z → nat → string.
Variable schedule : list nat.
Variable drained : nat.
Variable te : TestExecutor.
Variable w : World.

Let path := ExecutionConfig.FailedUsersCsvPath (Execution (config te)).
Let raw := default [] (files w !! path).

Hypothesis Hparse : parseLedger raw = Ok [].

Let te1 : TestExecutor :=
  {| config := config te; csvWriter := csvWriter te;
     failedUsersWriter := Some (ledgerWriter path); stats := stats te |}.

Lemma ExecuteRetryFailed_empty :
  ExecuteRetryFailed remote now schedule drained te w =
    (Ok te1,
     match files w !! path with
     | Some (r :: rs) =>
         with_trace w [EvOpenAppend path; EvOpenRead path; EvClose path;
                       EvPrintln "No failed users found to retry."; EvClose path]
     | _ =>
         with_file w path [ledgerHeader]
           [EvOpenAppend path; EvFileWrite path [ledgerHeader];
            EvOpenRead path; EvClose path;
            EvPrintln "No failed users found to retry."; EvClose path]
     end).
Proof.
  assert (Hread : ∀ w0 raw0,
    files w0 !! path = Some raw0 → parseLedger raw0 = Ok [] →
    readFailedUsersFromCSV te1 w0
      = (Ok [], with_trace w0 [EvOpenRead path; EvClose path])).
  { intros w0 raw0 Hf Hp.
    rewrite (readFailedUsersFromCSV_run te1 w0 raw0) by exact Hf.
    by rewrite Hp. }
  unfold ExecuteRetryFailed. run_M.
  change (ExecutionConfig.FailedUsersCsvPath (Execution (config te))) with path.
  rewrite NewFailedUsersCSVWriterAppend_run. cbv beta iota zeta.
  change {| config := config te; csvWriter := csvWriter te;
            failedUsersWriter := Some (ledgerWriter path); stats := stats te |}
    with te1.
  subst raw.
  destruct (files w !! path) as [[|r rs]|] eqn:Hf; cbn [default] in Hparse.
  - rewrite (Hread _ [ledgerHeader]);
      [|unfold with_file; cbn [files]; by rewrite lookup_insert_eq|reflexivity].
    cbv beta iota zeta. cbn [length].
    destruct (decide (0%nat = 0%nat)) as [_|Hn]; [|done].
    cbv beta iota zeta. cbn [files trace].
    rewrite FailedUsersCSVWriter_Close_run.
    unfold with_file, with_trace. cbn [snd files trace].
    rewrite <- !app_assoc. reflexivity.
  - rewrite (Hread _ (r :: rs));
      [|unfold with_trace; cbn [files]; exact Hf|exact Hparse].
    cbv beta iota zeta. cbn [length].
    destruct (decide (0%nat = 0%nat)) as [_|Hn]; [|done].
    cbv beta iota zeta. cbn [files trace].
    rewrite FailedUsersCSVWriter_Close_run.
    unfold with_trace. cbn [snd files trace].
    rewrite <- !app_assoc. reflexivity.
  - rewrite (Hread _ [ledgerHeader]);
      [|unfold with_file; cbn [files]; by rewrite lookup_insert_eq|reflexivity].
    cbv beta iota zeta. cbn [length].
    destruct (decide (0%nat = 0%nat)) as [_|Hn]; [|done].
    cbv beta iota zeta. cbn [files trace].
    rewrite FailedUsersCSVWriter_Close_run.
    unfold with_file, with_trace. cbn [snd files trace].
    rewrite <- !app_assoc. reflexivity.
Qed.

End RetryEmpty.

(** C4 as stated fails.  On a ledger that holds the header row and no
    record, the retry entry point opens the ledger for appending before it
    reads it; on a ledger that is an empty file it also writes the header
    row into it. *)
Lemma C4_retry_opens_ledger_for_writing :
  (parseLedger [ledgerHeader] = Ok [] ∧
   is_ok (retryOn [ledgerHeader]).1 ∧
   EvOpenAppend "failedUsers.csv" ∈ trace (retryOn [ledgerHeader]).2) ∧
  (parseLedger [] = Ok [] ∧
   is_ok (retryOn []).1 ∧
   EvOpenAppend "failedUsers.csv" ∈ trace (retryOn []).2 ∧
   EvFileWrite "failedUsers.csv" [ledgerHeader] ∈ trace (retryOn []).2 ∧
   files (ledgerWorld retryConfig []) !! "failedUsers.csv" = Some [] ∧
   files (retryOn []).2 !! "failedUsers.csv" = Some [ledgerHeader]).
Proof.
  unfold retryOn. split.
  - rewrite ExecuteRetryFailed_empty by reflexivity.
    split; [reflexivity|]. split; [by eexists|]. cbn. left.
  - rewrite ExecuteRetryFailed_empty by reflexivity.
    split; [reflexivity|]. split; [by eexists|]. cbn.
    split; [left|]. split; [right; left|]. split; reflexivity.
Qed.

(** C4, amended: when the reader finds no record in the ledger, the retry
    entry point returns at once without error: it sends no request, starts
    no worker, puts no result on the channel, leaves the counters as they
    were and prints no statistics report, only the line saying that there
    is nothing to retry.  It does open the ledger for appending first
    (creating it when absent), and writes the header row into it exactly
    when the file was empty or absent; it writes no other record and
    touches no other file. *)
Theorem C4_retry_without_records
    (remote : Z → nat → Request → Reply) (now : Z → nat → string)
    (schedule : list nat) (drained : nat) (te : TestExecutor) (w : World) :
  let path := ExecutionConfig.FailedUsersCsvPath (Execution (config te)) in
  let raw := default [] (files w !! path) in
  parseLedger raw = Ok [] →
  ∃ te' w' new,
    ExecuteRetryFailed remote now schedule drained te w = (Ok te', w') ∧
    trace w' = trace w ++ new ∧
    stats te' = stats te ∧
    requests new = [] ∧ goes new = [] ∧ sent new = [] ∧
    omap reportOf new = [] ∧
    EvPrintln "No failed users found to retry." ∈ new ∧
    EvOpenAppend path ∈ new ∧
    omap fileWriteOf new = (if raw is [] then [(path, [ledgerHeader])] else []) ∧
    files w' !! path = Some (if raw is [] then [ledgerHeader] else raw) ∧
    ∀ other, other ≠ path → files w' !! other = files w !! other.
Proof.
  intros path raw Hparse.
  rewrite (ExecuteRetryFailed_empty remote now schedule drained te w Hparse).
  fold path. subst raw.
  destruct (files w !! path) as [[|r rs]|] eqn:Hf; cbn [default];
    eexists _, _, _; (split; [reflexivity|]); (split; [reflexivity|]);
    (split; [reflexivity|]); cbn [requests goes sent omap list_omap requestOf
      sendOf reportOf fileWriteOf];
    repeat (split; [first [reflexivity | by repeat constructor]|]);
    unfold with_file, with_trace; cbn [files]; rewrite ?lookup_insert_eq;
    try (split; [first [reflexivity | exact Hf]|]);
    intros other Hne; rewrite ?lookup_insert_ne by done; reflexivity.
Qed.

(** C4 on a ledger that holds the header row only. *)
Lemma C4_retry_without_records_witness :
  ∃ te' w' new,
    ExecuteRetryFailed remoteDown clockFixed [] 0 (executorOf retryConfig None)
      (ledgerWorld retryConfig [ledgerHeader]) = (Ok te', w') ∧
    trace w' = trace (ledgerWorld retryConfig [ledgerHeader]) ++ new ∧
    stats te' = NewTestStats ∧
    requests new = [] ∧ goes new = [] ∧ sent new = [] ∧
    omap reportOf new = [] ∧
    omap fileWriteOf new = [] ∧
    files w' !! "failedUsers.csv" = Some [ledgerHeader].
Proof.
  destruct (C4_retry_without_records remoteDown clockFixed [] 0
              (executorOf retryConfig None) (ledgerWorld retryConfig [ledgerHeader]))
    as (te' & w' & new & H1 & H2 & H3 & H4 & H5 & H6 & H7 & _ & _ & H10 & H11 & _);
    [reflexivity|].
  exists te', w', new. repeat split; assumption.
Defined.

(** C3 at three calls: one role created, one user failed, one user created. *)
Lemma C3_stats_invariant_witness :
  Z.of_nat (length threeCalls) ≤ GoInt.maxInt ∧
  balanced (foldl observe NewTestStats threeCalls) ∧
  TotalRoles (foldl observe NewTestStats threeCalls)
    = SuccessRoles (foldl observe NewTestStats threeCalls)
      + FailedRoles (foldl observe NewTestStats threeCalls) ∧
  TotalUsers (foldl observe NewTestStats threeCalls)
    = SuccessUsers (foldl observe NewTestStats threeCalls)
      + FailedUsers (foldl observe NewTestStats threeCalls) ∧
  TotalRoles (foldl observe NewTestStats threeCalls)
    + TotalUsers (foldl observe NewTestStats threeCalls) = 3.
Proof.
  set (calls := threeCalls).
  assert (Hlen : Z.of_nat (length calls) ≤ GoInt.maxInt)
    by (cbn; unfold GoInt.maxInt; lia).
  destruct (C3_stats_invariant calls) as (Hb & _ & _ & Hexact).
  destruct (Hexact Hlen) as (H1 & H2 & _ & _ & _ & _ & H7).
  split; [exact Hlen|]. split; [exact Hb|]. split; [exact H1|].
  split; [exact H2|exact H7].
Defined.


(** The remainder goes to the first threads: ten users over three threads. *)
Example userCreationTasks_10_3 :
  (tasks ← userCreationTasks (sampleConfig 3 10 5 10 1 1);
   mret (ranges_of_tasks tasks))
    = Ok [(1, 4); (5, 7); (8, 10)].
Proof. vm_compute. reflexivity. Qed.

(** * Further properties of the program *)

(** ** What the steps of the workers do to the shared objects *)

Lemma withStats_id te : withStats te (stats te) = te.
Proof. by destruct te. Qed.

Lemma withLedger_id te path :
  failedUsersWriter te = Some (ledgerWriter path) → withLedger te path (stats te) = te.
Proof. destruct te. cbn. by intros ->. Qed.

Lemma perform_ledger path step te channel w old :
  failedUsersWriter te = Some (ledgerWriter path) →
  files w !! path = Some old →
  perform step (te, channel) w =
    (Ok (withLedger te path (countRoles (stats te) (omap roleCallOf [step])),
         channel ++ sent [step]),
     {| files := <[path := old ++ omap ledgerRowOf [step]]> (files w);
        trace := trace w ++ effects path step |}).
Proof.
  intros Hfw Hold. unfold perform, effects, withLedger.
  assert (Hid : <[path := old ++ []]> (files w) = files w)
    by (rewrite app_nil_r; by apply insert_id).
  destruct te as [c cw fw st]. cbn [failedUsersWriter] in Hfw. subst fw.
  cbn [config csvWriter failedUsersWriter stats].
  destruct step; run_M; cbn [omap list_omap ledgerRowOf roleCallOf sent sendOf
    countRoles foldl]; rewrite ?Hid, ?app_nil_r; try reflexivity.
  rewrite WriteFailedUser_run. cbv zeta. unfold with_file.
  cbn [files trace]. rewrite Hold. cbn [default].
  rewrite <- app_assoc. reflexivity.
Qed.

Lemma performAll_ledger path steps : ∀ te channel w old,
  failedUsersWriter te = Some (ledgerWriter path) →
  files w !! path = Some old →
  performAll steps (te, channel) w =
    (Ok (withLedger te path (countRoles (stats te) (omap roleCallOf steps)),
         channel ++ sent steps),
     {| files := <[path := old ++ omap ledgerRowOf steps]> (files w);
        trace := trace w ++ flat_map (effects path) steps |}).
Proof.
  induction steps as [|step steps IH]; intros te channel w old Hfw Hold.
  - cbn. rewrite !app_nil_r, insert_id by done.
    rewrite (withLedger_id te path Hfw). by destruct w.
  - cbn [performAll]. rewrite M_bind_run, (perform_ledger path step te channel w old Hfw Hold).
    rewrite (IH _ _ _ (old ++ omap ledgerRowOf [step])); [|reflexivity|].
    + cbn [files trace withLedger config csvWriter stats].
      rewrite insert_insert_eq, <- !app_assoc.
      change (step :: steps) with ([step] ++ steps).
      unfold sent, countRoles. rewrite !omap_app, foldl_app.
      cbn [flat_map]. reflexivity.
    + cbn [files]. by rewrite lookup_insert_eq.
Qed.

(** Without ledger steps, or without a ledger writer, no file is touched. *)
Lemma performAll_quiet steps : ∀ te channel w,
  failedUsersWriter te = None ∨ omap ledgerRowOf steps = [] →
  performAll steps (te, channel) w =
    (Ok (withStats te (countRoles (stats te) (omap roleCallOf steps)),
         channel ++ sent steps),
     with_trace w steps).
Proof.
  induction steps as [|step steps IH]; intros te channel w Hq.
  - cbn. by rewrite app_nil_r, withStats_id, with_trace_nil.
  - assert (Hstep : perform step (te, channel) w =
              (Ok (withStats te (countRoles (stats te) (omap roleCallOf [step])),
                   channel ++ sent [step]),
               with_trace w [step])).
    { unfold perform, with_trace, withStats. destruct te as [c cw fw st].
      cbn [config csvWriter failedUsersWriter stats] in *.
      destruct step; run_M; cbn [omap list_omap roleCallOf sent sendOf countRoles foldl];
        rewrite ?app_nil_r; try reflexivity.
      destruct Hq as [->|Hq]; [reflexivity|discriminate]. }
    cbn [performAll]. rewrite M_bind_run, Hstep. rewrite IH.
    + rewrite with_trace_app, <- app_assoc.
      change (step :: steps) with ([step] ++ steps).
      unfold sent, countRoles. rewrite !omap_app, foldl_app. reflexivity.
    + destruct Hq as [Hq|Hq]; [by left|right].
      change (step :: steps) with ([step] ++ steps) in Hq.
      rewrite omap_app in Hq. by apply app_eq_nil in Hq as [_ ?].
Qed.

(** ** Invariants of the loops of the workers *)

Lemma for_lt_steps_inv (P : list event → Prop) lo hi
    (body : Z → nat * list event → nat * list event) s :
  P s.2 →
  (∀ i k steps, lo ≤ i < hi → P steps → P (body i (k, steps)).2) →
  P (for_lt lo hi body s).2.
Proof.
  intros H0 Hstep. destruct (decide (lo ≤ hi)) as [Hle|Hgt].
  - apply (for_lt_ind (λ _ st, P st.2) lo hi body s Hle H0).
    intros i [k steps] Hi HP. by apply Hstep.
  - by rewrite for_lt_nil by lia.
Qed.

Lemma for_range_steps_inv {A} (P : list event → Prop) (l : list A)
    (body : A → nat * list event → result (nat * list event)) :
  (∀ x k steps s', x ∈ l → P steps → body x (k, steps) = Ok s' → P s'.2) →
  ∀ s s', P s.2 → for_range l body s = Ok s' → P s'.2.
Proof.
  induction l as [|x l IH]; intros Hstep s s' H0 Hrun.
  - cbn in Hrun. by injection Hrun as <-.
  - cbn [for_range] in Hrun.
    destruct (body x s) as [s1| | |] eqn:Hx; try discriminate.
    rewrite result_bind_ok in Hrun.
    apply (IH (λ y k steps s2 Hy, Hstep y k steps s2 ltac:(by right)) s1 s'); [|done].
    destruct s as [k steps]. eapply Hstep; [by left|exact H0|exact Hx].
Qed.

(** ** The role-creation pool *)

Lemma roleCreationWorker_unfold remote threadID lo hi client :
  roleCreationWorker remote threadID lo hi client
    = (s ← for_le lo hi (roleCreationStep remote threadID client) (0%nat, []);
       mret s.2).
Proof. reflexivity. Qed.

Lemma roleCreationStep_adds remote threadID client i k steps :
  ∃ added,
    roleCreationStep remote threadID client i (k, steps) = (S k, steps ++ added) ∧
    omap requestOf added = [CreateRole_request client i] ∧
    omap launchOf added = [] ∧
    omap sendOf added = [] ∧
    omap ledgerRowOf added = [] ∧
    omap roleMark added = [()] ∧
    omap pauseMark added = omap successMark added ∧
    Forall rolePause added.
Proof.
  unfold roleCreationStep.
  destruct (CreateRole_result _) as [err|]; eexists; (split; [reflexivity|]).
  - repeat split; try reflexivity. repeat constructor.
  - repeat split; try reflexivity. repeat constructor.
Qed.

Section RoleWorker.

Variable remote : Z → nat → Request → Reply.
Variables threadID lo hi : Z.
Variable client : HTTPClient.t.
Hypothesis Hend : hi < lo ∨ hi < GoInt.maxInt.

Lemma roleCreationWorker_view {B} (f : event → option B) (g : Z → list B) :
  (∀ i k steps, ∃ added,
      roleCreationStep remote threadID client i (k, steps) = (S k, steps ++ added) ∧
      omap f added = g i) →
  ∃ steps,
    roleCreationWorker remote threadID lo hi client = Ok steps ∧
    omap f steps = concat (g <$> indices (lo, hi)).
Proof.
  intros Hstep. rewrite roleCreationWorker_unfold. unfold for_le.
  destruct (decide (_ ∧ _)) as [[H1 H2]|_]; [destruct Hend; lia|].
  edestruct (for_lt_adds f g lo (hi + 1) (roleCreationStep remote threadID client))
    as (k' & added & Hrun & Hview); [|rewrite Hrun].
  - intros i _ k steps. destruct (Hstep i k steps) as (added & ? & ?). eauto.
  - rewrite result_bind_ok. eexists. split; [reflexivity|].
    cbn [snd app]. rewrite Hview. unfold indices. cbn [fst snd].
    by replace (hi + 1 - lo) with (hi - lo + 1) by lia.
Qed.

Lemma roleCreationWorker_inv (P : list event → Prop) steps :
  roleCreationWorker remote threadID lo hi client = Ok steps →
  P [] →
  (∀ i k steps0, P steps0 →
     P (roleCreationStep remote threadID client i (k, steps0)).2) →
  P steps.
Proof.
  rewrite roleCreationWorker_unfold. unfold for_le.
  destruct (decide (_ ∧ _)) as [|_]; [discriminate|].
  rewrite result_bind_ok. intros [= <-] H0 Hstep.
  apply for_lt_steps_inv; [exact H0|]. intros i k steps0 _. apply Hstep.
Qed.

Lemma roleCreationWorker_ok :
  ∃ steps,
    roleCreationWorker remote threadID lo hi client = Ok steps ∧
    requests steps = CreateRole_request client <$> indices (lo, hi) ∧
    launches steps = [] ∧
    sent steps = [] ∧
    omap ledgerRowOf steps = [] ∧
    omap roleMark steps = (λ _, ()) <$> indices (lo, hi) ∧
    omap pauseMark steps = omap successMark steps ∧
    Forall rolePause steps.
Proof.
  destruct (roleCreationWorker_view requestOf (λ i, [CreateRole_request client i]))
    as (steps & Hrun & Hreq).
  { intros i k s. destruct (roleCreationStep_adds remote threadID client i k s)
      as (added & ? & ? & _). eauto. }
  assert (Hview : ∀ B (f : event → option B) (g : Z → list B),
    (∀ i k s, ∃ added,
        roleCreationStep remote threadID client i (k, s) = (S k, s ++ added) ∧
        omap f added = g i) →
    omap f steps = concat (g <$> indices (lo, hi))).
  { intros B f g Hstep. destruct (roleCreationWorker_view f g Hstep) as (s' & Hs' & Hv).
    rewrite Hrun in Hs'. by injection Hs' as <-. }
  exists steps. split; [exact Hrun|]. split; [|split; [|split; [|split; [|split; [|split]]]]].
  - unfold requests. rewrite Hreq. apply concat_singletons.
  - unfold launches. rewrite (Hview _ launchOf (λ _, [])); [apply concat_nils|].
    intros i k s. destruct (roleCreationStep_adds remote threadID client i k s)
      as (added & ? & _ & ? & _). eauto.
  - unfold sent. rewrite (Hview _ sendOf (λ _, [])); [apply concat_nils|].
    intros i k s. destruct (roleCreationStep_adds remote threadID client i k s)
      as (added & ? & _ & _ & ? & _). eauto.
  - rewrite (Hview _ ledgerRowOf (λ _, [])); [apply concat_nils|].
    intros i k s. destruct (roleCreationStep_adds remote threadID client i k s)
      as (added & ? & _ & _ & _ & ? & _). eauto.
  - rewrite (Hview _ roleMark (λ _, [()])); [apply (concat_singletons (λ _, ()))|].
    intros i k s. destruct (roleCreationStep_adds remote threadID client i k s)
      as (added & ? & _ & _ & _ & _ & ? & _). eauto.
  - apply (roleCreationWorker_inv
             (λ s, omap pauseMark s = omap successMark s) steps Hrun); [done|].
    intros i k s Hs. destruct (roleCreationStep_adds remote threadID client i k s)
      as (added & -> & _ & _ & _ & _ & _ & Hp & _).
    cbn [snd]. by rewrite !omap_app, Hs, Hp.
  - apply (roleCreationWorker_inv (Forall rolePause) steps Hrun); [constructor|].
    intros i k s Hs. destruct (roleCreationStep_adds remote threadID client i k s)
      as (added & -> & _ & _ & _ & _ & _ & _ & Hp).
    cbn [snd]. by apply Forall_app.
Qed.

End RoleWorker.

Lemma successes_failures calls :
  successes calls + failures calls = Z.of_nat (length calls).
Proof.
  unfold successes, failures. induction calls as [|[] calls IH]; [done|..].
  - rewrite filter_cons_True, filter_cons_False by done. cbn [length]. lia.
  - rewrite filter_cons_False, filter_cons_True by done. cbn [length]. lia.
Qed.

(** The counters after a sequence of calls of [IncrementRole]. *)
Lemma countRoles_counters calls : ∀ ts,
  counters_in_range ts →
  TotalRoles (countRoles ts calls)
    = GoInt.wrap (TotalRoles ts + Z.of_nat (length calls)) ∧
  SuccessRoles (countRoles ts calls) = GoInt.wrap (SuccessRoles ts + successes calls) ∧
  FailedRoles (countRoles ts calls) = GoInt.wrap (FailedRoles ts + failures calls) ∧
  TotalUsers (countRoles ts calls) = TotalUsers ts ∧
  SuccessUsers (countRoles ts calls) = SuccessUsers ts ∧
  FailedUsers (countRoles ts calls) = FailedUsers ts.
Proof.
  unfold countRoles, successes, failures.
  induction calls as [|b calls IH] using rev_ind; intros ts (H1 & H2 & H3 & H4 & H5 & H6).
  - cbn. rewrite !Z.add_0_r, !GoIntFacts.wrap_id by done. done.
  - rewrite foldl_app. cbn [foldl].
    destruct (IH ts ltac:(done)) as (I1 & I2 & I3 & I4 & I5 & I6).
    rewrite !filter_app, !length_app. cbn [length].
    destruct b; cbn [IncrementRole TotalRoles SuccessRoles FailedRoles TotalUsers
      SuccessUsers FailedUsers]; unfold GoInt.add;
      rewrite I1, I2, I3, I4, I5, I6, ?GoIntFacts.wrap_add_l;
      change (filter (eq true) [true]) with [true];
      change (filter (eq false) [false]) with [false];
      change (filter (eq true) [false]) with (@nil bool);
      change (filter (eq false) [true]) with (@nil bool);
      cbn [length]; repeat split; try reflexivity; f_equal; lia.
Qed.

Lemma unit_list_eq (l1 l2 : list ()) : length l1 = length l2 → l1 = l2.
Proof.
  revert l2. induction l1 as [|[] l1 IH]; intros [|[] l2] H; try done.
  f_equal. apply IH. by injection H.
Qed.

Lemma unit_perm_eq (l1 l2 : list ()) : l1 ≡ₚ l2 → l1 = l2.
Proof. intros H. apply unit_list_eq, Permutation_length, H. Qed.

Lemma length_successMark steps :
  Z.of_nat (length (omap successMark steps)) = successes (omap roleCallOf steps).
Proof.
  unfold successes. induction steps as [|e steps IH]; [done|].
  destruct e; try exact IH. destruct success; cbn [omap list_omap successMark roleCallOf].
  - rewrite filter_cons_True by done. cbn [length]. lia.
  - rewrite filter_cons_False by done. exact IH.
Qed.

Lemma length_roleMark steps :
  length (omap roleMark steps) = length (omap roleCallOf steps).
Proof.
  induction steps as [|e steps IH]; [done|].
  destruct e; try exact IH. cbn. by rewrite IH.
Qed.

Lemma runWorkers_Forall2 {T} (run : T → result (list event)) tasks running :
  runWorkers run tasks = Ok running →
  Forall2 (λ t steps, run t = Ok steps) tasks running.
Proof.
  revert running. induction tasks as [|t tasks IH]; intros running Hrun.
  - cbn in Hrun. injection Hrun as <-. constructor.
  - cbn [runWorkers] in Hrun. destruct (run t) as [steps| | |] eqn:Ht; try discriminate.
    rewrite result_bind_ok in Hrun.
    destruct (runWorkers run tasks) as [rest| | |]; try discriminate.
    injection Hrun as <-. constructor; [done|]. by apply IH.
Qed.

Lemma Forall2_concat_views {T B} (f1 f2 : event → option B) (tasks : list T) running
    (R : T → list event → Prop) :
  Forall2 R tasks running →
  (∀ t steps, R t steps → omap f1 steps = omap f2 steps) →
  omap f1 (concat running) = omap f2 (concat running).
Proof.
  intros HF HR. induction HF as [|t steps tasks running Ht _ IH]; [done|].
  cbn [concat]. by rewrite !omap_app, (HR t steps Ht), IH.
Qed.

Lemma Forall2_concat_Forall {T} (Q : event → Prop) (tasks : list T) running
    (R : T → list event → Prop) :
  Forall2 R tasks running →
  (∀ t steps, R t steps → Forall Q steps) →
  Forall Q (concat running).
Proof.
  intros HF HR. induction HF as [|t steps tasks running Ht _ IH]; [constructor|].
  cbn [concat]. apply Forall_app. split; [by eapply HR|exact IH].
Qed.

Lemma goes_app tr1 tr2 : goes (tr1 ++ tr2) = goes tr1 ++ goes tr2.
Proof. apply omap_app. Qed.

Lemma pauses_app tr1 tr2 : pauses (tr1 ++ tr2) = pauses tr1 ++ pauses tr2.
Proof. apply omap_app. Qed.

Lemma rolePause_replicate steps :
  Forall rolePause steps →
  omap workerPauseOf steps = replicate (length (omap pauseMark steps)) (5 * Second).
Proof.
  induction 1 as [|e steps He _ IH]; [done|].
  destruct e; try exact IH. cbn in He. subst d. cbn. by rewrite IH.
Qed.

Section RolePool.

Variable remote : Z → nat → Request → Reply.
Variable schedule : list nat.
Variable te : TestExecutor.
Variable w : World.

Let c := config te.
Let e := Execution c.
Let workers := ExecutionConfig.NoOfThreads e.
Let tenants := ExecutionConfig.NoOfTenants e.
Let tenantStart := ExecutionConfig.TenantStartNumber e.

Hypothesis Htenants : 0 ≤ tenants.
Hypothesis Hworkers : 1 ≤ workers.
Hypothesis Hint : GoInt.in_range workers.
Hypothesis Hcount : GoInt.in_range tenants.
Hypothesis Hfrom : GoInt.in_range (tenantStart - 1).
Hypothesis Hto : GoInt.in_range (tenantStart + tenants).

Let tasks := roleTask c <$> seqZ 0 (Z.min workers tenants).

Lemma roleTask_end i :
  0 ≤ i < Z.min workers tenants →
  (nthRange tenantStart tenants workers i).2 < GoInt.maxInt.
Proof.
  intros Hi. unfold nthRange. cbn [snd].
  pose proof (first_bounds tenantStart tenants workers Htenants Hworkers (i + 1)
                ltac:(lia)).
  int_bounds.
Qed.

Lemma ExecuteRoleCreation_run :
  ∃ steps,
    ExecuteRoleCreation remote schedule te w
      = (Ok (withStats te (countRoles (stats te) (omap roleCallOf steps))),
         with_trace w (launch 0 (roleRange3 <$> tasks) ++ steps)) ∧
    requests steps ≡ₚ CreateRole_request (NewHTTPClient c) <$> seqZ tenantStart tenants ∧
    launches steps = [] ∧
    sent steps = [] ∧
    omap ledgerRowOf steps = [] ∧
    length (omap roleCallOf steps) = Z.to_nat tenants ∧
    omap pauseMark steps = omap successMark steps ∧
    Forall rolePause steps.
Proof.
  destruct (roleCreationTasks_partitions c Htenants Hworkers Hfrom Hto Hint Hcount)
    as [Htasks (_ & Hcover & _)].
  fold e in Htasks, Hcover. fold workers tenants tenantStart in Htasks, Hcover.
  fold tasks in Htasks, Hcover.
  set (run := λ '(threadID, lo, hi, client),
                roleCreationWorker remote threadID lo hi client).
  set (R := λ (t : Z * Z * Z * HTTPClient.t) steps,
         requests steps = CreateRole_request (NewHTTPClient c) <$> indices (roleRange t) ∧
         launches steps = [] ∧ sent steps = [] ∧ omap ledgerRowOf steps = [] ∧
         omap roleMark steps = (λ _, ()) <$> indices (roleRange t) ∧
         omap pauseMark steps = omap successMark steps ∧
         Forall rolePause steps).
  assert (Hranges : indices ∘ roleRange <$> tasks = indices <$> ranges_of_roleTasks tasks).
  { unfold ranges_of_roleTasks. rewrite <- list_fmap_compose.
    apply list_fmap_ext. intros _ [[[th lo] hi] cl] _. reflexivity. }
  destruct (runWorkers_all run R tasks) as (running & Hrunning & Hall).
  { intros t Ht. apply list_elem_of_fmap in Ht as (i & -> & Hi).
    apply elem_of_seqZ in Hi. unfold roleTask, run, R. cbn [roleRange fst snd].
    apply roleCreationWorker_ok. right. fold e. fold tenantStart tenants workers.
    apply roleTask_end. lia. }
  set (steps := mergeSteps schedule running).
  assert (Hperm : ∀ B (f : event → option B), omap f steps ≡ₚ omap f (concat running))
    by (intros; apply omap_perm, mergeSteps_perm).
  assert (Hnil : ∀ B (f : event → option B),
            (∀ t s, R t s → omap f s = []) → omap f steps = []).
  { intros B f Hf. apply Permutation_nil_r. rewrite (Hperm B f).
    rewrite (omap_concat_Forall2 f (λ _, []) tasks running); [by rewrite concat_nils|].
    eapply Forall2_impl; [exact Hall|]. intros t s HR. exact (Hf t s HR). }
  assert (Hledger : omap ledgerRowOf steps = [])
    by (apply Hnil; intros t s HR; apply HR).
  exists steps. split.
  { unfold ExecuteRoleCreation. fold c. run_M. rewrite Htasks. cbv beta iota zeta.
    cbn [fst snd files trace].
    change (runWorkers _ tasks) with (runWorkers run tasks). rewrite Hrunning.
    cbv beta iota zeta. fold steps.
    rewrite performAll_quiet by (by right). cbn [fst snd app].
    unfold with_trace. cbn [files trace]. rewrite <- app_assoc. reflexivity. }
  split.
  { unfold requests. rewrite (Hperm _ requestOf).
    rewrite (omap_concat_Forall2 requestOf
               (λ t, CreateRole_request (NewHTTPClient c) <$> indices (roleRange t))
               tasks running).
    - rewrite concat_fmap_fmap, (list_fmap_compose roleRange indices), <- Hcover.
      by rewrite <- Hranges, <- list_fmap_compose.
    - eapply Forall2_impl; [exact Hall|]. intros t s HR. apply HR. }
  split; [apply Hnil; intros t s HR; apply HR|].
  split; [apply Hnil; intros t s HR; apply HR|].
  split; [exact Hledger|].
  split.
  { rewrite <- length_roleMark, (Permutation_length (Hperm _ roleMark)).
    rewrite (omap_concat_Forall2 roleMark
               (λ t, (λ _, ()) <$> indices (roleRange t)) tasks running).
    - rewrite concat_fmap_fmap, length_fmap, (list_fmap_compose roleRange indices).
      rewrite <- list_fmap_compose, Hranges, Hcover, length_seqZ. reflexivity.
    - eapply Forall2_impl; [exact Hall|]. intros t s HR. apply HR. }
  split.
  { apply unit_perm_eq. rewrite (Hperm _ pauseMark), (Hperm _ successMark).
    apply Permutation_refl'.
    apply (Forall2_concat_views pauseMark successMark tasks running R Hall).
    intros t s HR. apply HR. }
  unfold steps. rewrite mergeSteps_perm.
  apply (Forall2_concat_Forall rolePause tasks running R Hall).
  intros t s HR. apply HR.
Qed.

End RolePool.

(** ** The user-creation pool and the ledger *)



Lemma ledgerRowOf_user (steps : list event) :
  omap ledgerRowOf steps = ledgerRecord <$> omap ledgerUserOf steps.
Proof.
  induction steps as [|e steps IH]; [done|].
  destruct e; try exact IH. cbn. by rewrite IH.
Qed.


Section UserWorkerInv.

Variable remote : Z → nat → Request → Reply.
Variable now : Z → nat → string.
Variable te : TestExecutor.
Variable task : WorkerTask.t.

Let e := Execution (config te).
Let tenantStart := ExecutionConfig.TenantStartNumber e.
Let tenants := ExecutionConfig.NoOfTenants e.

Hypothesis Htenants : GoInt.in_range (tenantStart + tenants).



Hypothesis Hend :
  WorkerTask.UserEnd task < WorkerTask.UserStart task ∨
  WorkerTask.UserEnd task < GoInt.maxInt.


End UserWorkerInv.

Section UserPoolEffects.

Variable remote : Z → nat → Request → Reply.
Variable now : Z → nat → string.
Variable schedule : list nat.
Variable drained : nat.
Variable te : TestExecutor.

Let c := config te.
Let e := Execution c.
Let users := ExecutionConfig.NoOfUsers e.
Let workers := ExecutionConfig.NoOfThreads e.
Let tenants := ExecutionConfig.NoOfTenants e.
Let userStart := ExecutionConfig.UserStartNumber e.
Let tenantStart := ExecutionConfig.TenantStartNumber e.

Hypothesis Husers : 0 ≤ users.
Hypothesis Htenants : 0 ≤ tenants.
Hypothesis Hworkers : 1 ≤ workers.
Hypothesis Hint : GoInt.in_range workers.
Hypothesis Hcount : GoInt.in_range users.
Hypothesis Hfrom : GoInt.in_range (userStart - 1).
Hypothesis Hto : GoInt.in_range (userStart + users).
Hypothesis Htto : GoInt.in_range (tenantStart + tenants).
Hypothesis Hresults : GoInt.in_range (users * tenants).

Let tasks := userTask c <$> seqZ 0 workers.


End UserPoolEffects.

(** ** The counters of the result processor *)

Lemma processResults_countUsers n channel ts :
  processResults n channel ts = countUsers ts (TestResult.Success <$> take n channel).
Proof.
  unfold processResults, countUsers. generalize (take n channel). clear.
  intros l. revert ts. induction l as [|r l IH]; intros ts; [done|].
  cbn. apply IH.
Qed.


Lemma counters_in_range_fresh : counters_in_range NewTestStats.
Proof. repeat split; cbn; unfold GoInt.minInt, GoInt.maxInt; lia. Qed.


Lemma omap_effects {B} (f : event → option B) path steps :
  silent f → omap f (flat_map (effects path) steps) = omap f steps.
Proof.
  intros Hf. induction steps as [|step steps IH]; [done|].
  cbn [flat_map]. rewrite omap_app, IH. unfold effects.
  change (step :: steps) with ([step] ++ steps). rewrite omap_app. f_equal.
  destruct (ledgerRowOf step); cbn; [|done].
  rewrite Hf. by destruct (f step).
Qed.


Lemma silent_requestOf : silent requestOf.
Proof. by intros ? ?. Qed.

Lemma silent_launchOf : silent launchOf.
Proof. by intros ? ?. Qed.


(** ** X5: what the counters hold when the user-creation phase returns *)



(** ** X1: the role-creation phase *)

(** X1: with K tenants configured and at least one thread, the
    role-creation phase returns without error after sending exactly one
    [addRole] request for every tenant index of the configured range, each
    under the administrator login of that tenant.  The launcher starts
    [min(threads, K)] workers and never pauses between two starts (there is
    no ramp-up in this phase); no result is put on the channel and no file
    is touched.  Every request is counted: the total of the role counters
    goes up by K, the successes by the number of roles created, the
    failures by the rest, and a worker pauses five seconds after each role
    it created and not after a failure.  The user counters stay as they
    were.  (Counts and index ranges are within the range of [int].) *)
Theorem role_creation_once_per_tenant
    (remote : Z → nat → Request → Reply) (schedule : list nat)
    (te : TestExecutor) (w : World) :
  let c := config te in
  let e := Execution c in
  let K := ExecutionConfig.NoOfTenants e in
  let workerCount := ExecutionConfig.NoOfThreads e in
  let tenantStart := ExecutionConfig.TenantStartNumber e in
  0 ≤ K → 1 ≤ workerCount →
  GoInt.in_range workerCount → GoInt.in_range K →
  GoInt.in_range (tenantStart - 1) → GoInt.in_range (tenantStart + K) →
  counters_in_range (stats te) →
  ∃ te' new created,
    ExecuteRoleCreation remote schedule te w = (Ok te', with_trace w new) ∧
    requests new ≡ₚ CreateRole_request (NewHTTPClient c) <$> seqZ tenantStart K ∧
    (∀ t, AuthUser (CreateRole_request (NewHTTPClient c) t) = GetTenantUsername c t) ∧
    Z.of_nat (length (goes new)) = Z.min workerCount K ∧
    pauses new = [] ∧
    sent new = [] ∧
    0 ≤ created ≤ K ∧
    omap workerPauseOf new = replicate (Z.to_nat created) (5 * Second) ∧
    TotalRoles (stats te') = GoInt.wrap (TotalRoles (stats te) + K) ∧
    SuccessRoles (stats te') = GoInt.wrap (SuccessRoles (stats te) + created) ∧
    FailedRoles (stats te') = GoInt.wrap (FailedRoles (stats te) + (K - created)) ∧
    TotalUsers (stats te') = TotalUsers (stats te) ∧
    SuccessUsers (stats te') = SuccessUsers (stats te) ∧
    FailedUsers (stats te') = FailedUsers (stats te) ∧
    config te' = c ∧
    failedUsersWriter te' = failedUsersWriter te ∧
    csvWriter te' = csvWriter te.
Proof.
  intros c e K workerCount tenantStart HK HW HiW HiK Hfrom Hto Hstats.
  destruct (ExecuteRoleCreation_run remote schedule te w HK HW HiW HiK Hfrom Hto)
    as (steps & Hrun & Hreq & Hl & Hsent & _ & Hcalls & Hpause & Hfive).
  fold c e in Hrun, Hreq, Hcalls. fold K workerCount tenantStart in Hrun, Hreq, Hcalls.
  set (ranges := roleRange3 <$> (roleTask c <$> seqZ 0 (Z.min workerCount K))) in *.
  destruct (countRoles_counters (omap roleCallOf steps) (stats te) Hstats)
    as (H1 & H2 & H3 & H4 & H5 & H6).
  pose proof (successes_failures (omap roleCallOf steps)) as Hsf.
  assert (Hs0 : 0 ≤ successes (omap roleCallOf steps)) by (unfold successes; lia).
  assert (Hf0 : 0 ≤ failures (omap roleCallOf steps)) by (unfold failures; lia).
  exists (withStats te (countRoles (stats te) (omap roleCallOf steps))),
    (launch 0 ranges ++ steps), (successes (omap roleCallOf steps)).
  split; [exact Hrun|]. split.
  { unfold requests. rewrite omap_app, requests_launch. exact Hreq. }
  split; [reflexivity|]. split.
  { rewrite goes_app, goes_launch, (goes_launches steps), Hl. cbn [goes omap list_omap].
    rewrite app_nil_r. unfold ranges. rewrite !length_fmap, length_seqZ. lia. }
  split.
  { rewrite pauses_app, pauses_launch_zero, (pauses_launches steps), Hl. reflexivity. }
  split.
  { unfold sent. rewrite omap_app, sent_launch. exact Hsent. }
  split; [lia|]. split.
  { rewrite omap_app.
    assert (Hnone : omap workerPauseOf (launch 0 ranges) = []).
    { unfold launch. clear. induction ranges as [|[[th lo] hi] l IH]; [done|].
      cbn [flat_map]. by rewrite omap_app, IH. }
    rewrite Hnone, (rolePause_replicate steps Hfive), Hpause. cbn [app].
    f_equal. rewrite <- length_successMark. lia. }
  cbn [stats withStats config failedUsersWriter csvWriter].
  rewrite H1, H2, H3, H4, H5, H6.
  repeat split; try reflexivity; f_equal; lia.
Qed.

(** X1 for five tenants and two threads. *)
Lemma role_creation_once_per_tenant_witness :
  ∃ te' new created,
    ExecuteRoleCreation remoteDown [1%nat; 0%nat] fiveTenantsTwoThreads emptyWorld
      = (Ok te', with_trace emptyWorld new) ∧
    requests new
      ≡ₚ CreateRole_request (NewHTTPClient (config fiveTenantsTwoThreads)) <$> seqZ 1 5 ∧
    Z.of_nat (length (goes new)) = 2 ∧
    pauses new = [] ∧
    sent new = [] ∧
    0 ≤ created ≤ 5 ∧
    TotalRoles (stats te') = 5 ∧
    SuccessRoles (stats te') = GoInt.wrap created ∧
    FailedRoles (stats te') = GoInt.wrap (5 - created).
Proof.
  assert (Hr : ∀ z, -100 ≤ z ≤ 100 → GoInt.in_range z) by (intros; int_bounds).
  destruct (role_creation_once_per_tenant remoteDown [1%nat; 0%nat]
              fiveTenantsTwoThreads emptyWorld)
    as (te' & new & created & H1 & H2 & _ & H4 & H5 & H6 & H7 & _ & H9 & H10 & H11 & _);
    try (apply Hr; cbn; lia); try (cbn; lia);
    [exact counters_in_range_fresh|].
  exists te', new, created.
  split; [exact H1|]. split; [exact H2|]. split; [exact H4|]. split; [exact H5|].
  split; [exact H6|]. split; [exact H7|]. split; [exact H9|].
  split; [exact H10|exact H11].
Defined.

(** ** X2: the ledger after the user-creation phase *)

Section UserLedger.

Variable remote : Z → nat → Request → Reply.
Variable now : Z → nat → string.
Variable schedule : list nat.
Variable drained : nat.
Variable te : TestExecutor.
Variable w : World.
Variable old : list (list string).

Let c := config te.
Let e := Execution c.
Let users := ExecutionConfig.NoOfUsers e.
Let workers := ExecutionConfig.NoOfThreads e.
Let tenants := ExecutionConfig.NoOfTenants e.
Let userStart := ExecutionConfig.UserStartNumber e.
Let tenantStart := ExecutionConfig.TenantStartNumber e.
Let path := ExecutionConfig.FailedUsersCsvPath e.

Hypothesis Husers : 0 ≤ users.
Hypothesis Htenants : 0 ≤ tenants.
Hypothesis Hworkers : 1 ≤ workers.
Hypothesis Hint : GoInt.in_range workers.
Hypothesis Hcount : GoInt.in_range users.
Hypothesis Hfrom : GoInt.in_range (userStart - 1).
Hypothesis Hto : GoInt.in_range (userStart + users).
Hypothesis Htto : GoInt.in_range (tenantStart + tenants).
Hypothesis Hresults : GoInt.in_range (users * tenants).
Hypothesis Hwriter : failedUsersWriter te = Some (ledgerWriter path).
Hypothesis Hfile : files w !! path = Some old.


End UserLedger.



(** ** X3 and X4: a complete run *)

Section CompleteRun.

Variable remote : Z → nat → Request → Reply.
Variable now : Z → nat → string.
Variable schedule : list nat.
Variable drained : nat.
Variable te : TestExecutor.
Variable w : World.
Variable old : list (list string).

Let c := config te.
Let e := Execution c.
Let users := ExecutionConfig.NoOfUsers e.
Let workers := ExecutionConfig.NoOfThreads e.
Let tenants := ExecutionConfig.NoOfTenants e.
Let userStart := ExecutionConfig.UserStartNumber e.
Let tenantStart := ExecutionConfig.TenantStartNumber e.
Let path := ExecutionConfig.FailedUsersCsvPath e.

Hypothesis Husers : 0 ≤ users.
Hypothesis Htenants : 0 ≤ tenants.
Hypothesis Hworkers : 1 ≤ workers.
Hypothesis Hint : GoInt.in_range workers.
Hypothesis Hcount : GoInt.in_range users.
Hypothesis Hkcount : GoInt.in_range tenants.
Hypothesis Hfrom : GoInt.in_range (userStart - 1).
Hypothesis Hto : GoInt.in_range (userStart + users).
Hypothesis Htfrom : GoInt.in_range (tenantStart - 1).
Hypothesis Htto : GoInt.in_range (tenantStart + tenants).
Hypothesis Hresults : GoInt.in_range (users * tenants).
Hypothesis Hwriter : failedUsersWriter te = Some (ledgerWriter path).
Hypothesis Hfile : files w !! path = Some old.


End CompleteRun.







(** ** X6: the ledger after a retry *)

Lemma ledgerPairOf_user (steps : list event) :
  omap ledgerPairOf steps = userPair <$> omap ledgerUserOf steps.
Proof.
  induction steps as [|e steps IH]; [done|].
  destruct e; try exact IH. cbn. by rewrite IH.
Qed.

Lemma ledgerMark_user (steps : list event) :
  length (omap ledgerMark steps) = length (omap ledgerUserOf steps).
Proof.
  induction steps as [|e steps IH]; [done|].
  destruct e; try exact IH. cbn. by rewrite IH.
Qed.

Lemma failedMark_failures (steps : list event) :
  Z.of_nat (length (omap failedMark steps)) = failures (TestResult.Success <$> sent steps).
Proof.
  unfold failures, sent. induction steps as [|e steps IH]; [done|].
  destruct e; try exact IH. cbn [omap list_omap failedMark sendOf fmap list_fmap].
  destruct (TestResult.Success r).
  - rewrite filter_cons_False by done. exact IH.
  - rewrite filter_cons_True by done. cbn [length]. lia.
Qed.

Lemma for_range_sublist {A B} (f : event → option B) (g : A → B)
    (body : A → nat * list event → result (nat * list event)) (l : list A) :
  (∀ x k steps s', body x (k, steps) = Ok s' →
     ∃ added, s'.2 = steps ++ added ∧ omap f added `sublist_of` [g x]) →
  ∀ k steps s', for_range l body (k, steps) = Ok s' →
    ∃ added, s'.2 = steps ++ added ∧ omap f added `sublist_of` (g <$> l).
Proof.
  intros Hstep. induction l as [|x l IH]; intros k steps s' Hrun.
  - cbn in Hrun. injection Hrun as <-. exists []. by rewrite app_nil_r.
  - cbn [for_range] in Hrun.
    destruct (body x (k, steps)) as [[k1 steps1]| | |] eqn:Hx; try discriminate.
    rewrite result_bind_ok in Hrun.
    destruct (Hstep x k steps _ Hx) as (added1 & H1 & Hs1). cbn [snd] in H1. subst steps1.
    destruct (IH _ _ _ Hrun) as (added2 & H2 & Hs2).
    exists (added1 ++ added2). split; [by rewrite H2, app_assoc|].
    rewrite omap_app, fmap_cons. change (g x :: (g <$> l)) with ([g x] ++ (g <$> l)).
    by apply sublist_app.
Qed.

Section RetryWorkerInv.

Variable remote : Z → nat → Request → Reply.
Variable now : Z → nat → string.
Variable te : TestExecutor.
Variable task : RetryWorkerTask.t.
Variable fw : FailedUsersCSVWriter.t.
Hypothesis Hwriter : failedUsersWriter te = Some fw.

Lemma retryStep_effects user k steps :
  ∃ added,
    retryStep remote now te task user (k, steps) = Ok (S k, steps ++ added) ∧
    omap roleCallOf added = [] ∧
    omap ledgerMark added = omap failedMark added ∧
    omap ledgerPairOf added `sublist_of` [userPair user].
Proof.
  unfold retryStep. rewrite Hwriter.
  destruct (CreateUserWithName_result _ _) as [resp|err];
    eexists; (split; [reflexivity|]); repeat split; try reflexivity;
    cbn; try done; apply sublist_nil_l.
Qed.

Hypothesis Hin : GoInt.in_range (RetryWorkerTask.UserEnd task + 1).

Lemma retryUsersWorkerScalable_effects steps :
  retryUsersWorkerScalable remote now te task = Ok steps →
  omap roleCallOf steps = [] ∧
  omap ledgerMark steps = omap failedMark steps ∧
  omap ledgerPairOf steps
    `sublist_of` (userPair <$> sliceOf (RetryWorkerTask.FailedUsers task)
                    (RetryWorkerTask.UserStart task, RetryWorkerTask.UserEnd task)).
Proof.
  unfold retryUsersWorkerScalable, slice. rewrite (GoIntFacts.add_exact _ _ Hin).
  destruct (decide (_ ∧ _ ∧ _)) as [_|_]; [|discriminate].
  intros Hsteps. rewrite result_bind_ok in Hsteps. revert Hsteps.
  change (take _ _) with (sliceOf (RetryWorkerTask.FailedUsers task)
          (RetryWorkerTask.UserStart task, RetryWorkerTask.UserEnd task)).
  set (l := sliceOf _ _).
  destruct (for_range l (retryStep remote now te task) (0%nat, [])) as [s'| | |] eqn:Hrun;
    try discriminate.
  rewrite result_bind_ok. intros [= <-].
  split; [|split].
  - apply (for_range_steps_inv (λ s, omap roleCallOf s = []) l
             (retryStep remote now te task)) with (s := (0%nat, [])); [|done|exact Hrun].
    intros x k steps s1 _ Hs Hx.
    destruct (retryStep_effects x k steps) as (added & Hstep & Hr & _).
    rewrite Hstep in Hx. injection Hx as <-. cbn [snd]. by rewrite omap_app, Hs, Hr.
  - apply (for_range_steps_inv (λ s, omap ledgerMark s = omap failedMark s) l
             (retryStep remote now te task)) with (s := (0%nat, [])); [|done|exact Hrun].
    intros x k steps s1 _ Hs Hx.
    destruct (retryStep_effects x k steps) as (added & Hstep & _ & Hm & _).
    rewrite Hstep in Hx. injection Hx as <-. cbn [snd]. by rewrite !omap_app, Hs, Hm.
  - destruct (for_range_sublist ledgerPairOf userPair (retryStep remote now te task) l)
      with (k := 0%nat) (steps := @nil event) (s' := s') as (added & Hs' & Hsub);
      [|exact Hrun|].
    + intros x k steps s1 Hx.
      destruct (retryStep_effects x k steps) as (added & Hstep & _ & _ & Hp).
      rewrite Hstep in Hx. injection Hx as <-. eauto.
    + rewrite Hs'. exact Hsub.
Qed.

End RetryWorkerInv.

Lemma sublist_concat_Forall2 {T B} (f : event → option B) (g : T → list B)
    (tasks : list T) running (R : T → list event → Prop) :
  Forall2 R tasks running →
  (∀ t steps, R t steps → omap f steps `sublist_of` g t) →
  omap f (concat running) `sublist_of` concat (g <$> tasks).
Proof.
  intros HF HR. induction HF as [|t steps tasks running Ht _ IH]; [done|].
  rewrite fmap_cons. cbn [concat]. rewrite omap_app.
  apply sublist_app; [by eapply HR|exact IH].
Qed.

Section RetryLedger.

Variable remote : Z → nat → Request → Reply.
Variable now : Z → nat → string.
Variable schedule : list nat.
Variable drained : nat.
Variable te : TestExecutor.
Variable w : World.
Variable raw : list (list string).
Variable failedUsers : list FailedUser.t.

Let c := config te.
Let e := Execution c.
Let path := ExecutionConfig.FailedUsersCsvPath e.
Let workers := ExecutionConfig.NoOfThreads e.
Let total := Z.of_nat (length failedUsers).

Hypothesis Hfile : files w !! path = Some raw.
Hypothesis Hparse : parseLedger raw = Ok failedUsers.
Hypothesis Hsome : failedUsers ≠ [].
Hypothesis Hworkers : 1 ≤ workers.
Hypothesis Hint : GoInt.in_range workers.
Hypothesis Hcount : GoInt.in_range total.

Let tasks := retryTask c failedUsers <$> seqZ 0 (Z.min workers total).

(** The run of the retry when the ledger holds records. *)
Lemma ExecuteRetryFailed_ledger :
  ∃ d steps,
    let stats' := countUsers (stats te)
                    (TestResult.Success <$> take drained (sent steps)) in
    rampUpDelay c = Ok d ∧
    ExecuteRetryFailed remote now schedule drained te w
      = (Ok (withLedger te path stats'),
         {| files := <[path := raw ++ omap ledgerRowOf steps]> (files w);
            trace := trace w
              ++ [EvOpenAppend path; EvOpenRead path; EvClose path]
              ++ launch d (retryRange3 <$> tasks)
              ++ flat_map (effects path) steps
              ++ [EvPrintStats (PrintStats stats'); EvClose path] |}) ∧
    requests steps ≡ₚ retryRequest c <$> failedUsers ∧
    length (sent steps) = length failedUsers ∧
    omap ledgerMark steps = omap failedMark steps ∧
    omap ledgerPairOf steps ⊆+ userPair <$> failedUsers.
Proof.
  assert (Ht : 0 ≤ total) by (subst total; lia).
  destruct (parseLedger_nonempty raw failedUsers Hparse Hsome) as (r0 & rs & Hraw).
  destruct (retryTasks_partitions c failedUsers Hworkers Hint Hcount)
    as [Htasks (Htiles & _)].
  fold e workers total in Htasks, Htiles. fold tasks in Htasks, Htiles.
  destruct (rampUpDelay_ok c Hworkers) as [d Hd].
  set (te1 := {| config := config te; csvWriter := csvWriter te;
                 failedUsersWriter := Some (ledgerWriter path); stats := stats te |}).
  set (slice_of := λ t : RetryWorkerTask.t,
         sliceOf failedUsers (RetryWorkerTask.UserStart t, RetryWorkerTask.UserEnd t)).
  set (R := λ (t : RetryWorkerTask.t) steps,
         requests steps = retryRequest c <$> slice_of t ∧
         omap sendMark steps = (λ _, ()) <$> slice_of t ∧
         omap roleCallOf steps = [] ∧
         omap ledgerMark steps = omap failedMark steps ∧
         omap ledgerPairOf steps `sublist_of` (userPair <$> slice_of t)).
  destruct (runWorkers_all (retryUsersWorkerScalable remote now te1) R tasks)
    as (running & Hrunning & Hall).
  { intros t Hin. apply list_elem_of_fmap in Hin as (i & -> & Hi).
    apply elem_of_seqZ in Hi.
    pose proof (retryTask_slice te failedUsers Hworkers Hint Hcount i
                  ltac:(unfold workers, total, e, c in Hi; lia)) as Hslice.
    cbv zeta in Hslice. fold c in Hslice.
    destruct (retryUsersWorkerScalable_ok remote now te1 (retryTask c failedUsers i)
                (ledgerWriter path) eq_refl Hslice)
      as (steps & Hrun & Hreq & _ & Hmark).
    destruct (retryUsersWorkerScalable_effects remote now te1 (retryTask c failedUsers i)
                (ledgerWriter path) eq_refl (proj2 (proj2 (proj2 Hslice))) steps Hrun)
      as (Hr & Hm & Hsub).
    exists steps. split; [exact Hrun|]. unfold R, slice_of. repeat split; assumption. }
  set (steps := mergeSteps schedule running).
  assert (Hperm : ∀ B (f : event → option B), omap f steps ≡ₚ omap f (concat running))
    by (intros; apply omap_perm, mergeSteps_perm).
  assert (Hslices : concat (slice_of <$> tasks) = failedUsers).
  { pose proof (tiles_slices failedUsers _ 0 (0 + total) ltac:(lia) Htiles) as Hs.
    unfold ranges_of_retryTasks in Hs. rewrite <- list_fmap_compose in Hs.
    etrans; [exact Hs|]. rewrite drop_0, firstn_all2; [done|]. subst total. lia. }
  assert (Hroles : omap roleCallOf steps = []).
  { apply Permutation_nil_r. rewrite (Hperm _ roleCallOf).
    rewrite (omap_concat_Forall2 roleCallOf (λ _, []) tasks running);
      [by rewrite concat_nils|].
    eapply Forall2_impl; [exact Hall|]. intros t s HR. apply HR. }
  exists d, steps. cbv zeta. split; [exact Hd|]. split.
  { assert (H1 : NewFailedUsersCSVWriterAppend path w
                 = (Ok (ledgerWriter path), with_trace w [EvOpenAppend path])).
    { rewrite NewFailedUsersCSVWriterAppend_run, Hfile, Hraw. reflexivity. }
    assert (H2 : readFailedUsersFromCSV te1 (with_trace w [EvOpenAppend path])
                 = (Ok failedUsers,
                    with_trace w [EvOpenAppend path; EvOpenRead path; EvClose path])).
    { rewrite (readFailedUsersFromCSV_run te1 _ raw) by exact Hfile.
      rewrite Hparse, with_trace_app. reflexivity. }
    unfold ExecuteRetryFailed. run_M.
    change (ExecutionConfig.FailedUsersCsvPath (Execution (config te))) with path.
    rewrite H1. cbv beta iota zeta. fold te1.
    rewrite H2. cbv beta iota zeta.
    destruct (decide (length failedUsers = 0%nat)) as [Hz|_].
    { destruct failedUsers; [done|discriminate]. }
    change (config te1) with c. rewrite Htasks. cbv beta iota zeta.
    unfold makechan. destruct (decide (Z.of_nat (length failedUsers) < 0)); [lia|].
    cbv beta iota zeta. rewrite Hd. cbv beta iota zeta. cbn [fst snd trace files].
    rewrite Hrunning. cbv beta iota zeta. fold steps.
    rewrite (performAll_ledger path steps te1 [] _ raw eq_refl)
      by (cbn [files]; exact Hfile).
    cbv beta iota zeta. cbn [fst snd app stats withLedger withStats config csvWriter
      failedUsersWriter te1].
    rewrite Hroles. cbn [countRoles foldl omap list_omap].
    rewrite FailedUsersCSVWriter_Close_run, processResults_countUsers.
    unfold with_trace, withLedger. cbn [snd files trace].
    rewrite <- !app_assoc. reflexivity. }
  split.
  { unfold requests. rewrite (Hperm _ requestOf).
    rewrite (omap_concat_Forall2 requestOf (λ t, retryRequest c <$> slice_of t)
               tasks running).
    - by rewrite concat_fmap_fmap, Hslices.
    - eapply Forall2_impl; [exact Hall|]. intros t s HR. apply HR. }
  split.
  { rewrite length_sent, (Permutation_length (Hperm _ sendMark)).
    rewrite (omap_concat_Forall2 sendMark (λ t, (λ _, ()) <$> slice_of t) tasks running).
    - by rewrite concat_fmap_fmap, Hslices, length_fmap.
    - eapply Forall2_impl; [exact Hall|]. intros t s HR. apply HR. }
  split.
  { apply unit_perm_eq. rewrite (Hperm _ ledgerMark), (Hperm _ failedMark).
    apply Permutation_refl'.
    apply (Forall2_concat_views ledgerMark failedMark tasks running R Hall).
    intros t s HR. apply HR. }
  rewrite (Hperm _ ledgerPairOf). apply sublist_submseteq.
  rewrite <- Hslices, <- concat_fmap_fmap.
  apply (sublist_concat_Forall2 ledgerPairOf (λ t, userPair <$> slice_of t)
           tasks running R Hall).
  intros t s HR. apply HR.
Qed.

End RetryLedger.

(** X6: a retry only ever adds to the ledger.  When the ledger holds
    records (and there is at least one thread), [ExecuteRetryFailed] leaves
    the file as it was, followed by one new record for each retried user
    whose creation failed again, under the tenant and the user name of the
    record it was read from; no record is removed or rewritten, so the
    records of the users the retry did create stay in the ledger as well.
    A record is added for as many users as results report a failure, and
    no other file is touched. *)
Theorem retry_appends_to_ledger
    (remote : Z → nat → Request → Reply) (now : Z → nat → string)
    (schedule : list nat) (drained : nat) (te : TestExecutor) (w : World)
    (raw : list (list string)) (failedUsers : list FailedUser.t) :
  let c := config te in
  let path := ExecutionConfig.FailedUsersCsvPath (Execution c) in
  let workerCount := ExecutionConfig.NoOfThreads (Execution c) in
  files w !! path = Some raw →
  parseLedger raw = Ok failedUsers →
  failedUsers ≠ [] →
  1 ≤ workerCount → GoInt.in_range workerCount →
  GoInt.in_range (Z.of_nat (length failedUsers)) →
  ∃ te' w' results again,
    ExecuteRetryFailed remote now schedule drained te w = (Ok te', w') ∧
    sent (trace w') = sent (trace w) ++ results ∧
    length results = length failedUsers ∧
    files w' !! path = Some (raw ++ (ledgerRecord <$> again)) ∧
    Z.of_nat (length again) = failures (TestResult.Success <$> results) ∧
    userPair <$> again ⊆+ userPair <$> failedUsers ∧
    ∀ other, other ≠ path → files w' !! other = files w !! other.
Proof.
  intros c path workerCount Hfile Hparse Hsome HW HiW Hcount.
  destruct (ExecuteRetryFailed_ledger remote now schedule drained te w raw failedUsers
              Hfile Hparse Hsome HW HiW Hcount)
    as (d & steps & _ & Hrun & _ & Hlen & Hmarks & Hsub).
  cbv zeta in Hrun. fold c in Hrun, Hsub. fold path in Hrun.
  eexists _, _, (sent steps), (omap ledgerUserOf steps).
  split; [exact Hrun|]. cbn [files trace]. split.
  { unfold sent. rewrite !omap_app, sent_launch, (omap_effects sendOf) by done.
    cbn. by rewrite app_nil_r. }
  split; [exact Hlen|]. split.
  { by rewrite lookup_insert_eq, ledgerRowOf_user. }
  split.
  { by rewrite <- ledgerMark_user, Hmarks, failedMark_failures. }
  split; [by rewrite <- ledgerPairOf_user|].
  intros other Hne. by rewrite lookup_insert_ne.
Qed.

(** X6 for a ledger of two records, the server down: both come back. *)
Lemma retry_appends_to_ledger_witness :
  ∃ te' w' results again,
    ExecuteRetryFailed remoteDown clockFixed [] 0 (executorOf retryConfig None)
      (ledgerWorld retryConfig (ledgerHeader :: (ledgerRecord <$> namedFailures)))
      = (Ok te', w') ∧
    sent (trace w') = results ∧
    length results = 2%nat ∧
    files w' !! "failedUsers.csv"
      = Some ((ledgerHeader :: (ledgerRecord <$> namedFailures))
                ++ (ledgerRecord <$> again)) ∧
    Z.of_nat (length again) = failures (TestResult.Success <$> results) ∧
    userPair <$> again ⊆+ userPair <$> namedFailures.
Proof.
  destruct (retry_appends_to_ledger remoteDown clockFixed [] 0
              (executorOf retryConfig None)
              (ledgerWorld retryConfig (ledgerHeader :: (ledgerRecord <$> namedFailures)))
              (ledgerHeader :: (ledgerRecord <$> namedFailures)) namedFailures)
    as (te' & w' & results & again & H1 & H2 & H3 & H4 & H5 & H6 & _);
    [reflexivity | reflexivity | discriminate | cbn; lia
    | cbn; unfold GoInt.in_range, GoInt.minInt, GoInt.maxInt; lia
    | cbn; unfold GoInt.in_range, GoInt.minInt, GoInt.maxInt; lia |].
  exists te', w', results, again.
  split; [exact H1|]. split; [exact H2|]. split; [exact H3|]. split; [exact H4|].
  split; [exact H5|exact H6].
Defined.

(** X7: [ExecuteRetryFailed] installs its ledger writer in the executor
    and never takes it out again.  The last thing the function does is to
    close that writer (the deferred call), and the executor it leaves still
    holds it; the [Close] of the executor that follows in [main] therefore
    calls close on the ledger file a second time.  This is so whether or
    not the ledger held records. *)
Theorem retry_leaves_closed_writer
    (remote : Z → nat → Request → Reply) (now : Z → nat → string)
    (schedule : list nat) (drained : nat) (te : TestExecutor) (w : World)
    (raw : list (list string)) (failedUsers : list FailedUser.t) :
  let c := config te in
  let path := ExecutionConfig.FailedUsersCsvPath (Execution c) in
  let workerCount := ExecutionConfig.NoOfThreads (Execution c) in
  files w !! path = Some raw →
  parseLedger raw = Ok failedUsers →
  1 ≤ workerCount → GoInt.in_range workerCount →
  GoInt.in_range (Z.of_nat (length failedUsers)) →
  ∃ te' w' before between,
    ExecuteRetryFailed remote now schedule drained te w = (Ok te', w') ∧
    trace w' = before ++ [EvClose path] ∧
    failedUsersWriter te' = Some (ledgerWriter path) ∧
    csvWriter te' = csvWriter te ∧
    trace (Close te' w').2 = trace w' ++ between ++ [EvClose path].
Proof.
  intros c path workerCount Hfile Hparse HW HiW Hcount.
  assert (Hclose : ∀ te' w', failedUsersWriter te' = Some (ledgerWriter path) →
    ∃ between, trace (Close te' w').2 = trace w' ++ between ++ [EvClose path]).
  { intros te' w' Hfw. unfold Close. rewrite Hfw, M_bind_run.
    destruct (csvWriter te') as [cw|].
    - rewrite CSVWriter_Close_run.
      destruct (Csv.buffer (CSVWriter.writer cw)) as [|r rs];
        rewrite FailedUsersCSVWriter_Close_run; unfold with_trace, with_file;
        cbn [snd trace]; rewrite <- app_assoc; eexists; reflexivity.
    - unfold mret, M_ret. rewrite FailedUsersCSVWriter_Close_run.
      exists []. reflexivity. }
  destruct failedUsers as [|u us].
  - pose proof (ExecuteRetryFailed_empty remote now schedule drained te w) as Hrun.
    fold c in Hrun. fold path in Hrun. rewrite Hfile in Hrun. cbn [default] in Hrun.
    specialize (Hrun Hparse).
    set (te' := {| config := config te; csvWriter := csvWriter te;
                   failedUsersWriter := Some (ledgerWriter path);
                   stats := stats te |}) in Hrun.
    destruct raw as [|r rs].
    + destruct (Hclose te' (with_file w path [ledgerHeader]
                  [EvOpenAppend path; EvFileWrite path [ledgerHeader]; EvOpenRead path;
                   EvClose path; EvPrintln "No failed users found to retry.";
                   EvClose path]) eq_refl) as [between Hb].
      eexists te', _, _, between. split; [exact Hrun|].
      split; [|split; [reflexivity|split; [reflexivity|exact Hb]]].
      unfold with_file. cbn [trace].
      change [EvOpenAppend path; EvFileWrite path [ledgerHeader]; EvOpenRead path;
              EvClose path; EvPrintln "No failed users found to retry."; EvClose path]
        with ([EvOpenAppend path; EvFileWrite path [ledgerHeader]; EvOpenRead path;
               EvClose path; EvPrintln "No failed users found to retry."]
                ++ [EvClose path]).
      by rewrite app_assoc.
    + destruct (Hclose te' (with_trace w
                  [EvOpenAppend path; EvOpenRead path; EvClose path;
                   EvPrintln "No failed users found to retry."; EvClose path]) eq_refl)
        as [between Hb].
      eexists te', _, _, between. split; [exact Hrun|].
      split; [|split; [reflexivity|split; [reflexivity|exact Hb]]].
      unfold with_trace. cbn [trace].
      change [EvOpenAppend path; EvOpenRead path; EvClose path;
              EvPrintln "No failed users found to retry."; EvClose path]
        with ([EvOpenAppend path; EvOpenRead path; EvClose path;
               EvPrintln "No failed users found to retry."] ++ [EvClose path]).
      by rewrite app_assoc.
  - destruct (ExecuteRetryFailed_ledger remote now schedule drained te w raw (u :: us)
                Hfile Hparse ltac:(discriminate) HW HiW Hcount)
      as (d & steps & _ & Hrun & _).
    cbv zeta in Hrun. fold c in Hrun. fold path in Hrun.
    match type of Hrun with _ = (Ok ?t, ?w0) =>
      destruct (Hclose t w0 eq_refl) as [between Hb];
      exists t, w0
    end.
    eexists _, between. split; [exact Hrun|].
    split; [|split; [reflexivity|split; [reflexivity|exact Hb]]].
    cbn [trace].
    match goal with
    | |- context [[EvPrintStats ?r; EvClose path]] =>
        change [EvPrintStats r; EvClose path] with ([EvPrintStats r] ++ [EvClose path])
    end.
    rewrite !app_assoc. reflexivity.
Qed.

(** X7 in retry mode, on a ledger that holds the header row only. *)
Lemma retry_leaves_closed_writer_witness :
  ∃ te' w' before between,
    ExecuteRetryFailed remoteDown clockFixed [] 0 (executorOf retryConfig None)
      (ledgerWorld retryConfig [ledgerHeader]) = (Ok te', w') ∧
    trace w' = before ++ [EvClose "failedUsers.csv"] ∧
    failedUsersWriter (executorOf retryConfig None) = None ∧
    failedUsersWriter te' = Some (ledgerWriter "failedUsers.csv") ∧
    trace (Close te' w').2 = trace w' ++ between ++ [EvClose "failedUsers.csv"].
Proof.
  destruct (retry_leaves_closed_writer remoteDown clockFixed [] 0
              (executorOf retryConfig None) (ledgerWorld retryConfig [ledgerHeader])
              [ledgerHeader] [])
    as (te' & w' & before & between & H1 & H2 & H3 & _ & H5);
    [reflexivity | reflexivity | cbn; lia
    | cbn; unfold GoInt.in_range, GoInt.minInt, GoInt.maxInt; lia
    | cbn; unfold GoInt.in_range, GoInt.minInt, GoInt.maxInt; lia |].
  exists te', w', before, between.
  split; [exact H1|]. split; [exact H2|]. split; [reflexivity|].
  split; [exact H3|exact H5].
Defined.

(** ** X8: the user index of a retried record *)

Lemma Split_nonempty s sep : Split s sep ≠ [].
Proof.
  destruct s as [|c s]; cbn [Split]; [done|].
  destruct (Ascii.eqb c sep); [done|]. by destruct (Split s sep).
Qed.

Lemma Split_no_sep s sep : contains sep s = false → Split s sep = [s].
Proof.
  induction s as [|c s IH]; cbn [Split contains]; [done|].
  destruct (Ascii.eqb c sep); cbn [orb]; [done|]. intros H. by rewrite IH.
Qed.

Lemma Split_app s1 s2 sep :
  Split (s1 +:+ String sep s2) sep = Split s1 sep ++ Split s2 sep.
Proof.
  induction s1 as [|c s1 IH].
  - change ("" +:+ String sep s2) with (String sep s2). cbn [Split].
    by rewrite Ascii.eqb_refl.
  - change (String c s1 +:+ String sep s2) with (String c (s1 +:+ String sep s2)).
    cbn [Split]. rewrite IH. destruct (Ascii.eqb c sep); [done|].
    pose proof (Split_nonempty s1 sep). by destruct (Split s1 sep).
Qed.

Lemma append_String_assoc p c s : (p +:+ String c EmptyString) +:+ s = p +:+ String c s.
Proof.
  induction p as [|a p IH]; [done|].
  change ((String a p +:+ String c EmptyString) +:+ s)
    with (String a ((p +:+ String c EmptyString) +:+ s)).
  by rewrite IH.
Qed.

Lemma uint_no_underscore d : contains "_" (NilEmpty.string_of_uint d) = false.
Proof. induction d; cbn; done. Qed.

Lemma Itoa_no_underscore z : contains "_" (Strconv.Itoa z) = false.
Proof.
  unfold Strconv.Itoa, NilZero.string_of_int, NilZero.string_of_uint.
  destruct (Z.to_int z) as [d|d]; destruct d; cbn; try done; apply uint_no_underscore.
Qed.

Lemma retryUserIndex_GetTestUsername (c : Config) (i : Z) (stem : string) :
  GoInt.in_range i →
  TestConfig.UsernamePrefix (Test c) = stem +:+ "_" →
  retryUserIndex (GetTestUsername c i) = i.
Proof.
  intros Hi Hprefix. unfold retryUserIndex, GetTestUsername. cbv zeta.
  rewrite Hprefix, append_String_assoc.
  rewrite Split_app, (Split_no_sep (Strconv.Itoa i)) by apply Itoa_no_underscore.
  pose proof (Split_nonempty stem "_") as Hne.
  destruct (decide (1 < _)%nat) as [_|Hn].
  - by rewrite last_last, StrconvFacts.Atoi_Itoa.
  - destruct Hn. rewrite length_app. cbn. destruct (Split stem "_"); [done|cbn; lia].
Qed.

Lemma retryUserIndex_no_underscore username :
  contains "_" username = false → retryUserIndex username = -1.
Proof.
  intros Hno. unfold retryUserIndex. cbv zeta. rewrite Split_no_sep by done.
  destruct (decide (1 < _)%nat) as [Hlt|_]; [cbn in Hlt; lia|done].
Qed.

(** X8: a retry result names the tenant of its ledger record, and its
    user index is read off the stored user name.  For a name that
    [GetTestUsername] made from an index with a prefix that ends in an
    underscore (as the default prefix does), the index found is the
    original one; for a name without an underscore the result carries
    -1.  (A ledger writer is installed, as in [ExecuteRetryFailed].) *)
Theorem retry_recovers_user_index
    (remote : Z → nat → Request → Reply) (now : Z → nat → string)
    (te : TestExecutor) (task : RetryWorkerTask.t) (fw : FailedUsersCSVWriter.t)
    (user : FailedUser.t) (k : nat) (steps : list event) :
  failedUsersWriter te = Some fw →
  ∃ added r,
    retryStep remote now te task user (k, steps) = Ok (S k, steps ++ added) ∧
    sent added = [r] ∧
    TestResult.TenantIndex r = FailedUser.TenantID user ∧
    TestResult.ThreadID r = RetryWorkerTask.ThreadID task ∧
    (∀ (c : Config) (i : Z) (stem : string),
       GoInt.in_range i →
       TestConfig.UsernamePrefix (Test c) = stem +:+ "_" →
       FailedUser.Username user = GetTestUsername c i →
       TestResult.UserIndex r = i) ∧
    (contains "_" (FailedUser.Username user) = false → TestResult.UserIndex r = -1).
Proof.
  intros Hfw. unfold retryStep. rewrite Hfw.
  destruct (CreateUserWithName_result _ _) as [resp|err];
    eexists _, _; (split; [reflexivity|]); (split; [reflexivity|]);
    cbn [TestResult.TenantIndex TestResult.ThreadID TestResult.UserIndex];
    (split; [reflexivity|]); (split; [reflexivity|]); split.
  - intros c i stem Hi Hprefix ->.
    exact (retryUserIndex_GetTestUsername c i stem Hi Hprefix).
  - exact (retryUserIndex_no_underscore _).
  - intros c i stem Hi Hprefix ->.
    exact (retryUserIndex_GetTestUsername c i stem Hi Hprefix).
  - exact (retryUserIndex_no_underscore _).
Qed.

(** X8 for the record of [isTestUser_5] in tenant 3. *)
Lemma retry_recovers_user_index_witness :
  ∃ added r,
    retryStep remoteDown clockFixed (ledgerExecutor DefaultConfig)
      (retryTask DefaultConfig [sampleFailedUser 3 "isTestUser_5"] 0)
      (sampleFailedUser 3 "isTestUser_5") (0%nat, [])
      = Ok (1%nat, [] ++ added) ∧
    sent added = [r] ∧
    TestResult.TenantIndex r = 3 ∧
    TestResult.UserIndex r = 5.
Proof.
  destruct (retry_recovers_user_index remoteDown clockFixed (ledgerExecutor DefaultConfig)
              (retryTask DefaultConfig [sampleFailedUser 3 "isTestUser_5"] 0)
              (ledgerWriter "failedUsers.csv")
              (sampleFailedUser 3 "isTestUser_5") 0 [] eq_refl)
    as (added & r & H1 & H2 & H3 & _ & H5 & _).
  exists added, r. split; [exact H1|]. split; [exact H2|]. split; [exact H3|].
  apply (H5 DefaultConfig 5 "isTestUser"); [|reflexivity|reflexivity].
  unfold GoInt.in_range, GoInt.minInt, GoInt.maxInt. lia.
Defined.

(** ** X9: the scim-ID writer *)

Lemma WriteScimID_run path pending scimID w :
  WriteScimID (scimWriter path pending) scimID w
    = (Ok (scimWriter path []),
       with_file w path (default [] (files w !! path) ++ pending ++ [idRow scimID])
         [EvFileWrite path (pending ++ [idRow scimID])]).
Proof.
  unfold WriteScimID, scimWriter, Csv.Flush, Csv.Write, with_file.
  cbn [CSVWriter.writer CSVWriter.filename Csv.buffer Csv.file].
  destruct (pending ++ [[scimID]]) as [|r rs] eqn:E.
  { by destruct pending. }
  run_M. unfold idRow. rewrite E. reflexivity.
Qed.

Lemma writeScimIDs_run path ids : ∀ w old,
  files w !! path = Some old →
  writeScimIDs (scimWriter path []) ids w
    = (Ok (scimWriter path []),
       with_file w path (old ++ (idRow <$> ids))
         ((λ scimID, EvFileWrite path [idRow scimID]) <$> ids)).
Proof.
  induction ids as [|scimID rest IH]; intros w old Hold.
  - cbn. unfold with_file. rewrite !app_nil_r, insert_id by done. by destruct w.
  - cbn [writeScimIDs]. rewrite M_bind_run, WriteScimID_run.
    rewrite (IH _ (old ++ [idRow scimID])).
    + unfold with_file. cbn [files trace app]. rewrite Hold. cbn [default].
      rewrite insert_insert_eq, <- !app_assoc. reflexivity.
    + unfold with_file. cbn [files app]. by rewrite lookup_insert_eq, Hold.
Qed.

(** X9: a new scim-ID writer empties (or creates) its file and keeps the
    header row in its buffer.  The first ID written takes the header row
    with it into the file; every later ID is added at the end at once, so
    the file holds the header row followed by the IDs written so far, in
    the order written.  If no ID is written, the file stays empty until the
    writer is closed, which puts the header row in.  After [Close] the file
    is the header row followed by all IDs. *)
Theorem scim_ids_follow_header (path : string) (ids : list string) (w : World) :
  ∃ c0 w0 c1 w1,
    NewCSVWriter path w = (Ok c0, w0) ∧
    files w0 !! path = Some [] ∧
    writeScimIDs c0 ids w0 = (Ok c1, w1) ∧
    files w1 !! path
      = Some (if ids is [] then [] else ["scim_id"] :: (idRow <$> ids)) ∧
    files (CSVWriter_Close c1 w1).2 !! path = Some (["scim_id"] :: (idRow <$> ids)) ∧
    ∀ other, other ≠ path →
      files (CSVWriter_Close c1 w1).2 !! other = files w !! other.
Proof.
  assert (Hnew := NewCSVWriter_run path w).
  destruct ids as [|scimID rest].
  - eexists _, _, _, _. split; [exact Hnew|].
    split; [unfold with_file; cbn [files]; by rewrite lookup_insert_eq|].
    split; [reflexivity|].
    split; [unfold with_file; cbn [files]; by rewrite lookup_insert_eq|].
    rewrite CSVWriter_Close_run. cbn [CSVWriter.writer Csv.buffer Csv.file snd].
    unfold with_file. cbn [files]. rewrite !lookup_insert_eq. cbn [default app].
    split; [done|]. intros other Hne. by rewrite !lookup_insert_ne.
  - eexists _, _, _, _. split; [exact Hnew|].
    split; [unfold with_file; cbn [files]; by rewrite lookup_insert_eq|].
    eassert (Hrun : writeScimIDs (scimWriter path [["scim_id"]]) (scimID :: rest)
                     (with_file w path []
                        ([EvStat path]
                           ++ (if files w !! path is Some _ then [EvRemove path] else [])
                           ++ [EvCreate path]))
                   = (Ok (scimWriter path []), _)).
    { cbn [writeScimIDs]. rewrite M_bind_run, WriteScimID_run.
      rewrite (writeScimIDs_run path rest _ ([] ++ [["scim_id"]] ++ [idRow scimID])).
      - reflexivity.
      - unfold with_file. cbn [files]. rewrite !lookup_insert_eq. reflexivity. }
    split; [exact Hrun|].
    split; [unfold with_file; cbn [files]; by rewrite lookup_insert_eq|].
    rewrite CSVWriter_Close_run. cbn [scimWriter CSVWriter.writer Csv.buffer Csv.file snd].
    unfold with_file, with_trace. cbn [files].
    split; [by rewrite lookup_insert_eq|].
    intros other Hne. by rewrite !lookup_insert_ne.
Qed.

(** ** X10: a negative thread count *)




Section NegativeThreads.

Variable c : Config.
Let workers := ExecutionConfig.NoOfThreads (Execution c).
Hypothesis Hneg : workers < 0.







End NegativeThreads.





(** ** X11 and X12: what the ledger reader accepts *)

Lemma ReadAll_fieldCount n records :
  fieldCount n records → Csv.ReadAll records = Ok records.
Proof.
  intros Hall. unfold Csv.ReadAll. destruct records as [|r0 rest]; [done|].
  apply Forall_cons in Hall as [H0 Hrest].
  replace (forallb _ rest) with true; [done|]. symmetry. apply forallb_forall.
  intros r Hr. apply Nat.eqb_eq. rewrite H0.
  apply (proj1 (Forall_forall _ _) Hrest), list_elem_of_In, Hr.
Qed.

Lemma ReadAll_ragged r0 rest :
  ¬ fieldCount (length r0) rest → ∃ e, Csv.ReadAll (r0 :: rest) = Err e.
Proof.
  intros Hnot. unfold Csv.ReadAll. destruct (forallb _ rest) eqn:E; [|eauto].
  destruct Hnot. apply Forall_forall. intros r Hr.
  apply Nat.eqb_eq. apply (proj1 (forallb_forall _ _) E), list_elem_of_In, Hr.
Qed.

Lemma ReadAll_Ok records out :
  Csv.ReadAll records = Ok out →
  out = records ∧ ∃ n, fieldCount n records.
Proof.
  unfold Csv.ReadAll. destruct records as [|r0 rest].
  - intros [= <-]. split; [done|]. exists 0%nat. constructor.
  - destruct (forallb _ rest) eqn:E; [|done]. intros [= <-]. split; [done|].
    exists (length r0). constructor; [done|]. apply Forall_forall. intros r Hr.
    apply Nat.eqb_eq. apply (proj1 (forallb_forall _ _) E), list_elem_of_In, Hr.
Qed.

Lemma parseFailedUser_header_name f0 rest :
  f0 = "TenantID" ∨ f0 = "Tenant ID" → parseFailedUser (f0 :: rest) = None.
Proof.
  intros [-> | ->]; destruct rest as [|f1 [|f2 [|f3 rest]]]; reflexivity.
Qed.

Lemma parseFailedUser_Some record u :
  parseFailedUser record = Some u →
  (4 ≤ length record)%nat ∧
  ∃ f0 rest, record = f0 :: FailedUser.Username u :: FailedUser.Error u
                        :: FailedUser.Timestamp u :: rest ∧
             Strconv.Atoi f0 = Ok (FailedUser.TenantID u).
Proof.
  destruct record as [|f0 [|f1 [|f2 [|f3 rest]]]]; try done.
  cbn [parseFailedUser]. destruct (Strconv.Atoi f0) as [tenantID| | |] eqn:E; try done.
  intros [= <-]. cbn. split; [lia|]. by exists f0, rest.
Qed.

(** The header test does not change what is read. *)
Lemma parseLedger_rows n raw :
  (1 ≤ n)%nat → fieldCount n raw → parseLedger raw = Ok (omap parseFailedUser raw).
Proof.
  intros Hn Hall. unfold parseLedger. rewrite (ReadAll_fieldCount n) by done.
  destruct raw as [|[|f0 r0] rest]; [done| |].
  - apply Forall_cons in Hall as [H0 _]. cbn in H0. lia.
  - cbn [startRow]. destruct (bool_decide _) eqn:E; [|done].
    apply bool_decide_eq_true in E. rewrite result_bind_ok.
    change (drop 1 ((f0 :: r0) :: rest)) with rest.
    cbn [omap list_omap]. by rewrite (parseFailedUser_header_name f0 r0 E).
Qed.

(** X11: with rows of one common, positive number of fields,
    [readFailedUsersFromCSV] reads the ledger row by row: the result is, in
    file order, one record for each row that has at least four fields and
    an integer in the range of [int] as its first field, made of the first
    four fields; every other row is left out, wherever it stands.  A header
    row is such a row whatever its first field is called, so the test for
    the names [TenantID] and [Tenant ID] does not change the result, and a
    ledger without a header row is read in full. *)
Theorem ledger_read_row_by_row (te : TestExecutor) (w : World)
    (raw : list (list string)) (n : nat) :
  let path := ExecutionConfig.FailedUsersCsvPath (Execution (config te)) in
  files w !! path = Some raw →
  (1 ≤ n)%nat →
  fieldCount n raw →
  (readFailedUsersFromCSV te w).1 = Ok (omap parseFailedUser raw) ∧
  files (readFailedUsersFromCSV te w).2 = files w ∧
  (∀ u, u ∈ omap parseFailedUser raw →
     ∃ f0 rest, f0 :: FailedUser.Username u :: FailedUser.Error u
                   :: FailedUser.Timestamp u :: rest ∈ raw ∧
                Strconv.Atoi f0 = Ok (FailedUser.TenantID u)) ∧
  (∀ tenantID username errorMsg timestamp,
     GoInt.in_range tenantID →
     [Strconv.Itoa tenantID; username; errorMsg; timestamp] ∈ raw →
     {| FailedUser.TenantID := tenantID; FailedUser.Username := username;
        FailedUser.Error := errorMsg; FailedUser.Timestamp := timestamp |}
       ∈ omap parseFailedUser raw).
Proof.
  intros path Hfile Hn Hall.
  rewrite (readFailedUsersFromCSV_run te w raw Hfile). cbn [fst snd].
  split; [exact (parseLedger_rows n raw Hn Hall)|]. split; [reflexivity|]. split.
  - intros u Hu. apply list_elem_of_omap in Hu as (record & Hin & Hparse).
    destruct (parseFailedUser_Some record u Hparse) as (_ & f0 & rest & -> & Hid).
    by exists f0, rest.
  - intros tenantID username errorMsg timestamp Hid Hin.
    apply list_elem_of_omap. eexists. split; [exact Hin|].
    cbn [parseFailedUser]. by rewrite StrconvFacts.Atoi_Itoa.
Qed.

(** X11 for a ledger without a header row and with a title row in the
    middle. *)
Lemma ledger_read_row_by_row_witness :
  (readFailedUsersFromCSV (executorOf retryConfig None)
     (ledgerWorld retryConfig bareLedger)).1
    = Ok [ {| FailedUser.TenantID := 3; FailedUser.Username := "a_5";
              FailedUser.Error := "refused"; FailedUser.Timestamp := "12:00" |};
           {| FailedUser.TenantID := 7; FailedUser.Username := "a_9";
              FailedUser.Error := "refused"; FailedUser.Timestamp := "12:01" |} ].
Proof.
  apply (ledger_read_row_by_row (executorOf retryConfig None)
           (ledgerWorld retryConfig bareLedger) bareLedger 4);
    [reflexivity | lia | repeat constructor].
Defined.

(** X12: the reader never skips a single short row.  If one row of the
    ledger has another number of fields than the first, nothing is read:
    [ExecuteRetryFailed] returns the reader's error under its two prefixes,
    sends no request and leaves every file as it was; the ledger is opened
    for appending and for reading and closed twice.  Conversely, when a
    read yields at least one record, every row of the file has the same
    number of fields, four or more. *)
Theorem ragged_ledger_stops_retry
    (remote : Z → nat → Request → Reply) (now : Z → nat → string)
    (schedule : list nat) (drained : nat) (te : TestExecutor) (w : World)
    (raw : list (list string)) :
  let path := ExecutionConfig.FailedUsersCsvPath (Execution (config te)) in
  files w !! path = Some raw →
  (∀ r0 rest, raw = r0 :: rest → ¬ fieldCount (length r0) rest →
     ∃ e,
       ExecuteRetryFailed remote now schedule drained te w
         = (Err ("failed to read failed users: failed to read CSV file: " +:+ e),
            with_trace w [EvOpenAppend path; EvOpenRead path; EvClose path;
                          EvClose path])) ∧
  (∀ failedUsers,
     (readFailedUsersFromCSV te w).1 = Ok failedUsers → failedUsers ≠ [] →
     ∃ n, (4 ≤ n)%nat ∧ fieldCount n raw).
Proof.
  intros path Hfile. split.
  - intros r0 rest -> Hragged.
    destruct (ReadAll_ragged r0 rest Hragged) as [e He]. exists e.
    set (te1 := {| config := config te; csvWriter := csvWriter te;
                   failedUsersWriter := Some (ledgerWriter path); stats := stats te |}).
    assert (H1 : NewFailedUsersCSVWriterAppend path w
                 = (Ok (ledgerWriter path), with_trace w [EvOpenAppend path])).
    { by rewrite NewFailedUsersCSVWriterAppend_run, Hfile. }
    assert (H2 : readFailedUsersFromCSV te1 (with_trace w [EvOpenAppend path])
                 = (Err ("failed to read CSV file: " +:+ e),
                    with_trace (with_trace w [EvOpenAppend path])
                      [EvOpenRead path; EvClose path])).
    { rewrite (readFailedUsersFromCSV_run te1 _ (r0 :: rest)) by exact Hfile.
      unfold parseLedger. by rewrite He. }
    unfold ExecuteRetryFailed. cbv zeta. fold path.
    rewrite M_bind_run, (with_context_ok _ _ _ _ _ H1).
    unfold defer. fold te1. rewrite M_bind_run. unfold with_context at 1.
    rewrite H2. rewrite FailedUsersCSVWriter_Close_run.
    unfold with_trace. cbn [files trace snd]. rewrite <- !app_assoc. reflexivity.
  - intros failedUsers Hread Hsome.
    rewrite (readFailedUsersFromCSV_run te w raw Hfile) in Hread. cbn [fst] in Hread.
    unfold parseLedger in Hread.
    destruct (Csv.ReadAll raw) as [records| | |] eqn:E; try done.
    destruct (ReadAll_Ok raw records E) as [-> [n Hall]].
    exists n. split; [|exact Hall].
    destruct (startRow raw) as [start| | |]; try done.
    rewrite result_bind_ok in Hread. injection Hread as <-.
    destruct (omap parseFailedUser (drop start raw)) as [|u us] eqn:Eu; [done|].
    assert (Hu : u ∈ omap parseFailedUser (drop start raw))
      by (rewrite Eu; apply list_elem_of_here).
    apply list_elem_of_omap in Hu as (record & Hin & Hparse).
    destruct (parseFailedUser_Some record u Hparse) as [Hlen _].
    assert (Hrec : record ∈ raw).
    { rewrite <- (take_drop start raw). apply elem_of_app. by right. }
    rewrite <- (proj1 (Forall_forall _ _) Hall record Hrec). exact Hlen.
Qed.

(** X12 for a ledger whose only record has two fields. *)
Lemma ragged_ledger_stops_retry_witness :
  ∃ e,
    ExecuteRetryFailed remoteDown clockFixed [] 0 (executorOf retryConfig None)
      (ledgerWorld retryConfig raggedLedger)
      = (Err ("failed to read failed users: failed to read CSV file: " +:+ e),
         with_trace (ledgerWorld retryConfig raggedLedger)
           [EvOpenAppend "failedUsers.csv"; EvOpenRead "failedUsers.csv";
            EvClose "failedUsers.csv"; EvClose "failedUsers.csv"]).
Proof.
  destruct (ragged_ledger_stops_retry remoteDown clockFixed [] 0
              (executorOf retryConfig None) (ledgerWorld retryConfig raggedLedger)
              raggedLedger eq_refl) as [Hragged _].
  apply (Hragged ledgerHeader [["3"; "a_5"]] eq_refl).
  intros Hall. apply Forall_cons in Hall as [Hlen _]. discriminate Hlen.
Defined.

(** ** X13: no request is sent twice *)














(** ** X14: a complete run in retry mode *)

Lemma NewTestExecutor_retry_run c w :
  let scim := ExecutionConfig.ScimIdCsvPath (Execution c) in
  ∃ calls,
    NewTestExecutor c true w
      = (Ok {| config := c;
               csvWriter := Some (scimWriter scim [["scim_id"]]);
               failedUsersWriter := None;
               stats := NewTestStats |},
         {| files := <[scim := []]> (files w); trace := trace w ++ calls |}) ∧
    sent calls = [] ∧ requests calls = [].
Proof.
  intros scim. eexists. split.
  { unfold NewTestExecutor. rewrite M_bind_run.
    rewrite (with_context_ok _ _ _ _ _ (NewCSVWriter_run _ w)). cbn [negb].
    run_M. fold scim. unfold with_file. cbn [files trace]. reflexivity. }
  unfold sent, requests. destruct (files w !! scim); split; reflexivity.
Qed.

(** X14: a complete run in retry mode: [NewTestExecutor] with
    [retryMode] set, [ExecuteRetryFailed], then [Close], as [main] makes
    them, on a ledger that holds records.  The executor starts without a
    ledger writer, so the ledger is not truncated: the run leaves it as it
    was, followed by one record for every retried creation that failed
    again.  The scim-ID file, however, is emptied and created anew as in
    normal mode, and is left with its header row only: the IDs a previous
    run may have stored there are gone, and those of the users the retry
    creates are not written.  No other file is touched.  (The two paths are
    taken to be different files.) *)
Theorem retry_run_keeps_ledger_resets_scim_file
    (remote : Z → nat → Request → Reply) (now : Z → nat → string)
    (schedule : list nat) (drained : nat) (c : Config) (w : World)
    (raw : list (list string)) (failedUsers : list FailedUser.t) :
  let e := Execution c in
  let workerCount := ExecutionConfig.NoOfThreads e in
  let scim := ExecutionConfig.ScimIdCsvPath e in
  let ledger := ExecutionConfig.FailedUsersCsvPath e in
  scim ≠ ledger →
  files w !! ledger = Some raw →
  parseLedger raw = Ok failedUsers →
  failedUsers ≠ [] →
  1 ≤ workerCount → GoInt.in_range workerCount →
  GoInt.in_range (Z.of_nat (length failedUsers)) →
  ∃ te w1 te' w2 w3 results again,
    NewTestExecutor c true w = (Ok te, w1) ∧
    failedUsersWriter te = None ∧
    ExecuteRetryFailed remote now schedule drained te w1 = (Ok te', w2) ∧
    (Close te' w2).2 = w3 ∧
    sent (trace w3) = sent (trace w) ++ results ∧
    length results = length failedUsers ∧
    files w3 !! scim = Some [["scim_id"]] ∧
    files w3 !! ledger = Some (raw ++ (ledgerRecord <$> again)) ∧
    Z.of_nat (length again) = failures (TestResult.Success <$> results) ∧
    userPair <$> again ⊆+ userPair <$> failedUsers ∧
    ∀ other, other ≠ scim → other ≠ ledger → files w3 !! other = files w !! other.
Proof.
  intros e workerCount scim ledger Hne Hfile Hparse Hsome HW HiW Hcount.
  destruct (NewTestExecutor_retry_run c w) as (calls & Hnew & Hcs & Hcr).
  fold e in Hnew. fold scim in Hnew.
  set (te := {| config := c; csvWriter := _; failedUsersWriter := None;
                stats := NewTestStats |}) in Hnew.
  set (w1 := {| files := _; trace := trace w ++ calls |}) in Hnew.
  assert (Hfile1 : files w1 !! ledger = Some raw).
  { unfold w1. cbn [files]. by rewrite lookup_insert_ne. }
  destruct (ExecuteRetryFailed_ledger remote now schedule drained te w1 raw failedUsers
              Hfile1 Hparse Hsome HW HiW Hcount)
    as (d & steps & _ & Hrun & _ & Hlen & Hmarks & Hsub).
  cbv zeta in Hrun. change (config te) with c in *. fold e in Hrun.
  fold workerCount ledger in Hrun.
  set (te' := withLedger te ledger _) in Hrun.
  set (w2 := {| files := _; trace := _ |}) in Hrun.
  assert (Hclose : Close te' w2
            = (Ok (), {| files := <[scim := [["scim_id"]]]> (files w2);
                         trace := trace w2 ++ [EvFileWrite scim [["scim_id"]];
                                               EvClose scim; EvClose ledger] |})).
  { unfold Close. cbn [csvWriter failedUsersWriter te' te withLedger].
    rewrite M_bind_run, CSVWriter_Close_run.
    cbn [scimWriter CSVWriter.writer Csv.buffer Csv.file].
    rewrite FailedUsersCSVWriter_Close_run. unfold with_file, with_trace.
    cbn [files trace w2 w1].
    rewrite lookup_insert_ne, lookup_insert_eq by done.
    cbn [default app]. rewrite <- app_assoc. reflexivity. }
  eexists te, w1, te', w2, _, (sent steps), (omap ledgerUserOf steps).
  split; [exact Hnew|]. split; [reflexivity|]. split; [exact Hrun|].
  split; [by rewrite Hclose|].
  cbn [snd files trace w2 w1]. split.
  { unfold sent in *. rewrite !omap_app, !sent_launch, Hcs.
    rewrite (omap_effects sendOf) by done. cbn. by rewrite !app_nil_r. }
  split; [exact Hlen|].
  split; [by rewrite lookup_insert_eq|]. split.
  { rewrite lookup_insert_ne, lookup_insert_eq by done.
    by rewrite ledgerRowOf_user. }
  split.
  { by rewrite <- ledgerMark_user, Hmarks, failedMark_failures. }
  split; [by rewrite <- ledgerPairOf_user|].
  intros other H1 H2. by rewrite !lookup_insert_ne.
Qed.

(** X14 on the files of an earlier run, the server down. *)
Lemma retry_run_keeps_ledger_resets_scim_file_witness :
  ∃ te w1 te' w2 w3 results again,
    NewTestExecutor (sampleConfig 2 3 2 4 1 1) true usedWorld = (Ok te, w1) ∧
    ExecuteRetryFailed remoteDown clockFixed [] 0 te w1 = (Ok te', w2) ∧
    (Close te' w2).2 = w3 ∧
    length results = 1%nat ∧
    files w3 !! "scimIDs.csv" = Some [["scim_id"]] ∧
    files w3 !! "failedUsers.csv"
      = Some ([ledgerHeader; ["3"; "a_5"; "user creation failed"; "2025-01-01 10:00:00"]]
                ++ (ledgerRecord <$> again)) ∧
    Z.of_nat (length again) = failures (TestResult.Success <$> results) ∧
    files w3 !! "notes.txt" = Some [["keep"]].
Proof.
  destruct (retry_run_keeps_ledger_resets_scim_file remoteDown clockFixed [] 0
              (sampleConfig 2 3 2 4 1 1) usedWorld
              [ledgerHeader; ["3"; "a_5"; "user creation failed"; "2025-01-01 10:00:00"]]
              [ {| FailedUser.TenantID := 3; FailedUser.Username := "a_5";
                   FailedUser.Error := "user creation failed";
                   FailedUser.Timestamp := "2025-01-01 10:00:00" |} ])
    as (te & w1 & te' & w2 & w3 & results & again
        & H1 & _ & H3 & H4 & _ & H6 & H7 & H8 & H9 & _ & H11);
    [discriminate | reflexivity | reflexivity | discriminate | cbn; lia
    | cbn; unfold GoInt.in_range, GoInt.minInt, GoInt.maxInt; lia
    | cbn; unfold GoInt.in_range, GoInt.minInt, GoInt.maxInt; lia |].
  exists te, w1, te', w2, w3, results, again.
  split; [exact H1|]. split; [exact H3|]. split; [exact H4|]. split; [exact H6|].
  split; [exact H7|]. split; [exact H8|]. split; [exact H9|].
  rewrite (H11 "notes.txt") by discriminate. reflexivity.
Defined.

(** ** X15: when a user counts as created *)

Lemma CreateUserWithName_result_inl username0 rep userResp :
  CreateUserWithName_result username0 rep = inl userResp →
  ∃ status body,
    rep = Response status body None (inl userResp) ∧
    (status = StatusCreated ∨ status = StatusOK) ∧
    SCIMUserResponse.UserName userResp = username0.
Proof.
  destruct rep as [msg|status body [readErr|] [resp|decodeErr]]; cbn; try done.
  - destruct (bool_decide (status ≠ StatusCreated ∧ status ≠ StatusOK)) eqn:Es; [done|].
    destruct (bool_decide (SCIMUserResponse.UserName resp ≠ username0)) eqn:En; [done|].
    intros [= <-]. exists status, body. split; [done|].
    apply bool_decide_eq_false in Es. apply bool_decide_eq_false in En. split.
    + destruct (decide (status = StatusCreated)); [by left|].
      destruct (decide (status = StatusOK)); [by right|]. by destruct Es.
    + by destruct (decide (SCIMUserResponse.UserName resp = username0)).
  - by destruct (bool_decide _).
Qed.

Lemma CreateUserWithName_result_inr username0 rep err :
  CreateUserWithName_result username0 rep = inr err → ¬ accepted username0 rep.
Proof.
  intros Hres (status & body & userResp & -> & Hstatus & Hname). cbn in Hres.
  rewrite bool_decide_eq_false_2 in Hres by (intros [? ?]; destruct Hstatus; done).
  rewrite bool_decide_eq_false_2 in Hres by (intros ?; done). done.
Qed.

(** X15: one pass of the loop of [userCreationWorker] sends one request
    and reports one result, for the tenant, user and thread of the pass.
    The result says success exactly when the request was answered, the body
    was read, the status is 201 or 200, the body was decoded and the user
    name in it is the one asked for; the result then carries the ID of the
    reply and nothing is put into the ledger.  In every other case the
    result carries the error and no ID, and the pass hands one record to
    the ledger writer, if there is one, with the tenant, the user name and
    that same error message. *)
Theorem user_success_iff_reply_accepted
    (remote : Z → nat → Request → Reply) (now : Z → nat → string)
    (te : TestExecutor) (task : WorkerTask.t) (userIndex tenantIndex : Z)
    (k : nat) (steps : list event) :
  let threadID := WorkerTask.ThreadID task in
  let client := WorkerTask.Client task in
  let req := CreateUser_request client tenantIndex userIndex in
  let rep := remote threadID k req in
  ∃ added r,
    userCreationStep remote now te task userIndex tenantIndex (k, steps)
      = (S k, steps ++ added) ∧
    requests added = [req] ∧
    sent added = [r] ∧
    TestResult.TenantIndex r = tenantIndex ∧
    TestResult.UserIndex r = userIndex ∧
    TestResult.ThreadID r = threadID ∧
    (TestResult.Success r = true
       ↔ accepted (GetTestUsername (HTTPClient.config client) userIndex) rep) ∧
    (TestResult.Success r = true →
       TestResult.Error r = None ∧
       omap ledgerRowOf added = [] ∧
       ∃ status body userResp,
         rep = Response status body None (inl userResp) ∧
         TestResult.ScimID r = SCIMUserResponse.ID userResp) ∧
    (TestResult.Success r = false →
       ∃ err,
         TestResult.Error r = Some err ∧
         TestResult.ScimID r = "" ∧
         omap ledgerRowOf added
           = if failedUsersWriter te is Some _
             then [[Strconv.Itoa tenantIndex; GetTestUsername (config te) userIndex;
                    err; now threadID k]]
             else []).
Proof.
  intros threadID client req rep.
  unfold userCreationStep. fold threadID client.
  change (CreateUserWithName_request client tenantIndex
            (GetTestUsername (HTTPClient.config client) userIndex)) with req.
  fold rep.
  destruct (CreateUserWithName_result _ rep) as [userResp|err] eqn:Eres.
  - destruct (CreateUserWithName_result_inl _ _ _ Eres) as (status & body & Hrep & Hs & Hn).
    eexists _, _. split; [reflexivity|]. split; [reflexivity|]. split; [reflexivity|].
    cbn [TestResult.TenantIndex TestResult.UserIndex TestResult.ThreadID
         TestResult.Success TestResult.Error TestResult.ScimID].
    split_and!; try reflexivity.
    + split; [|done]. intros _. by exists status, body, userResp.
    + intros _. split_and!; try reflexivity. by exists status, body, userResp.
    + done.
  - pose proof (CreateUserWithName_result_inr _ _ _ Eres) as Hnot.
    eexists _, _. split; [reflexivity|]. split.
    { unfold requests. rewrite !omap_app. by destruct (failedUsersWriter te). }
    split.
    { unfold sent. rewrite !omap_app. by destruct (failedUsersWriter te). }
    cbn [TestResult.TenantIndex TestResult.UserIndex TestResult.ThreadID
         TestResult.Success TestResult.Error TestResult.ScimID].
    split_and!; try reflexivity.
    + split; [done|]. intros Hacc. by destruct Hnot.
    + done.
    + intros _. exists err. split_and!; try reflexivity.
      rewrite !omap_app. by destruct (failedUsersWriter te).
Qed.
